(** * Relation extractor: candidate generation, marker rewriting, chunked
      embedding and persistence of [flair/models/relation_extractor_model.py]

    The development follows the source function by function.  Python
    exceptions are values of [exn] in the [result] monad, the objects the
    embedding provider mutates in place (token and sentence embeddings, the
    provider's train/eval mode) live in an explicit [World] that
    [forward_pass] threads, and tensor entries are an abstract type
    [scalar]: no theorem depends on floating-point arithmetic. *)

From Stdlib Require Import Ascii.
From stdpp Require Import base decidable option list strings pretty functions gmap.

(** ** Exceptions *)

Inductive exn : Set :=
| NameError
| UnboundLocalError
| IndexError
| KeyError
| TypeError
| AttributeError
| ValueError
| RuntimeError.

Inductive result (A : Type) : Type :=
| Ok (a : A)
| Raise (e : exn).
Arguments Ok {A} a.
Arguments Raise {A} e.

Global Instance result_ret : MRet result := fun A a => Ok a.
Global Instance result_bind : MBind result := fun A B f r =>
  match r with
  | Ok a => f a
  | Raise e => Raise e
  end.

Definition is_raise {A} (r : result A) : Prop :=
  match r with
  | Ok _ => False
  | Raise _ => True
  end.

(** A Python [for] loop whose body may raise: the accumulator is threaded from
    left to right and the first exception leaves the loop. *)
Fixpoint for_each {A S : Type} (body : S → A → result S) (xs : list A) (s : S)
  : result S :=
  match xs with
  | [] => Ok s
  | x :: xs' => s' ← body s x; for_each body xs' s'
  end.

(** ** Data model of [flair.data] as this file uses it

    [flair.data] is not among the sources: tokens, spans, labels and
    sentences are modelled from the spec and from the way the source uses
    them.  [==] on tokens and on spans is equality of the records below: two
    tokens are equal when they are at the same position of the same sentence
    with the same text, two spans when they have the same tokens.  On the
    tokens and spans of one sentence this is what object identity gives. *)

(** Identity of a [Sentence] object.  The sentences given to [forward_pass]
    are named by the caller; the [k]-th sentence that one call creates in
    [add_entity_markers] is [ExpandedSentence k]. *)
Inductive SentenceId : Set :=
| OriginalSentence (n : nat)
| ExpandedSentence (k : nat).

Global Instance SentenceId_eq_dec : EqDecision SentenceId.
Proof. solve_decision. Defined.

(** Modelled from the spec: the class [Token] of [flair.data].
    [token.sentence] is a reference to the owning sentence, [token.idx] the
    1-based position in it. *)
Record Token : Set := mkToken {
  tok_sentence : SentenceId;
  idx : nat;
  text : string
}.

Global Instance Token_eq_dec : EqDecision Token.
Proof. solve_decision. Defined.

(** Modelled from the spec: the class [Span] of [flair.data], an ordered
    sequence of tokens.  A span is not empty: [span[0]] is [span_first],
    [span.tokens] is [tokens], [span[-1]] is [span_last]. *)
Record Span : Set := mkSpan {
  span_first : Token;
  span_rest : list Token
}.

Global Instance Span_eq_dec : EqDecision Span.
Proof. solve_decision. Defined.

Definition tokens (s : Span) : list Token := span_first s :: span_rest s.

Definition span_last (s : Span) : Token := List.last (span_rest s) (span_first s).

(** [" ".join(words)] *)
Definition join_words (words : list string) : string := String.concat " " words.

(** [span.text] *)
Definition span_text (s : Span) : string := join_words (text <$> tokens s).

(** Modelled from the spec: [SpanLabel(span, value)] of [flair.data], an
    entity annotation. *)
Record SpanLabel : Set := mkSpanLabel {
  span : Span;
  span_value : string
}.

(** Modelled from the spec: [RelationLabel(head, tail, value)] of
    [flair.data], a gold relation annotation. *)
Record RelationLabel : Set := mkRelationLabel {
  rel_head : Span;
  rel_tail : Span;
  rel_value : string
}.

(** [RelationLabel(head=span_1, tail=span_2, value=None, score=None)]: the
    pending candidate that [forward_pass] hands back for later population;
    value and score are unset. *)
Record PendingRelationLabel : Set := mkPending {
  pending_head : Span;
  pending_tail : Span
}.

(** Modelled from the spec: the class [Sentence] of [flair.data], with its
    identity, its tokens and its annotation layers.
    [sentence.get_labels(typename)] is [get_relation_labels] on the relation
    layer and [get_span_labels] on the entity layer. *)
Record Sentence : Set := mkSentence {
  sent_id : SentenceId;
  sent_tokens : list Token;
  get_relation_labels : option string → list RelationLabel;
  get_span_labels : option string → list SpanLabel
}.

(** ** [Sentence(text, use_tokenizer=False)] *)

Definition space : ascii := " "%char.

Definition is_empty (s : string) : bool :=
  match s with
  | EmptyString => true
  | String _ _ => false
  end.

(** Modelled from the spec: the whitespace tokenizer behind
    [Sentence(text, use_tokenizer=False)] ([flair.data] is not among the
    sources).  The text is cut at every space character, empty pieces are
    dropped and every other piece is kept literally, so that marker tokens
    stay literal tokens.  [word] is the piece read so far. *)
Fixpoint run_tokenize (word : string) (txt : string) : list string :=
  match txt with
  | EmptyString => if is_empty word then [] else [word]
  | String c rest =>
      if bool_decide (c = space)
      then (if is_empty word then run_tokenize "" rest
            else word :: run_tokenize "" rest)
      else run_tokenize (word +:+ String c "") rest
  end.

(** The new sentence owns fresh tokens numbered from 1 and carries no
    annotation. *)
Definition Sentence_from_text (fresh : SentenceId) (txt : string) : Sentence :=
  {| sent_id := fresh;
     sent_tokens := imap (fun i w => mkToken fresh (S i) w) (run_tokenize "" txt);
     get_relation_labels := fun _ => [];
     get_span_labels := fun _ => [] |}.

(** [sentence[i]] for [i >= 0] *)
Definition sentence_getitem (s : Sentence) (i : nat) : result Token :=
  match sent_tokens s !! i with
  | Some t => Ok t
  | None => Raise IndexError
  end.

(** Reading a local variable that may not have been assigned. *)
Definition read_local {A} (v : option A) : result A :=
  match v with
  | Some a => Ok a
  | None => Raise UnboundLocalError
  end.

(** ** [add_entity_markers] *)

(** The local variables of the scanning loop.  [None] is Python's [None] for
    [entity_one_is_first] and "not assigned yet" for the four positions. *)
Record MarkerScan : Set := mkScan {
  scan_text : string;
  entity_one_is_first : option bool;
  offset : nat;
  span_1_startid : option nat;
  span_2_startid : option nat;
  span_1_stopid : option nat;
  span_2_stopid : option nat
}.

Definition scan_init : MarkerScan := mkScan "" None 0 None None None None.

Definition open_e2 (st : MarkerScan) : MarkerScan :=
  mkScan (scan_text st +:+ " <e2>")
         (match entity_one_is_first st with None => Some false | b => b end)
         (offset st + 1)
         (span_1_startid st) (Some (offset st + 1))
         (span_1_stopid st) (span_2_stopid st).

Definition open_e1 (st : MarkerScan) : MarkerScan :=
  mkScan (scan_text st +:+ " <e1>")
         (match entity_one_is_first st with None => Some true | b => b end)
         (offset st + 1)
         (Some (offset st + 1)) (span_2_startid st)
         (span_1_stopid st) (span_2_stopid st).

Definition emit_token (token : Token) (st : MarkerScan) : MarkerScan :=
  mkScan (scan_text st +:+ " " +:+ text token)
         (entity_one_is_first st) (offset st)
         (span_1_startid st) (span_2_startid st)
         (span_1_stopid st) (span_2_stopid st).

Definition close_e1 (st : MarkerScan) : MarkerScan :=
  mkScan (scan_text st +:+ " </e1>")
         (entity_one_is_first st) (offset st + 1)
         (span_1_startid st) (span_2_startid st)
         (Some (offset st + 1)) (span_2_stopid st).

Definition close_e2 (st : MarkerScan) : MarkerScan :=
  mkScan (scan_text st +:+ " </e2>")
         (entity_one_is_first st) (offset st + 1)
         (span_1_startid st) (span_2_startid st)
         (span_1_stopid st) (Some (offset st + 1)).

Definition next_offset (st : MarkerScan) : MarkerScan :=
  mkScan (scan_text st) (entity_one_is_first st) (offset st + 1)
         (span_1_startid st) (span_2_startid st)
         (span_1_stopid st) (span_2_stopid st).

Definition when (b : bool) (f : MarkerScan → MarkerScan) (st : MarkerScan)
  : MarkerScan := if b then f st else st.

(** One iteration of [for token in sentence]. *)
Definition scan_token (span_1 span_2 : Span) (st : MarkerScan) (token : Token)
  : MarkerScan :=
  let st := when (bool_decide (token = span_first span_2)) open_e2 st in
  let st := when (bool_decide (token = span_first span_1)) open_e1 st in
  let st := emit_token token st in
  let st := when (bool_decide (token = span_last span_1)) close_e1 st in
  let st := when (bool_decide (token = span_last span_2)) close_e2 st in
  next_offset st.

Definition marker_scan (sentence : Sentence) (span_1 span_2 : Span) : MarkerScan :=
  fold_left (scan_token span_1 span_2) (sent_tokens sentence) scan_init.

(** [Span([token])] *)
Definition single_token_span (t : Token) : Span := mkSpan t [].

(** [fresh] names the sentence object the call creates.  The two [asd]
    statements of the source read an undefined name, which raises
    [NameError]. *)
Definition add_entity_markers (fresh : SentenceId) (sentence : Sentence)
    (span_1 span_2 : Span) : result (Sentence * (Span * Span)) :=
  let st := marker_scan sentence span_1 span_2 in
  let expanded_sentence := Sentence_from_text fresh (scan_text st) in
  id1 ← read_local (span_1_startid st);
  t1 ← sentence_getitem expanded_sentence (id1 - 1);
  let expanded_span_1 := single_token_span t1 in
  id2 ← read_local (span_2_startid st);
  t2 ← sentence_getitem expanded_sentence (id2 - 1);
  let expanded_span_2 := single_token_span t2 in
  if negb (bool_decide (span_text expanded_span_1 = "<e1>")) then Raise NameError
  else if negb (bool_decide (span_text expanded_span_2 = "<e2>")) then Raise NameError
  else Ok (expanded_sentence,
           match entity_one_is_first st with
           | Some true => (expanded_span_1, expanded_span_2)
           | _ => (expanded_span_2, expanded_span_1)
           end).


(** ** Tensors, layers and the embedding provider *)

(** What the model takes from [torch] and from [flair.data] without looking
    inside: the type of tensor entries with the arithmetic of the linear
    layers, the samples drawn by the random initialisers and by dropout, and
    the key text of a span. *)
Class Backend := {
  scalar : Type;
  szero : scalar;
  sadd : scalar → scalar → scalar;
  smul : scalar → scalar → scalar;
  relu : scalar → scalar;
  (* [xavier_uniform layer i j] and [bias_sample layer i]: the values the
     initialisers draw for the entries of a freshly built layer. *)
  xavier_uniform : nat → nat → nat → scalar;
  bias_sample : nat → nat → scalar;
  (* [dropout_sample p i j x]: what dropout with probability [p] makes of
     entry [(i, j)] of its input in training mode. *)
  dropout_sample : scalar → nat → nat → scalar → scalar;
  (* [span.id_text]; nothing below depends on how the text is built. *)
  id_text : Span → string
}.

Section Model.

Context `{Backend}.

(** A 1-D tensor is a list of entries, a 2-D tensor a list of rows. *)
Abbreviation Vector := (list scalar).
Abbreviation Tensor := (list (list scalar)).

(** [torch.cat] of 1-D tensors *)
Definition torch_cat (parts : list Vector) : Vector := List.concat parts.

(** [torch.stack] of 1-D tensors: the list must be non-empty and all its
    members of one length. *)
Definition torch_stack (rows : list Vector) : result Tensor :=
  match rows with
  | [] => Raise RuntimeError
  | r :: rest =>
      if forallb (fun r' => length r' =? length r) rest then Ok rows
      else Raise RuntimeError
  end.

Record Linear := mkLinear {
  in_features : nat;
  out_features : nat;
  weight : Tensor;
  bias : Vector
}.

(** [nn.Linear(in_features, out_features)] followed by
    [nn.init.xavier_uniform_] on its weight. *)
Definition nn_Linear (layer in_f out_f : nat) : Linear :=
  {| in_features := in_f;
     out_features := out_f;
     weight := (fun i => (fun j => xavier_uniform layer i j) <$> seq 0 in_f) <$> seq 0 out_f;
     bias := (fun i => bias_sample layer i) <$> seq 0 out_f |}.

Definition dot (x w : Vector) : scalar := fold_right sadd szero (zip_with smul x w).

Definition linear_row (l : Linear) (x : Vector) : Vector :=
  zip_with sadd ((fun w => dot x w) <$> weight l) (bias l).

(** Applying a linear layer to a 2-D input: the width of the input must be
    the layer's [in_features]. *)
Definition linear_forward (l : Linear) (input : Tensor) : result Tensor :=
  if forallb (fun row => length row =? in_features l) input
  then Ok (linear_row l <$> input)
  else Raise RuntimeError.

Definition relu_forward (input : Tensor) : Tensor :=
  (fun row : Vector => relu <$> row) <$> input.

(** [torch.nn.Dropout(p)]: the identity outside training mode. *)
Definition dropout_forward (p : scalar) (training : bool) (input : Tensor) : Tensor :=
  if training
  then imap (fun i row => imap (fun j x => dropout_sample p i j x) row) input
  else input.

Inductive EmbeddingsClass : Set :=
| TokenEmbeddings
| TransformerDocumentEmbeddings.

Global Instance EmbeddingsClass_eq_dec : EqDecision EmbeddingsClass.
Proof. solve_decision. Defined.

(** Modelled from the spec: the embedding provider of [flair.embeddings], an
    external collaborator.  [token_vector mode batch p k] is the vector that
    [embed(batch)] stores on token [k] of sentence [p] of the batch when the
    provider is in training mode [mode]; [document_vector mode batch p] the
    one a document-level provider stores on sentence [p]. *)
Record Embeddings := mkEmbeddings {
  embeddings_class : EmbeddingsClass;
  embedding_length : nat;
  token_vector : bool → list Sentence → nat → nat → Vector;
  document_vector : bool → list Sentence → nat → Vector
}.

(** What a call does to the provider, in order. *)
Inductive Event :=
| EmbedCall (mode : bool) (batch : list Sentence)
| EvalCall
| TrainCall.

(** The mutable objects outside the model: the provider's mode, the
    embeddings stored on tokens and on sentences (the empty tensor where none
    is stored), and the log of the calls made to the provider. *)
Record World := mkWorld {
  provider_training : bool;
  token_embedding : Token → Vector;
  sentence_embedding : SentenceId → Vector;
  calls : list Event
}.

Definition provider_eval (w : World) : World :=
  mkWorld false (token_embedding w) (sentence_embedding w) (calls w ++ [EvalCall]).

Definition provider_train (w : World) : World :=
  mkWorld true (token_embedding w) (sentence_embedding w) (calls w ++ [TrainCall]).

Definition store_sentence_tokens (e : Embeddings) (mode : bool) (batch : list Sentence)
    (store : Token → Vector) (entry : nat * Sentence) : Token → Vector :=
  fold_left (fun st kt => <[kt.2 := token_vector e mode batch entry.1 kt.1]> st)
            (imap pair (sent_tokens entry.2)) store.

Definition store_document (e : Embeddings) (mode : bool) (batch : list Sentence)
    (store : SentenceId → Vector) (entry : nat * Sentence) : SentenceId → Vector :=
  <[sent_id entry.2 := document_vector e mode batch entry.1]> store.

(** Modelled from the spec: [embeddings.embed(batch)] of the provider, which
    stores an embedding on every token of the
    batch (token-level provider) or on every sentence of it (document-level
    provider), in the provider's current mode. *)
Definition embed (e : Embeddings) (batch : list Sentence) (w : World) : World :=
  let mode := provider_training w in
  match embeddings_class e with
  | TokenEmbeddings =>
      mkWorld mode
        (fold_left (store_sentence_tokens e mode batch) (imap pair batch) (token_embedding w))
        (sentence_embedding w)
        (calls w ++ [EmbedCall mode batch])
  | TransformerDocumentEmbeddings =>
      mkWorld mode
        (token_embedding w)
        (fold_left (store_document e mode batch) (imap pair batch) (sentence_embedding w))
        (calls w ++ [EmbedCall mode batch])
  end.

(** ** The model and its constructor *)

Inductive Decoder :=
| LinearDecoder (decoder : Linear)
| NonLinearDecoder (decoder_1 decoder_2 : Linear).

Record RelationExtractor := mkRelationExtractor {
  embeddings : Embeddings;
  label_type : option string;
  span_label_type : option string;
  use_gold_spans : bool;
  pooling_operation : string;
  use_entity_markers : bool;
  dropout_value : scalar;
  use_entity_pairs : option (gset (string * string));
  non_linear_decoder : bool;
  label_dictionary : list string;
  loss_weights : option (gmap string scalar);
  layers : Decoder;
  training : bool
}.

(** Modelled from the spec: the keyword arguments handed on to the
    classifier base class of [flair.nn], which keeps the label dictionary and
    the loss weights. *)
Record ClassifierArgs := mkClassifierArgs {
  arg_label_dictionary : list string;
  arg_loss_weights : option (gmap string scalar)
}.

(** Modelled from the spec: [label_dictionary.add_item(item)], which appends
    an item that the dictionary does not have yet. *)
Definition add_item (d : list string) (item : string) : list string :=
  if bool_decide (item ∈ d) then d else d ++ [item].

Definition relation_representation_length (e : Embeddings) (pooling : string) : nat :=
  let n := 2 * embedding_length e in
  let n := if bool_decide (pooling = "first_last") then n * 2 else n in
  if bool_decide (embeddings_class e = TransformerDocumentEmbeddings)
  then embedding_length e
  else n.

(** [RelationExtractor.__init__]; a module is in training mode when built. *)
Definition RelationExtractor_init (embeddings : Embeddings)
    (label_type span_label_type : option string)
    (use_entity_markers use_gold_spans : bool)
    (use_entity_pairs : option (list (string * string)))
    (pooling_operation : string) (dropout_value : scalar)
    (non_linear_decoder : bool) (classifierargs : ClassifierArgs)
  : RelationExtractor :=
  let width := relation_representation_length embeddings pooling_operation in
  let dictionary := add_item (arg_label_dictionary classifierargs) "O" in
  {| embeddings := embeddings;
     label_type := label_type;
     span_label_type := span_label_type;
     use_gold_spans := use_gold_spans;
     pooling_operation := pooling_operation;
     use_entity_markers := use_entity_markers;
     dropout_value := dropout_value;
     use_entity_pairs := list_to_set <$> use_entity_pairs;
     non_linear_decoder := non_linear_decoder;
     label_dictionary := dictionary;
     loss_weights := arg_loss_weights classifierargs;
     layers :=
       if non_linear_decoder
       then NonLinearDecoder (nn_Linear 1 width 1024)
                             (nn_Linear 2 1024 (length dictionary))
       else LinearDecoder (nn_Linear 0 width (length dictionary));
     training := true |}.

(** The defaults of the constructor's keyword parameters. *)
Definition default_use_entity_markers : bool := false.
Definition default_use_gold_spans : bool := false.
Definition default_pooling_operation : string := "first_last".
Definition default_non_linear_decoder : bool := false.

(** ** [forward_pass]: candidate generation *)

Definition create_position_string (head tail : Span) : string :=
  id_text head +:+ " -> " +:+ id_text tail.

(** The five lists that the generation loop appends to. *)
Record Acc := mkAcc {
  empty_label_candidates : list PendingRelationLabel;
  entity_pairs : list (Span * Span);
  labels : list (list string);
  sentences_to_label : list SentenceId;
  sentences_to_embed : list Sentence
}.

(** The gold index of one sentence: a later annotation of the same ordered
    pair replaces an earlier one. *)
Definition build_relation_dict (self : RelationExtractor) (sentence : Sentence)
  : gmap string RelationLabel :=
  fold_left
    (fun d relation_label =>
       <[create_position_string (rel_head relation_label) (rel_tail relation_label)
         := relation_label]> d)
    (get_relation_labels sentence (label_type self)) ∅.

(** [use_entity_pairs is None or (value_1, value_2) in use_entity_pairs] *)
Definition allowed_pair (self : RelationExtractor) (span_label span_label_2 : SpanLabel)
  : bool :=
  match use_entity_pairs self with
  | Some pairs => bool_decide ((span_value span_label, span_value span_label_2) ∈ pairs)
  | None => true
  end.

(** The label of a pair: the gold value when the index has its position
    string; otherwise nothing ([continue]) in gold-only mode and ['O'] if
    all spans are used. *)
Definition gold_label (self : RelationExtractor) (relation_dict : gmap string RelationLabel)
    (span_1 span_2 : Span) : option string :=
  match relation_dict !! create_position_string span_1 span_2 with
  | Some relation_label => Some (rel_value relation_label)
  | None => if use_gold_spans self then None else Some "O"
  end.

(** The appends made for a pair that got a label. *)
Definition append_candidate (self : RelationExtractor) (return_label_candidates : bool)
    (sentence : Sentence) (span_1 span_2 : Span) (label : string) (acc : Acc)
  : result Acc :=
  acc1 ← (if use_entity_markers self
          then
            r ← add_entity_markers (ExpandedSentence (length (sentences_to_embed acc)))
                                   sentence span_1 span_2;
            Ok (mkAcc (empty_label_candidates acc)
                      (entity_pairs acc ++ [r.2])
                      (labels acc)
                      (sentences_to_label acc)
                      (sentences_to_embed acc ++ [r.1]))
          else
            Ok (mkAcc (empty_label_candidates acc)
                      (entity_pairs acc ++ [(span_1, span_2)])
                      (labels acc)
                      (sentences_to_label acc)
                      (sentences_to_embed acc)));
  let acc2 := mkAcc (empty_label_candidates acc1) (entity_pairs acc1)
                    (labels acc1 ++ [[label]])
                    (sentences_to_label acc1) (sentences_to_embed acc1) in
  Ok (if return_label_candidates
      then mkAcc (empty_label_candidates acc2 ++ [mkPending span_1 span_2])
                 (entity_pairs acc2) (labels acc2)
                 (sentences_to_label acc2 ++ [tok_sentence (span_first span_1)])
                 (sentences_to_embed acc2)
      else acc2).

(** The body of the inner loop, [for span_label_2 in span_labels]. *)
Definition pair_step (self : RelationExtractor) (return_label_candidates : bool)
    (sentence : Sentence) (relation_dict : gmap string RelationLabel)
    (span_label : SpanLabel) (acc : Acc) (span_label_2 : SpanLabel) : result Acc :=
  let span_1 := span span_label in
  let span_2 := span span_label_2 in
  if bool_decide (span_1 = span_2) then Ok acc
  else if negb (allowed_pair self span_label span_label_2) then Ok acc
  else match gold_label self relation_dict span_1 span_2 with
       | None => Ok acc
       | Some label =>
           append_candidate self return_label_candidates sentence span_1 span_2 label acc
       end.

(** The body of [for sentence in sentences]. *)
Definition sentence_step (self : RelationExtractor) (return_label_candidates : bool)
    (acc : Acc) (sentence : Sentence) : result Acc :=
  let relation_dict := build_relation_dict self sentence in
  let span_labels := get_span_labels sentence (span_label_type self) in
  for_each
    (fun acc span_label =>
       for_each (pair_step self return_label_candidates sentence relation_dict span_label)
                span_labels acc)
    span_labels acc.

Definition generate (self : RelationExtractor) (sentences : list Sentence)
    (return_label_candidates : bool) : result Acc :=
  for_each (sentence_step self return_label_candidates) sentences
           (mkAcc [] [] [] [] (if use_entity_markers self then [] else sentences)).

(** ** [forward_pass]: chunking and embedding *)

(** [range(start, stop, step)] for a step that is not negative; a zero step
    raises [ValueError]. *)
Fixpoint range_from (fuel x stop step : nat) : list nat :=
  match fuel with
  | 0 => []
  | S fuel' => if x <? stop then x :: range_from fuel' (x + step) stop step else []
  end.

Definition py_range (start stop step : nat) : result (list nat) :=
  if step =? 0 then Raise ValueError
  else Ok (range_from (stop - start) start stop step).

(** [l[start : stop]] for indices that are not negative *)
Definition py_slice {A} (l : list A) (start stop : nat) : list A :=
  take (stop - start) (drop start l).

(** [[l[x : x + size] for x in range(0, len(l), size)]] *)
Definition split_steps {A} (l : list A) (size : nat) : result (list (list A)) :=
  starts ← py_range 0 (length l) size;
  Ok ((fun x => py_slice l x (x + size)) <$> (starts : list nat)).

Definition embedding_steps (sentences : list Sentence) (acc : Acc)
  : result (list (list Sentence) * list (list (Span * Span))) :=
  let max_relations_in_batch := length sentences * 4 in
  if max_relations_in_batch <? length (sentences_to_embed acc)
  then
    sentence_embed_steps ← split_steps (sentences_to_embed acc) max_relations_in_batch;
    entity_pairs_steps ← split_steps (entity_pairs acc) max_relations_in_batch;
    Ok (sentence_embed_steps, entity_pairs_steps)
  else Ok ([sentences_to_embed acc], [entity_pairs acc]).

(** The variables of the two embedding loops. *)
Record EmbedLoop := mkEmbedLoop {
  relation_embeddings : list Vector;
  detach : bool;
  world : World
}.

(** [if detach: self.embeddings.eval()] and then
    [self.embeddings.embed(sentences_to_embed_step)] *)
Definition embed_step (self : RelationExtractor) (st : EmbedLoop)
    (sentences_to_embed_step : list Sentence) : World :=
  embed (embeddings self) sentences_to_embed_step
        (if detach st then provider_eval (world st) else world st).

(** One step of the loop for a document-level provider. *)
Definition document_step (self : RelationExtractor) (st : EmbedLoop)
    (sentences_to_embed_step : list Sentence) : EmbedLoop :=
  let w := embed_step self st sentences_to_embed_step in
  mkEmbedLoop
    (fold_left (fun rel entity_pair_sentence =>
                  rel ++ [sentence_embedding w (sent_id entity_pair_sentence)])
               sentences_to_embed_step (relation_embeddings st))
    true w.

(** [torch.cat([span_1.tokens[0].get_embedding(), span_2.tokens[0].get_embedding()])] *)
Definition pair_embedding (w : World) (entity_pair : Span * Span) : Vector :=
  torch_cat [token_embedding w (span_first entity_pair.1);
             token_embedding w (span_first entity_pair.2)].

(** One step of the loop for a token-level provider, over
    [zip(sentence_embed_steps, entity_pairs_steps)]. *)
Definition token_step (self : RelationExtractor) (st : EmbedLoop)
    (step : list Sentence * list (Span * Span)) : EmbedLoop :=
  let w := embed_step self st step.1 in
  mkEmbedLoop
    (fold_left (fun rel entity_pair => rel ++ [pair_embedding w entity_pair])
               step.2 (relation_embeddings st))
    true w.

Definition embed_all (self : RelationExtractor)
    (sentence_embed_steps : list (list Sentence))
    (entity_pairs_steps : list (list (Span * Span))) (w : World) : EmbedLoop :=
  if bool_decide (embeddings_class (embeddings self) = TransformerDocumentEmbeddings)
  then fold_left (document_step self) sentence_embed_steps (mkEmbedLoop [] false w)
  else fold_left (token_step self) (zip sentence_embed_steps entity_pairs_steps)
                 (mkEmbedLoop [] false w).

(** ** [forward_pass]: decoding and the result *)

Definition decode (self : RelationExtractor) (all_relations : Tensor) : result Tensor :=
  match non_linear_decoder self, layers self with
  | true, NonLinearDecoder decoder_1 decoder_2 =>
      hidden ← linear_forward decoder_1 all_relations;
      linear_forward decoder_2 (relu_forward hidden)
  | false, LinearDecoder decoder => linear_forward decoder all_relations
  | _, _ => Raise AttributeError
  end.

(** The result tuple: scores ([None] when absent), labels and, when label
    candidates were asked for, the two trailing lists. *)
Record Output := mkOutput {
  sentence_relation_scores : option Tensor;
  out_labels : list (list string);
  out_candidates : option (list SentenceId * list PendingRelationLabel)
}.

(** The branch [if len(labels) > 0] up to the decoder. *)
Definition embed_and_decode (self : RelationExtractor) (sentences : list Sentence)
    (acc : Acc) (w : World) : result (Tensor * World) :=
  steps ← embedding_steps sentences acc;
  let st := embed_all self steps.1 steps.2 w in
  let w' := if training self then provider_train (world st) else world st in
  all_relations ← torch_stack (relation_embeddings st);
  let all_relations := dropout_forward (dropout_value self) (training self) all_relations in
  sentence_relation_scores ← decode self all_relations;
  Ok (sentence_relation_scores, w').

Definition forward_pass (self : RelationExtractor) (sentences : list Sentence)
    (return_label_candidates : bool) (w : World) : result (Output * World) :=
  acc ← generate self sentences return_label_candidates;
  scored ← (if 0 <? length (labels acc)
            then r ← embed_and_decode self sentences acc w; Ok (Some r.1, r.2)
            else Ok (None, w));
  Ok (mkOutput scored.1 (labels acc)
               (if return_label_candidates
                then Some (sentences_to_label acc, empty_label_candidates acc)
                else None),
      scored.2).

(** ** Persistence *)

(** The values a state dictionary holds under its string keys. *)
Inductive StateValue :=
| VParameters (params : Decoder)
| VEmbeddings (e : Embeddings)
| VDictionary (d : list string)
| VTypeName (t : option string)
| VLossWeights (lw : option (gmap string scalar))
| VStr (s : string)
| VFloat (x : scalar)
| VEntityPairs (pairs : option (gset (string * string)))
| VBool (b : bool).

(** [self.state_dict()]: the parameters of the decoder layers (those of the
    provider travel with the provider object itself). *)
Definition state_dict (self : RelationExtractor) : Decoder := layers self.

Definition _get_state_dict (self : RelationExtractor) : gmap string StateValue :=
  list_to_map
    [("state_dict", VParameters (state_dict self));
     ("token_embeddings", VEmbeddings (embeddings self));
     ("label_dictionary", VDictionary (label_dictionary self));
     ("label_type", VTypeName (label_type self));
     ("span_label_type", VTypeName (span_label_type self));
     ("loss_weights", VLossWeights (loss_weights self));
     ("pooling_operation", VStr (pooling_operation self));
     ("dropout_value", VFloat (dropout_value self));
     ("use_entity_pairs", VEntityPairs (use_entity_pairs self));
     ("use_entity_markers", VBool (use_entity_markers self));
     ("non_linear_decoder", VBool (non_linear_decoder self))].

(** [state[key]] *)
Definition state_item (state : gmap string StateValue) (key : string) : result StateValue :=
  match state !! key with
  | Some v => Ok v
  | None => Raise KeyError
  end.

(** The constructor and [load_state_dict] need values of the right kind; a
    value of another kind under a key is reported as [TypeError]. *)
Definition as_parameters (v : StateValue) : result Decoder :=
  match v with VParameters d => Ok d | _ => Raise TypeError end.
Definition as_embeddings (v : StateValue) : result Embeddings :=
  match v with VEmbeddings e => Ok e | _ => Raise TypeError end.
Definition as_dictionary (v : StateValue) : result (list string) :=
  match v with VDictionary d => Ok d | _ => Raise TypeError end.
Definition as_type_name (v : StateValue) : result (option string) :=
  match v with VTypeName t => Ok t | _ => Raise TypeError end.
Definition as_loss_weights (v : StateValue) : result (option (gmap string scalar)) :=
  match v with VLossWeights lw => Ok lw | _ => Raise TypeError end.
Definition as_str (v : StateValue) : result string :=
  match v with VStr s => Ok s | _ => Raise TypeError end.
Definition as_float (v : StateValue) : result scalar :=
  match v with VFloat x => Ok x | _ => Raise TypeError end.
Definition as_entity_pairs (v : StateValue) : result (option (gset (string * string))) :=
  match v with VEntityPairs ps => Ok ps | _ => Raise TypeError end.
Definition as_bool (v : StateValue) : result bool :=
  match v with VBool b => Ok b | _ => Raise TypeError end.

Definition shape (t : Tensor) : list nat := length <$> t.

(** Copying saved parameters into a layer: the shapes must agree. *)
Definition load_linear (target source : Linear) : result Linear :=
  if bool_decide (shape (weight source) = shape (weight target))
     && bool_decide (length (bias source) = length (bias target))
  then Ok (mkLinear (in_features target) (out_features target)
                    (weight source) (bias source))
  else Raise RuntimeError.

Definition with_layers (model : RelationExtractor) (d : Decoder) : RelationExtractor :=
  mkRelationExtractor (embeddings model) (label_type model) (span_label_type model)
    (use_gold_spans model) (pooling_operation model) (use_entity_markers model)
    (dropout_value model) (use_entity_pairs model) (non_linear_decoder model)
    (label_dictionary model) (loss_weights model) d (training model).

(** [model.load_state_dict(params)]: missing or unexpected layers and
    parameters of another shape are errors. *)
Definition load_state_dict (model : RelationExtractor) (params : Decoder)
  : result RelationExtractor :=
  match layers model, params with
  | LinearDecoder decoder, LinearDecoder saved =>
      d ← load_linear decoder saved;
      Ok (with_layers model (LinearDecoder d))
  | NonLinearDecoder decoder_1 decoder_2, NonLinearDecoder saved_1 saved_2 =>
      d1 ← load_linear decoder_1 saved_1;
      d2 ← load_linear decoder_2 saved_2;
      Ok (with_layers model (NonLinearDecoder d1 d2))
  | _, _ => Raise RuntimeError
  end.

(** [use_gold_spans] is not among the keyword arguments of the constructor
    call, which therefore takes its default. *)
Definition _init_model_with_state_dict (state : gmap string StateValue)
  : result RelationExtractor :=
  token_embeddings ← state_item state "token_embeddings" ≫= as_embeddings;
  label_dictionary ← state_item state "label_dictionary" ≫= as_dictionary;
  label_type ← state_item state "label_type" ≫= as_type_name;
  span_label_type ← state_item state "span_label_type" ≫= as_type_name;
  loss_weights ← state_item state "loss_weights" ≫= as_loss_weights;
  pooling_operation ← state_item state "pooling_operation" ≫= as_str;
  dropout_value ← state_item state "dropout_value" ≫= as_float;
  use_entity_pairs ← state_item state "use_entity_pairs" ≫= as_entity_pairs;
  use_entity_markers ← state_item state "use_entity_markers" ≫= as_bool;
  non_linear_decoder ← state_item state "non_linear_decoder" ≫= as_bool;
  let model :=
    RelationExtractor_init token_embeddings label_type span_label_type
      use_entity_markers default_use_gold_spans
      (elements <$> (use_entity_pairs : option (gset (string * string))))
      pooling_operation dropout_value non_linear_decoder
      (mkClassifierArgs label_dictionary loss_weights) in
  params ← state_item state "state_dict" ≫= as_parameters;
  load_state_dict model params.

End Model.

(** * Notions used to state the properties *)

(** ** Marker rewriting *)

Fixpoint has_space (s : string) : bool :=
  match s with
  | EmptyString => false
  | String c rest => bool_decide (c = space) || has_space rest
  end.

(** A word that the tokenizer gives back as it is: not empty and free of
    spaces. *)
Definition clean_word (w : string) : bool := negb (is_empty w) && negb (has_space w).

(** The text the scanning loop builds from a list of words: every word is
    preceded by one space. *)
Definition render (ws : list string) : string :=
  fold_right (fun w acc => " " +:+ w +:+ acc) "" ws.

(** The words that one iteration of the scanning loop appends. *)
Definition token_words (span_1 span_2 : Span) (token : Token) : list string :=
  (if bool_decide (token = span_first span_2) then ["<e2>"] else [])
  ++ (if bool_decide (token = span_first span_1) then ["<e1>"] else [])
  ++ [text token]
  ++ (if bool_decide (token = span_last span_1) then ["</e1>"] else [])
  ++ (if bool_decide (token = span_last span_2) then ["</e2>"] else []).

(** A section of words between an opening and a closing marker. *)
Definition wrap (opening closing : string) (ws : list string) : list string :=
  opening :: ws ++ [closing].

(** ** Candidates *)

Section Notions.

Context `{Backend}.

(** A candidate: an ordered pair of spans of a sentence that passes the
    filters of the generation loop, with the label it gets. *)
Record Candidate := mkCandidate {
  cand_sentence : Sentence;
  cand_span_1 : Span;
  cand_span_2 : Span;
  cand_label : string
}.

(** The candidate that one pass through the inner loop body yields, if any:
    the tests are those of [pair_step], in the same order. *)
Definition pair_candidates (self : RelationExtractor) (sentence : Sentence)
    (relation_dict : gmap string RelationLabel) (span_label span_label_2 : SpanLabel)
  : list Candidate :=
  if bool_decide (span span_label = span span_label_2) then []
  else if negb (allowed_pair self span_label span_label_2) then []
  else match gold_label self relation_dict (span span_label) (span span_label_2) with
       | None => []
       | Some label => [mkCandidate sentence (span span_label) (span span_label_2) label]
       end.

(** The candidates of a sentence in generation order: the outer loop runs
    over the span labels, the inner loop over the span labels again. *)
Definition sentence_candidates (self : RelationExtractor) (sentence : Sentence)
  : list Candidate :=
  let relation_dict := build_relation_dict self sentence in
  let span_labels := get_span_labels sentence (span_label_type self) in
  span_label ← span_labels;
  span_label_2 ← span_labels;
  pair_candidates self sentence relation_dict span_label span_label_2.

(** The candidates of a batch, sentence after sentence. *)
Definition candidates (self : RelationExtractor) (sentences : list Sentence)
  : list Candidate :=
  sentences ≫= sentence_candidates self.

Definition label_of (c : Candidate) : list string := [cand_label c].
Definition pair_of (c : Candidate) : Span * Span := (cand_span_1 c, cand_span_2 c).
Definition pending_of (c : Candidate) : PendingRelationLabel :=
  mkPending (cand_span_1 c) (cand_span_2 c).
Definition owner_of (c : Candidate) : SentenceId := tok_sentence (span_first (cand_span_1 c)).

(** The appends of the generation loop for a list of candidates. *)
Definition append_all (self : RelationExtractor) (return_label_candidates : bool)
    (cs : list Candidate) (acc : Acc) : result Acc :=
  for_each
    (fun acc c =>
       append_candidate self return_label_candidates (cand_sentence c)
                        (cand_span_1 c) (cand_span_2 c) (cand_label c) acc)
    cs acc.

(** Marker rewriting of a list of candidates, the first of which creates
    sentence number [k]. *)
Fixpoint rewrite_from (k : nat) (cs : list Candidate)
  : result (list (Sentence * (Span * Span))) :=
  match cs with
  | [] => Ok []
  | c :: cs' =>
      r ← add_entity_markers (ExpandedSentence k) (cand_sentence c)
                             (cand_span_1 c) (cand_span_2 c);
      rs ← rewrite_from (S k) cs';
      Ok (r :: rs)
  end.

Definition when_asked {A} (return_label_candidates : bool) (l : list A) : list A :=
  if return_label_candidates then l else [].

(** ** Chunks *)

(** [ceil(n / m)] *)
Definition ceil_div (n m : nat) : nat := (n + m - 1) / m.

(** Consecutive chunks of [size] elements, the last one possibly shorter. *)
Fixpoint chunk_list {A} (fuel size : nat) (l : list A) : list (list A) :=
  match fuel with
  | 0 => []
  | S fuel' =>
      match l with
      | [] => []
      | _ :: _ => take size l :: chunk_list fuel' size (drop size l)
      end
  end.

(** ** The provider during the embedding loop *)

(** The world after the embedding steps over the given chunks. *)
Fixpoint run_steps (self : RelationExtractor) (detach : bool) (w : World)
    (steps : list (list Sentence)) : World :=
  match steps with
  | [] => w
  | step :: rest =>
      run_steps self true
        (embed (embeddings self) step (if detach then provider_eval w else w)) rest
  end.

(** The world right after each of the embedding steps. *)
Fixpoint worlds_from (self : RelationExtractor) (detach : bool) (w : World)
    (steps : list (list Sentence)) : list World :=
  match steps with
  | [] => []
  | step :: rest =>
      let w' := embed (embeddings self) step (if detach then provider_eval w else w) in
      w' :: worlds_from self true w' rest
  end.

(** The calls that the embedding loop makes to a provider that starts in
    mode [mode]: the first chunk is embedded as the provider stands, every
    later one after a switch to evaluation mode. *)
Definition loop_events (mode : bool) (steps : list (list Sentence)) : list Event :=
  match steps with
  | [] => []
  | first :: rest =>
      EmbedCall mode first :: (rest ≫= fun step => [EvalCall; EmbedCall false step])
  end.

(** ** Rows of the score tensor *)

(** What the decoder makes of one row. *)
Definition decode_row (self : RelationExtractor) (v : list scalar) : list scalar :=
  match layers self with
  | LinearDecoder decoder => linear_row decoder v
  | NonLinearDecoder decoder_1 decoder_2 =>
      linear_row decoder_2 (relu <$> linear_row decoder_1 v)
  end.

(** What dropout makes of row [i]. *)
Definition dropout_row (self : RelationExtractor) (i : nat) (v : list scalar)
  : list scalar :=
  if training self
  then imap (fun j x => dropout_sample (dropout_value self) i j x) v
  else v.

(** The chunk that holds candidate [i]: with entity markers every candidate
    has a sentence of its own and the chunks hold [4 * N] of them; without,
    the sentences of the batch form the only chunk. *)
Definition chunk_of (self : RelationExtractor) (sentences : list Sentence) (i : nat) : nat :=
  if use_entity_markers self then i / (length sentences * 4) else 0.

(** The chunks of sentences that the embedding loop runs over. *)
Definition sentence_steps (sentences : list Sentence) (acc : Acc) : list (list Sentence) :=
  match embedding_steps sentences acc with
  | Ok steps => steps.1
  | Raise _ => []
  end.

(** The relation representation of candidate [i]: read from the embeddings as
    they are stored right after the chunk of the candidate has been embedded.
    A document-level provider gives the embedding of the [i]-th sentence to
    embed, a token-level one the concatenated embeddings of the first tokens
    of the [i]-th entity pair. *)
Definition representation (self : RelationExtractor) (sentences : list Sentence)
    (acc : Acc) (w : World) (i : nat) : option (list scalar) :=
  let w' := run_steps self false w
              (take (S (chunk_of self sentences i)) (sentence_steps sentences acc)) in
  if bool_decide (embeddings_class (embeddings self) = TransformerDocumentEmbeddings)
  then (fun s => sentence_embedding w' (sent_id s)) <$> sentences_to_embed acc !! i
  else pair_embedding w' <$> entity_pairs acc !! i.

(** The accumulator of a generation that did not raise is consistent: without
    markers the sentences to embed are the batch, with markers there is one
    sentence to embed per entity pair. *)
Definition consistent (self : RelationExtractor) (sentences : list Sentence) (acc : Acc)
  : Prop :=
  (use_entity_markers self = false → sentences_to_embed acc = sentences)
  ∧ (use_entity_markers self = true →
       length (sentences_to_embed acc) = length (entity_pairs acc)).

(** The pairs of [a] with the members of a list that differ from it. *)
Definition pairs_with (a : Span) (l : list Span) : list (Span * Span) :=
  l ≫= fun b => if bool_decide (a = b) then [] else [(a, b)].

(** The ordered pairs of different members of a list, in nested iteration
    order: the cross product without the self-pairs. *)
Definition distinct_pairs (spans : list Span) : list (Span * Span) :=
  a ← spans; pairs_with a spans.

(** ** Models that the constructor can have built *)

(** A layer with the parameter shapes of [nn.Linear(in_f, out_f)]. *)
Definition shaped (l : Linear) (in_f out_f : nat) : Prop :=
  in_features l = in_f ∧ out_features l = out_f
  ∧ shape (weight l) = replicate out_f in_f ∧ length (bias l) = out_f.

(** What the constructor establishes and training keeps: the dictionary has
    ['O'], and the decoder layers are those of the configuration, with
    whatever parameter values. *)
Definition well_formed (self : RelationExtractor) : Prop :=
  "O" ∈ label_dictionary self
  ∧ match non_linear_decoder self, layers self with
    | true, NonLinearDecoder decoder_1 decoder_2 =>
        shaped decoder_1
          (relation_representation_length (embeddings self) (pooling_operation self)) 1024
        ∧ shaped decoder_2 1024 (length (label_dictionary self))
    | false, LinearDecoder decoder =>
        shaped decoder
          (relation_representation_length (embeddings self) (pooling_operation self))
          (length (label_dictionary self))
    | _, _ => False
    end.

End Notions.

(** ** Further notions: markers, keys and stored state *)

(** The four literal marker tokens. *)
Definition is_marker (w : string) : bool :=
  bool_decide (w ∈ ["<e1>"; "</e1>"; "<e2>"; "</e2>"]).

(** A recorded start position points at its marker in a list of words:
    positions count from 1. *)
Definition marker_at (ws : list string) (startid : option nat) (marker : string) : Prop :=
  ∀ id, startid = Some id → 1 ≤ id ∧ ws !! (id - 1) = Some marker.

(** The keys that [_init_model_with_state_dict] reads. *)
Definition required_keys : list string :=
  ["token_embeddings"; "label_dictionary"; "label_type"; "span_label_type";
   "loss_weights"; "pooling_operation"; "dropout_value"; "use_entity_pairs";
   "use_entity_markers"; "non_linear_decoder"; "state_dict"].

Section StoredState.

Context `{Backend}.

(** Two layers with the same parameter values. *)
Definition same_values (a b : Linear) : Prop :=
  weight a = weight b ∧ bias a = bias b.

(** Two decoders of the same kind with the same parameter values. *)
Definition same_parameters (a b : Decoder) : Prop :=
  match a, b with
  | LinearDecoder d, LinearDecoder s => same_values d s
  | NonLinearDecoder d1 d2, NonLinearDecoder s1 s2 => same_values d1 s1 ∧ same_values d2 s2
  | _, _ => False
  end.

(** A model with [use_gold_spans] at the constructor default and in training
    mode, everything else kept. *)
Definition freshly_built (self : RelationExtractor) : RelationExtractor :=
  mkRelationExtractor (embeddings self) (label_type self) (span_label_type self)
    default_use_gold_spans (pooling_operation self) (use_entity_markers self)
    (dropout_value self) (use_entity_pairs self) (non_linear_decoder self)
    (label_dictionary self) (loss_weights self) (layers self) true.

End StoredState.

(** * A concrete backend and concrete inputs *)

(** The key text of a span as the words of the span followed by the positions
    of its tokens. *)
Definition positional_id_text (s : Span) : string :=
  join_words (text <$> tokens s) +:+ " ("
  +:+ String.concat "," ((fun t => pretty (idx t)) <$> tokens s) +:+ ")".

(** Natural numbers as tensor entries, initialisers that draw 1 for weights
    and 0 for biases, and a dropout that keeps every entry. *)
Definition nat_backend : Backend :=
  {| scalar := nat;
     szero := 0;
     sadd := Nat.add;
     smul := Nat.mul;
     relu := id;
     xavier_uniform := fun _ _ _ => 1;
     bias_sample := fun _ _ => 0;
     dropout_sample := fun _ _ _ x => x;
     id_text := positional_id_text |}.

(** A provider whose vectors have the advertised length and tell the
    position of what they embed. *)
Definition demo_provider (class : EmbeddingsClass) (len : nat) : @Embeddings nat_backend :=
  @mkEmbeddings nat_backend class len
    (fun _ _ p k => replicate len (10 * p + k))
    (fun _ _ p => replicate len (100 + p)).

Definition demo_token (i : nat) (w : string) : Token := mkToken (OriginalSentence 0) i w.
Definition demo_span (i : nat) (w : string) : Span := mkSpan (demo_token i w) [].

Definition span_A : Span := demo_span 1 "A".
Definition span_B : Span := demo_span 2 "B".
Definition span_D : Span := demo_span 4 "D".

(** The sentence "A B C D" with the entities B and D and one gold relation
    from B to D. *)
Definition demo_sentence : Sentence :=
  mkSentence (OriginalSentence 0)
    (imap (fun i w => demo_token (S i) w) ["A"; "B"; "C"; "D"])
    (fun _ => [mkRelationLabel span_B span_D "born_in"])
    (fun _ => [mkSpanLabel span_B "PER"; mkSpanLabel span_D "LOC"]).

(** The same sentence with a third entity, A: six candidates. *)
Definition demo_sentence_three : Sentence :=
  mkSentence (OriginalSentence 0)
    (imap (fun i w => demo_token (S i) w) ["A"; "B"; "C"; "D"])
    (fun _ => [mkRelationLabel span_B span_D "born_in"])
    (fun _ => [mkSpanLabel span_B "PER"; mkSpanLabel span_D "LOC"; mkSpanLabel span_A "ORG"]).

(** A sentence whose only span carries two entity labels. *)
Definition demo_sentence_two_labels : Sentence :=
  mkSentence (OriginalSentence 0)
    (imap (fun i w => demo_token (S i) w) ["A"; "B"; "C"; "D"])
    (fun _ => [])
    (fun _ => [mkSpanLabel span_B "PER"; mkSpanLabel span_B "ORG"]).

(** A sentence with one entity only. *)
Definition demo_sentence_one_span : Sentence :=
  mkSentence (OriginalSentence 0)
    (imap (fun i w => demo_token (S i) w) ["A"; "B"; "C"; "D"])
    (fun _ => [])
    (fun _ => [mkSpanLabel span_B "PER"]).

(** The tokens "x y", "B", "D": the first token text holds a space. *)
Definition spaced_B : Span := demo_span 2 "B".
Definition spaced_D : Span := demo_span 3 "D".
Definition spaced_sentence : Sentence :=
  mkSentence (OriginalSentence 0)
    [demo_token 1 "x y"; demo_token 2 "B"; demo_token 3 "D"]
    (fun _ => [])
    (fun _ => [mkSpanLabel spaced_B "PER"; mkSpanLabel spaced_D "LOC"]).

Definition demo_args : @ClassifierArgs nat_backend :=
  @mkClassifierArgs nat_backend ["born_in"] None.

(** Token-level embeddings of length 1 and every other argument of the
    constructor at its default: pooling is ['first_last']. *)
Definition demo_default_model : @RelationExtractor nat_backend :=
  @RelationExtractor_init nat_backend (demo_provider TokenEmbeddings 1) (Some "relation") (Some "ner")
    default_use_entity_markers default_use_gold_spans None
    default_pooling_operation (0 : nat) default_non_linear_decoder demo_args.

(** Token-level embeddings, first-token pooling, no markers. *)
Definition demo_plain_model : @RelationExtractor nat_backend :=
  @RelationExtractor_init nat_backend (demo_provider TokenEmbeddings 1) (Some "relation") (Some "ner")
    false false None "first" (0 : nat) false demo_args.

(** Token-level embeddings, first-token pooling, entity markers. *)
Definition demo_marker_model : @RelationExtractor nat_backend :=
  @RelationExtractor_init nat_backend (demo_provider TokenEmbeddings 1) (Some "relation") (Some "ner")
    true false None "first" (0 : nat) false demo_args.

(** Document-level embeddings without entity markers. *)
Definition demo_document_model : @RelationExtractor nat_backend :=
  @RelationExtractor_init nat_backend (demo_provider TransformerDocumentEmbeddings 1)
    (Some "relation") (Some "ner")
    false false None "first" (0 : nat) false demo_args.

(** A model built in gold-only mode, with an allow-list and the two-layer
    decoder. *)
Definition demo_gold_model : @RelationExtractor nat_backend :=
  @RelationExtractor_init nat_backend (demo_provider TokenEmbeddings 1) (Some "relation") (Some "ner")
    true true (Some [("PER", "LOC")]) "first" (0 : nat) true demo_args.

(** A provider in training mode and no embedding stored anywhere. *)
Definition demo_world : @World nat_backend :=
  @mkWorld nat_backend true (fun _ => []) (fun _ => []) [].

(** * Properties *)

(** ** Strings and the tokenizer *)

Lemma append_cons (c : ascii) (s t : string) : String c s +:+ t = String c (s +:+ t).
Proof. reflexivity. Qed.

Lemma append_nil_l (t : string) : "" +:+ t = t.
Proof. reflexivity. Qed.

Lemma append_nil_r (s : string) : s +:+ "" = s.
Proof. induction s as [|c s IH]; [done | by rewrite append_cons, IH]. Qed.

Lemma append_assoc (a b c : string) : (a +:+ b) +:+ c = a +:+ (b +:+ c).
Proof. induction a as [|x a IH]; [done | by rewrite !append_cons, IH]. Qed.

Lemma render_cons (w : string) (ws : list string) :
  render (w :: ws) = String space (w +:+ render ws).
Proof. reflexivity. Qed.

Lemma render_app (a b : list string) : render (a ++ b) = render a +:+ render b.
Proof.
  induction a as [|w a IH]; [done |].
  change ((w :: a) ++ b) with (w :: (a ++ b)).
  by rewrite !render_cons, IH, append_cons, append_assoc.
Qed.

(** Reading a space-free piece moves it from the text to the current word. *)
Lemma run_tokenize_word (s word rest : string) :
  has_space s = false →
  run_tokenize word (s +:+ rest) = run_tokenize (word +:+ s) rest.
Proof.
  revert word. induction s as [|c s IH]; intros word Hs.
  - by rewrite append_nil_r.
  - cbn [has_space] in Hs. apply orb_false_iff in Hs as [Hc Hs].
    rewrite append_cons. cbn [run_tokenize]. rewrite Hc.
    rewrite IH by done. by rewrite append_assoc.
Qed.

Lemma run_tokenize_flush (word : string) (ws : list string) :
  is_empty word = false →
  run_tokenize word (render ws) = word :: run_tokenize "" (render ws).
Proof.
  intros Hw. destruct ws as [|w ws].
  - cbn. by rewrite Hw.
  - rewrite render_cons. cbn [run_tokenize].
    rewrite bool_decide_eq_true_2 by done. by rewrite Hw.
Qed.

(** The tokenizer reads back the words of a rendered text when every word is
    clean. *)
Lemma run_tokenize_render (ws : list string) :
  Forall (fun w => clean_word w = true) ws →
  run_tokenize "" (render ws) = ws.
Proof.
  induction 1 as [|w ws Hw _ IH]; [done |].
  apply andb_true_iff in Hw as [Hne Hsp].
  apply negb_true_iff in Hne. apply negb_true_iff in Hsp.
  rewrite render_cons. cbn [run_tokenize].
  rewrite bool_decide_eq_true_2 by done. cbn [is_empty].
  rewrite run_tokenize_word by done. rewrite append_nil_l.
  rewrite run_tokenize_flush by done. by rewrite IH.
Qed.

(** ** The scanning loop of [add_entity_markers] *)

Lemma render_one (w : string) : render [w] = " " +:+ w.
Proof. rewrite render_cons. change (render []) with "". by rewrite append_nil_r. Qed.

Ltac scan_cases :=
  unfold scan_token, token_words, when;
  repeat case_bool_decide; simpl.

Ltac normalize_text :=
  rewrite ?render_app, ?render_one;
  change (render []) with "";
  rewrite ?append_nil_l, ?append_nil_r, ?append_assoc.

(** One iteration appends the words of its token to the text, and the offset
    counts the words appended so far. *)
Lemma scan_token_text (span_1 span_2 : Span) (st : MarkerScan) (token : Token) :
  scan_text (scan_token span_1 span_2 st token)
  = scan_text st +:+ render (token_words span_1 span_2 token).
Proof. scan_cases; by normalize_text. Qed.

Lemma scan_token_offset (span_1 span_2 : Span) (st : MarkerScan) (token : Token) :
  offset (scan_token span_1 span_2 st token)
  = offset st + length (token_words span_1 span_2 token).
Proof. scan_cases; lia. Qed.

Lemma scan_tokens_text (span_1 span_2 : Span) (toks : list Token) (st : MarkerScan) :
  scan_text (fold_left (scan_token span_1 span_2) toks st)
  = scan_text st +:+ render (toks ≫= token_words span_1 span_2).
Proof.
  revert st. induction toks as [|t toks IH]; intros st.
  - by rewrite append_nil_r.
  - cbn [fold_left]. rewrite IH, scan_token_text.
    change ((t :: toks) ≫= token_words span_1 span_2)
      with (token_words span_1 span_2 t ++ (toks ≫= token_words span_1 span_2)).
    by rewrite render_app, append_assoc.
Qed.

Lemma scan_tokens_offset (span_1 span_2 : Span) (toks : list Token) (st : MarkerScan) :
  offset (fold_left (scan_token span_1 span_2) toks st)
  = offset st + length (toks ≫= token_words span_1 span_2).
Proof.
  revert st. induction toks as [|t toks IH]; intros st.
  - simpl. lia.
  - cbn [fold_left]. rewrite IH, scan_token_offset.
    change ((t :: toks) ≫= token_words span_1 span_2)
      with (token_words span_1 span_2 t ++ (toks ≫= token_words span_1 span_2)).
    rewrite length_app. lia.
Qed.

(** Where the start positions are assigned. *)
Lemma scan_token_startid_1_other (span_1 span_2 : Span) (st : MarkerScan) (token : Token) :
  token ≠ span_first span_1 →
  span_1_startid (scan_token span_1 span_2 st token) = span_1_startid st.
Proof. intros ?. scan_cases; done. Qed.

Lemma scan_token_startid_2_other (span_1 span_2 : Span) (st : MarkerScan) (token : Token) :
  token ≠ span_first span_2 →
  span_2_startid (scan_token span_1 span_2 st token) = span_2_startid st.
Proof. intros ?. scan_cases; done. Qed.

Lemma scan_token_startid_1 (span_1 span_2 : Span) (st : MarkerScan) :
  span_first span_1 ≠ span_first span_2 →
  span_1_startid (scan_token span_1 span_2 st (span_first span_1)) = Some (offset st + 1).
Proof. intros ?. scan_cases; done. Qed.

Lemma scan_token_startid_2 (span_1 span_2 : Span) (st : MarkerScan) :
  span_2_startid (scan_token span_1 span_2 st (span_first span_2)) = Some (offset st + 1).
Proof. scan_cases; done. Qed.

Lemma scan_tokens_startid_1_other (span_1 span_2 : Span) (toks : list Token) (st : MarkerScan) :
  span_first span_1 ∉ toks →
  span_1_startid (fold_left (scan_token span_1 span_2) toks st) = span_1_startid st.
Proof.
  revert st. induction toks as [|t toks IH]; intros st Hnot; [done |].
  apply not_elem_of_cons in Hnot as [Hne Hnot].
  cbn [fold_left]. rewrite IH by done. by apply scan_token_startid_1_other.
Qed.

Lemma scan_tokens_startid_2_other (span_1 span_2 : Span) (toks : list Token) (st : MarkerScan) :
  span_first span_2 ∉ toks →
  span_2_startid (fold_left (scan_token span_1 span_2) toks st) = span_2_startid st.
Proof.
  revert st. induction toks as [|t toks IH]; intros st Hnot; [done |].
  apply not_elem_of_cons in Hnot as [Hne Hnot].
  cbn [fold_left]. rewrite IH by done. by apply scan_token_startid_2_other.
Qed.

(** Which span was met first. *)
Lemma scan_token_first_other (span_1 span_2 : Span) (st : MarkerScan) (token : Token) :
  token ≠ span_first span_1 → token ≠ span_first span_2 →
  entity_one_is_first (scan_token span_1 span_2 st token) = entity_one_is_first st.
Proof. intros ??. scan_cases; done. Qed.

Lemma scan_token_first_kept (span_1 span_2 : Span) (st : MarkerScan) (token : Token) (b : bool) :
  entity_one_is_first st = Some b →
  entity_one_is_first (scan_token span_1 span_2 st token) = Some b.
Proof. intros Hb. scan_cases; by rewrite ?Hb. Qed.

Lemma scan_token_first_1 (span_1 span_2 : Span) (st : MarkerScan) :
  span_first span_1 ≠ span_first span_2 →
  entity_one_is_first st = None →
  entity_one_is_first (scan_token span_1 span_2 st (span_first span_1)) = Some true.
Proof. intros ? Hb. scan_cases; by rewrite ?Hb. Qed.

Lemma scan_token_first_2 (span_1 span_2 : Span) (st : MarkerScan) :
  entity_one_is_first st = None →
  entity_one_is_first (scan_token span_1 span_2 st (span_first span_2)) = Some false.
Proof. intros Hb. scan_cases; by rewrite ?Hb. Qed.

Lemma scan_tokens_first_other (span_1 span_2 : Span) (toks : list Token) (st : MarkerScan) :
  span_first span_1 ∉ toks → span_first span_2 ∉ toks →
  entity_one_is_first (fold_left (scan_token span_1 span_2) toks st)
  = entity_one_is_first st.
Proof.
  revert st. induction toks as [|t toks IH]; intros st H1 H2; [done |].
  apply not_elem_of_cons in H1 as [? ?]. apply not_elem_of_cons in H2 as [? ?].
  cbn [fold_left]. rewrite IH by done. by apply scan_token_first_other.
Qed.

Lemma scan_tokens_first_kept (span_1 span_2 : Span) (toks : list Token) (st : MarkerScan)
    (b : bool) :
  entity_one_is_first st = Some b →
  entity_one_is_first (fold_left (scan_token span_1 span_2) toks st) = Some b.
Proof.
  revert st. induction toks as [|t toks IH]; intros st Hb; [done |].
  cbn [fold_left]. apply IH. by apply scan_token_first_kept.
Qed.

(** ** The words of a sentence that holds two separate spans *)

Lemma span_first_in (s : Span) : span_first s ∈ tokens s.
Proof. apply list_elem_of_here. Qed.

Lemma span_last_in (s : Span) : span_last s ∈ tokens s.
Proof.
  destruct s as [f r]. unfold span_last, tokens. simpl.
  destruct r as [|x r] using rev_ind.
  - apply list_elem_of_here.
  - rewrite last_last. apply list_elem_of_further, elem_of_app. right.
    apply list_elem_of_here.
Qed.

(** A span without repeated tokens is one token, or a first token, an
    interior and a different last token. *)
Lemma span_shape (s : Span) :
  NoDup (tokens s) →
  (tokens s = [span_first s] ∧ span_last s = span_first s)
  ∨ (∃ interior, tokens s = (span_first s :: interior ++ [span_last s])
       ∧ span_first s ≠ span_last s
       ∧ (span_first s ∉ interior) ∧ (span_last s ∉ interior)).
Proof.
  destruct s as [f r]. unfold span_last, tokens. cbn [span_first span_rest].
  intros Hnd. destruct r as [|l r _] using rev_ind; [by left |].
  right. exists r. rewrite last_last.
  apply NoDup_cons in Hnd as [Hf Hnd]. apply NoDup_app in Hnd as (_ & Hr & _).
  split_and!; [done | ..].
  - intros ->. apply Hf, elem_of_app. right. apply list_elem_of_here.
  - intros Hin. apply Hf, elem_of_app. by left.
  - intros Hin. apply (Hr l Hin), list_elem_of_here.
Qed.

Ltac decide_words :=
  unfold token_words; repeat case_bool_decide; simplify_eq; try done.

Lemma token_words_plain (span_1 span_2 : Span) (token : Token) :
  token ≠ span_first span_1 → token ≠ span_last span_1 →
  token ≠ span_first span_2 → token ≠ span_last span_2 →
  token_words span_1 span_2 token = [text token].
Proof. intros. decide_words. Qed.

Lemma bind_cons_words (span_1 span_2 : Span) (t : Token) (toks : list Token) :
  (t :: toks) ≫= token_words span_1 span_2
  = token_words span_1 span_2 t ++ (toks ≫= token_words span_1 span_2).
Proof. reflexivity. Qed.

Lemma bind_nil_words (span_1 span_2 : Span) :
  ([] : list Token) ≫= token_words span_1 span_2 = [].
Proof. reflexivity. Qed.

Lemma tokens_words_plain (span_1 span_2 : Span) (toks : list Token) :
  span_first span_1 ∉ toks → span_last span_1 ∉ toks →
  span_first span_2 ∉ toks → span_last span_2 ∉ toks →
  toks ≫= token_words span_1 span_2 = text <$> toks.
Proof.
  induction toks as [|t toks IH]; intros H1 H2 H3 H4; [done |].
  apply not_elem_of_cons in H1 as [? ?]. apply not_elem_of_cons in H2 as [? ?].
  apply not_elem_of_cons in H3 as [? ?]. apply not_elem_of_cons in H4 as [? ?].
  rewrite bind_cons_words, IH by done.
  by rewrite token_words_plain.
Qed.

(** The tokens of the first argument are wrapped in [<e1>] and [</e1>], those
    of the second in [<e2>] and [</e2>]. *)
Lemma span_1_words (span_1 span_2 : Span) :
  NoDup (tokens span_1) →
  span_first span_2 ∉ tokens span_1 → span_last span_2 ∉ tokens span_1 →
  tokens span_1 ≫= token_words span_1 span_2
  = wrap "<e1>" "</e1>" (text <$> tokens span_1).
Proof.
  intros Hnd Hf2 Hl2. unfold wrap.
  destruct (span_shape _ Hnd) as [[Ht Hl] | (r & Ht & Hfl & Hf & Hl)];
    rewrite Ht in Hf2, Hl2 |- *.
  - apply not_elem_of_cons in Hf2 as [? _]. apply not_elem_of_cons in Hl2 as [? _].
    rewrite bind_cons_words, bind_nil_words, app_nil_r.
    unfold token_words. rewrite Hl. repeat case_bool_decide; simplify_eq; done.
  - apply not_elem_of_cons in Hf2 as [? Hf2]. apply not_elem_of_cons in Hl2 as [? Hl2].
    apply not_elem_of_app in Hf2 as [? Hf2]. apply not_elem_of_app in Hl2 as [? Hl2].
    apply not_elem_of_cons in Hf2 as [? _]. apply not_elem_of_cons in Hl2 as [? _].
    rewrite bind_cons_words, bind_app, tokens_words_plain by done.
    rewrite bind_cons_words, bind_nil_words, app_nil_r.
    assert (token_words span_1 span_2 (span_first span_1)
            = ["<e1>"; text (span_first span_1)]) as -> by decide_words.
    assert (token_words span_1 span_2 (span_last span_1)
            = [text (span_last span_1); "</e1>"]) as -> by decide_words.
    rewrite fmap_cons, fmap_app. cbn. by rewrite <- app_assoc.
Qed.

Lemma span_2_words (span_1 span_2 : Span) :
  NoDup (tokens span_2) →
  span_first span_1 ∉ tokens span_2 → span_last span_1 ∉ tokens span_2 →
  tokens span_2 ≫= token_words span_1 span_2
  = wrap "<e2>" "</e2>" (text <$> tokens span_2).
Proof.
  intros Hnd Hf1 Hl1. unfold wrap.
  destruct (span_shape _ Hnd) as [[Ht Hl] | (r & Ht & Hfl & Hf & Hl)];
    rewrite Ht in Hf1, Hl1 |- *.
  - apply not_elem_of_cons in Hf1 as [? _]. apply not_elem_of_cons in Hl1 as [? _].
    rewrite bind_cons_words, bind_nil_words, app_nil_r.
    unfold token_words. rewrite Hl. repeat case_bool_decide; simplify_eq; done.
  - apply not_elem_of_cons in Hf1 as [? Hf1]. apply not_elem_of_cons in Hl1 as [? Hl1].
    apply not_elem_of_app in Hf1 as [? Hf1]. apply not_elem_of_app in Hl1 as [? Hl1].
    apply not_elem_of_cons in Hf1 as [? _]. apply not_elem_of_cons in Hl1 as [? _].
    rewrite bind_cons_words, bind_app, tokens_words_plain by done.
    rewrite bind_cons_words, bind_nil_words, app_nil_r.
    assert (token_words span_1 span_2 (span_first span_2)
            = ["<e2>"; text (span_first span_2)]) as -> by decide_words.
    assert (token_words span_1 span_2 (span_last span_2)
            = [text (span_last span_2); "</e2>"]) as -> by decide_words.
    rewrite fmap_cons, fmap_app. cbn. by rewrite <- app_assoc.
Qed.

Lemma token_words_clean (span_1 span_2 : Span) (toks : list Token) :
  Forall (fun t => clean_word (text t) = true) toks →
  Forall (fun w => clean_word w = true) (toks ≫= token_words span_1 span_2).
Proof.
  induction 1 as [|t toks Ht _ IH]; [constructor |].
  rewrite bind_cons_words. apply Forall_app. split; [| done].
  unfold token_words. repeat case_bool_decide; repeat constructor; done.
Qed.

(** ** [add_entity_markers] in terms of the words of the sentence *)

Lemma marker_scan_text (sentence : Sentence) (span_1 span_2 : Span) :
  scan_text (marker_scan sentence span_1 span_2)
  = render (sent_tokens sentence ≫= token_words span_1 span_2).
Proof. unfold marker_scan. by rewrite scan_tokens_text, append_nil_l. Qed.

Lemma expanded_sentence_tokens (fresh : SentenceId) (sentence : Sentence)
    (span_1 span_2 : Span) :
  Forall (fun t => clean_word (text t) = true) (sent_tokens sentence) →
  sent_tokens (Sentence_from_text fresh (scan_text (marker_scan sentence span_1 span_2)))
  = imap (fun i w => mkToken fresh (S i) w)
         (sent_tokens sentence ≫= token_words span_1 span_2).
Proof.
  intros Hclean. cbn [Sentence_from_text sent_tokens].
  rewrite marker_scan_text, run_tokenize_render; [done |].
  by apply token_words_clean.
Qed.

Lemma span_text_single (t : Token) : span_text (single_token_span t) = text t.
Proof. reflexivity. Qed.

(** The call succeeds when the words at the two recorded start positions are
    the markers. *)
Lemma add_entity_markers_ok (fresh : SentenceId) (sentence : Sentence)
    (span_1 span_2 : Span) (i1 i2 : nat) :
  let st := marker_scan sentence span_1 span_2 in
  let ws := sent_tokens sentence ≫= token_words span_1 span_2 in
  Forall (fun t => clean_word (text t) = true) (sent_tokens sentence) →
  span_1_startid st = Some (S i1) →
  span_2_startid st = Some (S i2) →
  ws !! i1 = Some "<e1>" →
  ws !! i2 = Some "<e2>" →
  add_entity_markers fresh sentence span_1 span_2
  = Ok (Sentence_from_text fresh (scan_text st),
        match entity_one_is_first st with
        | Some true => (single_token_span (mkToken fresh (S i1) "<e1>"),
                        single_token_span (mkToken fresh (S i2) "<e2>"))
        | _ => (single_token_span (mkToken fresh (S i2) "<e2>"),
                single_token_span (mkToken fresh (S i1) "<e1>"))
        end).
Proof.
  intros st ws Hclean H1 H2 Hw1 Hw2. unfold add_entity_markers.
  fold st. rewrite H1, H2. cbn [read_local mbind result_bind].
  unfold sentence_getitem. unfold st. rewrite expanded_sentence_tokens by done.
  fold ws. rewrite !Nat.sub_succ, !Nat.sub_0_r, !list_lookup_imap, Hw1, Hw2.
  cbn [fmap option_fmap option_map mbind result_bind].
  by rewrite !span_text_single.
Qed.

Lemma scan_startid_1_split (span_1 span_2 : Span) (a b : list Token) (st : MarkerScan) :
  span_first span_1 ≠ span_first span_2 →
  span_first span_1 ∉ b →
  span_1_startid (fold_left (scan_token span_1 span_2) (a ++ span_first span_1 :: b) st)
  = Some (offset st + length (a ≫= token_words span_1 span_2) + 1).
Proof.
  intros Hne Hb. rewrite fold_left_app. cbn [fold_left].
  rewrite scan_tokens_startid_1_other by done.
  by rewrite scan_token_startid_1, scan_tokens_offset.
Qed.

Lemma scan_startid_2_split (span_1 span_2 : Span) (a b : list Token) (st : MarkerScan) :
  span_first span_2 ∉ b →
  span_2_startid (fold_left (scan_token span_1 span_2) (a ++ span_first span_2 :: b) st)
  = Some (offset st + length (a ≫= token_words span_1 span_2) + 1).
Proof.
  intros Hb. rewrite fold_left_app. cbn [fold_left].
  rewrite scan_tokens_startid_2_other by done.
  by rewrite scan_token_startid_2, scan_tokens_offset.
Qed.

Lemma scan_first_split_1 (span_1 span_2 : Span) (a b : list Token) (st : MarkerScan) :
  span_first span_1 ≠ span_first span_2 →
  span_first span_1 ∉ a → span_first span_2 ∉ a →
  entity_one_is_first st = None →
  entity_one_is_first
    (fold_left (scan_token span_1 span_2) (a ++ span_first span_1 :: b) st) = Some true.
Proof.
  intros Hne H1 H2 Hst. rewrite fold_left_app. cbn [fold_left].
  apply scan_tokens_first_kept, scan_token_first_1; [done |].
  by rewrite scan_tokens_first_other.
Qed.

Lemma scan_first_split_2 (span_1 span_2 : Span) (a b : list Token) (st : MarkerScan) :
  span_first span_1 ∉ a → span_first span_2 ∉ a →
  entity_one_is_first st = None →
  entity_one_is_first
    (fold_left (scan_token span_1 span_2) (a ++ span_first span_2 :: b) st) = Some false.
Proof.
  intros H1 H2 Hst. rewrite fold_left_app. cbn [fold_left].
  apply scan_tokens_first_kept, scan_token_first_2.
  by rewrite scan_tokens_first_other.
Qed.

(** What a sentence without repeated tokens says about five consecutive
    sections of it. *)
Lemma sections_separate (pre a mid b post : list Token) :
  NoDup (pre ++ a ++ mid ++ b ++ post) →
  NoDup a ∧ NoDup b
  ∧ (∀ x, x ∈ a → (x ∉ pre) ∧ (x ∉ mid) ∧ (x ∉ post) ∧ (x ∉ b))
  ∧ (∀ x, x ∈ b → (x ∉ pre) ∧ (x ∉ mid) ∧ (x ∉ post) ∧ (x ∉ a)).
Proof.
  rewrite !NoDup_app. intros (_ & Hpre & Ha & Ha' & _ & Hmid & Hb & Hb' & _).
  split_and!; [done | done | |].
  - intros x Hx. split_and!.
    + intros Hp. apply (Hpre x Hp). set_solver.
    + intros Hm. apply (Ha' x Hx). set_solver.
    + intros Hp. apply (Ha' x Hx). set_solver.
    + intros Hp. apply (Ha' x Hx). set_solver.
  - intros x Hx. split_and!.
    + intros Hp. apply (Hpre x Hp). set_solver.
    + intros Hm. apply (Hmid x Hm). set_solver.
    + intros Hp. by apply (Hb' x Hx).
    + intros Hp. apply (Ha' x Hp). set_solver.
Qed.

Lemma tokens_unfold (s : Span) : tokens s = span_first s :: span_rest s.
Proof. reflexivity. Qed.

Lemma span_first_not_in_rest (s : Span) : NoDup (tokens s) → span_first s ∉ span_rest s.
Proof. rewrite tokens_unfold. by intros [? _]%NoDup_cons. Qed.

Lemma length_wrap (o c : string) (ws : list string) : length (wrap o c ws) = length ws + 2.
Proof. unfold wrap. cbn. rewrite length_app. cbn. lia. Qed.

(** The words of a sentence in which [a] comes before [b], whichever of the
    two is [span_1]. *)
Lemma sentence_words_1_first (span_1 span_2 : Span) (pre mid post : list Token) :
  NoDup (pre ++ tokens span_1 ++ mid ++ tokens span_2 ++ post) →
  (pre ++ tokens span_1 ++ mid ++ tokens span_2 ++ post) ≫= token_words span_1 span_2
  = (text <$> pre) ++ wrap "<e1>" "</e1>" (text <$> tokens span_1)
    ++ (text <$> mid) ++ wrap "<e2>" "</e2>" (text <$> tokens span_2)
    ++ (text <$> post).
Proof.
  intros (Hn1 & Hn2 & H1 & H2)%sections_separate.
  destruct (H1 _ (span_first_in span_1)) as (? & ? & ? & ?).
  destruct (H1 _ (span_last_in span_1)) as (? & ? & ? & ?).
  destruct (H2 _ (span_first_in span_2)) as (? & ? & ? & ?).
  destruct (H2 _ (span_last_in span_2)) as (? & ? & ? & ?).
  rewrite !bind_app.
  rewrite span_1_words, span_2_words by done.
  by rewrite !tokens_words_plain by done.
Qed.

Lemma sentence_words_2_first (span_1 span_2 : Span) (pre mid post : list Token) :
  NoDup (pre ++ tokens span_2 ++ mid ++ tokens span_1 ++ post) →
  (pre ++ tokens span_2 ++ mid ++ tokens span_1 ++ post) ≫= token_words span_1 span_2
  = (text <$> pre) ++ wrap "<e2>" "</e2>" (text <$> tokens span_2)
    ++ (text <$> mid) ++ wrap "<e1>" "</e1>" (text <$> tokens span_1)
    ++ (text <$> post).
Proof.
  intros (Hn2 & Hn1 & H2 & H1)%sections_separate.
  destruct (H1 _ (span_first_in span_1)) as (? & ? & ? & ?).
  destruct (H1 _ (span_last_in span_1)) as (? & ? & ? & ?).
  destruct (H2 _ (span_first_in span_2)) as (? & ? & ? & ?).
  destruct (H2 _ (span_last_in span_2)) as (? & ? & ? & ?).
  rewrite !bind_app.
  rewrite span_1_words, span_2_words by done.
  by rewrite !tokens_words_plain by done.
Qed.

Lemma imap_texts (fresh : SentenceId) (ws : list string) :
  text <$> imap (fun i w => mkToken fresh (S i) w) ws = ws.
Proof.
  generalize S as g. induction ws as [|w ws IH]; intros g; [done |].
  cbn. f_equal. apply (IH (g ∘ S)).
Qed.

Lemma lookup_fourth_section (a b c rest : list string) (x : string) (n : nat) :
  n = length a + length b + length c →
  (a ++ b ++ c ++ x :: rest) !! n = Some x.
Proof.
  intros ->. rewrite !app_assoc. apply list_lookup_middle.
  rewrite !length_app. lia.
Qed.

(** [span_1] before [span_2]: the marker spans come back in argument order. *)
Lemma add_entity_markers_1_first (fresh : SentenceId) (sentence : Sentence)
    (span_1 span_2 : Span) (pre mid post : list Token) :
  NoDup (sent_tokens sentence) →
  Forall (fun t => clean_word (text t) = true) (sent_tokens sentence) →
  sent_tokens sentence = pre ++ tokens span_1 ++ mid ++ tokens span_2 ++ post →
  let ws := (text <$> pre) ++ wrap "<e1>" "</e1>" (text <$> tokens span_1)
            ++ (text <$> mid) ++ wrap "<e2>" "</e2>" (text <$> tokens span_2)
            ++ (text <$> post) in
  let i1 := length pre in
  let i2 := length pre + (length (tokens span_1) + 2) + length mid in
  add_entity_markers fresh sentence span_1 span_2
  = Ok (Sentence_from_text fresh (render ws),
        (single_token_span (mkToken fresh (S i1) "<e1>"),
         single_token_span (mkToken fresh (S i2) "<e2>"))).
Proof.
  intros Hnd Hclean Hsent ws i1 i2.
  pose proof (sentence_words_1_first span_1 span_2 pre mid post) as Hws.
  rewrite <- Hsent in Hws. specialize (Hws Hnd). fold ws in Hws.
  rewrite Hsent in Hnd.
  pose proof Hnd as (Hn1 & Hn2 & H1 & H2)%sections_separate.
  destruct (H1 _ (span_first_in span_1)) as (? & ? & ? & ?).
  destruct (H1 _ (span_last_in span_1)) as (? & ? & ? & ?).
  destruct (H2 _ (span_first_in span_2)) as (? & ? & ? & ?).
  destruct (H2 _ (span_last_in span_2)) as (? & ? & ? & ?).
  pose proof (span_first_not_in_rest _ Hn1). pose proof (span_first_not_in_rest _ Hn2).
  assert (Hne : span_first span_1 ≠ span_first span_2).
  { intros Heq. apply (H1 _ (span_first_in span_1)). rewrite Heq. apply span_first_in. }
  rewrite (add_entity_markers_ok fresh sentence span_1 span_2 i1 i2); [| done | ..].
  - rewrite marker_scan_text, Hws. f_equal.
    unfold marker_scan. rewrite Hsent, (tokens_unfold span_1). cbn [app].
    by rewrite scan_first_split_1.
  - unfold marker_scan. rewrite Hsent, (tokens_unfold span_1). cbn [app].
    rewrite scan_startid_1_split; [| done | by rewrite !not_elem_of_app].
    rewrite tokens_words_plain, length_fmap by done. f_equal. unfold i1, i2. cbn. lia.
  - unfold marker_scan. rewrite Hsent.
    replace (pre ++ tokens span_1 ++ mid ++ tokens span_2 ++ post)
      with ((pre ++ tokens span_1 ++ mid) ++ span_first span_2 :: (span_rest span_2 ++ post))
      by (rewrite (tokens_unfold span_2), <- !app_assoc; done).
    rewrite scan_startid_2_split by (by rewrite !not_elem_of_app).
    rewrite !bind_app, span_1_words, !tokens_words_plain by done.
    rewrite !length_app, length_wrap, !length_fmap. f_equal. unfold i1, i2. cbn. lia.
  - rewrite Hws. unfold ws, wrap. rewrite <- app_comm_cons.
    apply list_lookup_middle. by rewrite length_fmap.
  - rewrite Hws. unfold ws.
    unfold wrap at 2. rewrite <- app_comm_cons. apply lookup_fourth_section.
    rewrite length_wrap, !length_fmap. unfold i2. lia.
Qed.

(** [span_2] before [span_1]: the marker spans come back swapped. *)
Lemma add_entity_markers_2_first (fresh : SentenceId) (sentence : Sentence)
    (span_1 span_2 : Span) (pre mid post : list Token) :
  NoDup (sent_tokens sentence) →
  Forall (fun t => clean_word (text t) = true) (sent_tokens sentence) →
  sent_tokens sentence = pre ++ tokens span_2 ++ mid ++ tokens span_1 ++ post →
  let ws := (text <$> pre) ++ wrap "<e2>" "</e2>" (text <$> tokens span_2)
            ++ (text <$> mid) ++ wrap "<e1>" "</e1>" (text <$> tokens span_1)
            ++ (text <$> post) in
  let i2 := length pre in
  let i1 := length pre + (length (tokens span_2) + 2) + length mid in
  add_entity_markers fresh sentence span_1 span_2
  = Ok (Sentence_from_text fresh (render ws),
        (single_token_span (mkToken fresh (S i2) "<e2>"),
         single_token_span (mkToken fresh (S i1) "<e1>"))).
Proof.
  intros Hnd Hclean Hsent ws i2 i1.
  pose proof (sentence_words_2_first span_1 span_2 pre mid post) as Hws.
  rewrite <- Hsent in Hws. specialize (Hws Hnd). fold ws in Hws.
  rewrite Hsent in Hnd.
  pose proof Hnd as (Hn2 & Hn1 & H2 & H1)%sections_separate.
  destruct (H1 _ (span_first_in span_1)) as (? & ? & ? & ?).
  destruct (H1 _ (span_last_in span_1)) as (? & ? & ? & ?).
  destruct (H2 _ (span_first_in span_2)) as (? & ? & ? & ?).
  destruct (H2 _ (span_last_in span_2)) as (? & ? & ? & ?).
  pose proof (span_first_not_in_rest _ Hn1). pose proof (span_first_not_in_rest _ Hn2).
  assert (Hne : span_first span_1 ≠ span_first span_2).
  { intros Heq. apply (H1 _ (span_first_in span_1)). rewrite Heq. apply span_first_in. }
  rewrite (add_entity_markers_ok fresh sentence span_1 span_2 i1 i2); [| done | ..].
  - rewrite marker_scan_text, Hws. f_equal.
    unfold marker_scan. rewrite Hsent, (tokens_unfold span_2). cbn [app].
    by rewrite scan_first_split_2.
  - unfold marker_scan. rewrite Hsent.
    replace (pre ++ tokens span_2 ++ mid ++ tokens span_1 ++ post)
      with ((pre ++ tokens span_2 ++ mid) ++ span_first span_1 :: (span_rest span_1 ++ post))
      by (rewrite (tokens_unfold span_1), <- !app_assoc; done).
    rewrite scan_startid_1_split; [| done | by rewrite !not_elem_of_app].
    rewrite !bind_app, span_2_words, !tokens_words_plain by done.
    rewrite !length_app, length_wrap, !length_fmap. f_equal. unfold i1, i2. cbn. lia.
  - unfold marker_scan. rewrite Hsent, (tokens_unfold span_2). cbn [app].
    rewrite scan_startid_2_split by (by rewrite !not_elem_of_app).
    rewrite tokens_words_plain, length_fmap by done. f_equal. unfold i1, i2. cbn. lia.
  - rewrite Hws. unfold ws.
    unfold wrap at 2. rewrite <- app_comm_cons. apply lookup_fourth_section.
    rewrite length_wrap, !length_fmap. unfold i1. lia.
  - rewrite Hws. unfold ws, wrap. rewrite <- app_comm_cons.
    apply list_lookup_middle. by rewrite length_fmap.
Qed.

(** ** The generation loop and the list of candidates *)

Section Generation.

Context `{Backend}.

Lemma result_bind_ok {A B} (a : A) (f : A → result B) : Ok a ≫= f = f a.
Proof. reflexivity. Qed.

Lemma for_each_app {A S} (body : S → A → result S) (xs ys : list A) (s : S) :
  for_each body (xs ++ ys) s = for_each body xs s ≫= for_each body ys.
Proof.
  revert s. induction xs as [|x xs IH]; intros s; [done |].
  cbn [app for_each]. destruct (body s x) as [s' | e]; [| done].
  rewrite !result_bind_ok. apply IH.
Qed.

Lemma for_each_ext {A S} (f g : S → A → result S) (xs : list A) (s : S) :
  (∀ s x, f s x = g s x) → for_each f xs s = for_each g xs s.
Proof.
  intros Hfg. revert s. induction xs as [|x xs IH]; intros s; [done |].
  cbn [for_each]. rewrite Hfg. destruct (g s x); [| done].
  rewrite !result_bind_ok. apply IH.
Qed.

(** A loop over a list built by a nested comprehension is the nested loop. *)
Lemma for_each_bind {A B S} (body : S → B → result S) (f : A → list B)
    (xs : list A) (s : S) :
  for_each body (xs ≫= f) s = for_each (fun s x => for_each body (f x) s) xs s.
Proof.
  revert s. induction xs as [|x xs IH]; intros s; [done |].
  change ((x :: xs) ≫= f) with (f x ++ (xs ≫= f)).
  rewrite for_each_app. cbn [for_each].
  destruct (for_each body (f x) s) as [s' | e]; [| done].
  rewrite !result_bind_ok. apply IH.
Qed.

Lemma pair_step_candidates (self : RelationExtractor) (rlc : bool) (sentence : Sentence)
    (relation_dict : gmap string RelationLabel) (span_label span_label_2 : SpanLabel)
    (acc : Acc) :
  pair_step self rlc sentence relation_dict span_label acc span_label_2
  = append_all self rlc
      (pair_candidates self sentence relation_dict span_label span_label_2) acc.
Proof.
  unfold pair_step, pair_candidates, append_all.
  case_bool_decide; [done |].
  destruct (allowed_pair self span_label span_label_2); [| done]. cbn [negb].
  destruct (gold_label self relation_dict (span span_label) (span span_label_2)); [| done].
  cbn [for_each cand_sentence cand_span_1 cand_span_2 cand_label].
  by destruct (append_candidate _ _ _ _ _ _ _).
Qed.

Lemma sentence_step_candidates (self : RelationExtractor) (rlc : bool) (acc : Acc)
    (sentence : Sentence) :
  sentence_step self rlc acc sentence
  = append_all self rlc (sentence_candidates self sentence) acc.
Proof.
  unfold sentence_step, sentence_candidates, append_all.
  rewrite for_each_bind. apply for_each_ext. intros acc' span_label.
  rewrite for_each_bind. apply for_each_ext. intros acc'' span_label_2.
  apply pair_step_candidates.
Qed.

Lemma generate_candidates (self : RelationExtractor) (sentences : list Sentence)
    (rlc : bool) :
  generate self sentences rlc
  = append_all self rlc (candidates self sentences)
      (mkAcc [] [] [] [] (if use_entity_markers self then [] else sentences)).
Proof.
  unfold generate, candidates, append_all.
  rewrite for_each_bind. apply for_each_ext. intros acc sentence.
  apply sentence_step_candidates.
Qed.

Lemma append_all_nil (self : RelationExtractor) (rlc : bool) (acc : Acc) :
  append_all self rlc [] acc = Ok acc.
Proof. reflexivity. Qed.

Lemma append_all_cons (self : RelationExtractor) (rlc : bool) (c : Candidate)
    (cs : list Candidate) (acc : Acc) :
  append_all self rlc (c :: cs) acc
  = append_candidate self rlc (cand_sentence c) (cand_span_1 c) (cand_span_2 c)
                     (cand_label c) acc
    ≫= append_all self rlc cs.
Proof. reflexivity. Qed.

Lemma append_candidate_plain (self : RelationExtractor) (rlc : bool) (sentence : Sentence)
    (span_1 span_2 : Span) (label : string) (acc : Acc) :
  use_entity_markers self = false →
  append_candidate self rlc sentence span_1 span_2 label acc
  = Ok (mkAcc (empty_label_candidates acc ++ when_asked rlc [mkPending span_1 span_2])
              (entity_pairs acc ++ [(span_1, span_2)])
              (labels acc ++ [[label]])
              (sentences_to_label acc ++ when_asked rlc [tok_sentence (span_first span_1)])
              (sentences_to_embed acc)).
Proof.
  intros Hm. unfold append_candidate. rewrite Hm.
  destruct rlc; cbn; by rewrite ?app_nil_r.
Qed.

Lemma append_candidate_markers (self : RelationExtractor) (rlc : bool)
    (sentence : Sentence) (span_1 span_2 : Span) (label : string) (acc : Acc) :
  use_entity_markers self = true →
  append_candidate self rlc sentence span_1 span_2 label acc
  = r ← add_entity_markers (ExpandedSentence (length (sentences_to_embed acc)))
                           sentence span_1 span_2;
    Ok (mkAcc (empty_label_candidates acc ++ when_asked rlc [mkPending span_1 span_2])
              (entity_pairs acc ++ [r.2])
              (labels acc ++ [[label]])
              (sentences_to_label acc ++ when_asked rlc [tok_sentence (span_first span_1)])
              (sentences_to_embed acc ++ [r.1])).
Proof.
  intros Hm. unfold append_candidate. rewrite Hm.
  destruct (add_entity_markers _ _ _ _) as [r | e]; [| done].
  destruct rlc; cbn; by rewrite ?app_nil_r.
Qed.

Lemma when_asked_cons {A} (rlc : bool) (x : A) (l : list A) :
  when_asked rlc (x :: l) = when_asked rlc [x] ++ when_asked rlc l.
Proof. by destruct rlc. Qed.

(** Without entity markers the loop cannot raise. *)
Lemma append_all_plain (self : RelationExtractor) (rlc : bool) (cs : list Candidate)
    (acc : Acc) :
  use_entity_markers self = false →
  append_all self rlc cs acc
  = Ok (mkAcc (empty_label_candidates acc ++ when_asked rlc (pending_of <$> cs))
              (entity_pairs acc ++ (pair_of <$> cs))
              (labels acc ++ (label_of <$> cs))
              (sentences_to_label acc ++ when_asked rlc (owner_of <$> cs))
              (sentences_to_embed acc)).
Proof.
  intros Hm. revert acc. induction cs as [|c cs IH]; intros acc.
  - rewrite append_all_nil. destruct acc, rlc; cbn; by rewrite !app_nil_r.
  - rewrite append_all_cons, append_candidate_plain, result_bind_ok, IH by done.
    cbn [empty_label_candidates entity_pairs labels sentences_to_label sentences_to_embed].
    rewrite !fmap_cons, !(when_asked_cons rlc _ (_ <$> cs)).
    by rewrite <- !app_assoc.
Qed.

(** With entity markers it raises when a rewriting raises, and appends the
    rewritten sentences and marker spans otherwise. *)
Lemma append_all_markers (self : RelationExtractor) (rlc : bool) (cs : list Candidate)
    (acc : Acc) :
  use_entity_markers self = true →
  append_all self rlc cs acc
  = rs ← rewrite_from (length (sentences_to_embed acc)) cs;
    Ok (mkAcc (empty_label_candidates acc ++ when_asked rlc (pending_of <$> cs))
              (entity_pairs acc ++ rs.*2)
              (labels acc ++ (label_of <$> cs))
              (sentences_to_label acc ++ when_asked rlc (owner_of <$> cs))
              (sentences_to_embed acc ++ rs.*1)).
Proof.
  intros Hm. revert acc. induction cs as [|c cs IH]; intros acc.
  - rewrite append_all_nil. destruct acc, rlc; cbn; by rewrite !app_nil_r.
  - rewrite append_all_cons, append_candidate_markers by done.
    cbn [rewrite_from].
    destruct (add_entity_markers _ _ _ _) as [r | e]; [| done].
    rewrite !result_bind_ok, IH.
    cbn [empty_label_candidates entity_pairs labels sentences_to_label sentences_to_embed].
    rewrite length_app, Nat.add_1_r.
    destruct (rewrite_from _ cs) as [rs | e]; [| done].
    rewrite !result_bind_ok.
    rewrite !fmap_cons, !(when_asked_cons rlc _ (_ <$> cs)).
    by rewrite <- !app_assoc.
Qed.

End Generation.

(** ** Chunking *)

Lemma ceil_div_step (n m : nat) :
  0 < n → 0 < m → ceil_div n m = S (ceil_div (n - m) m).
Proof.
  intros Hn Hm. unfold ceil_div. destruct (decide (n ≤ m)) as [Hle | Hgt].
  - replace (n - m) with 0 by lia.
    rewrite (Nat.div_small (0 + m - 1) m) by lia.
    symmetry. apply (Nat.div_unique _ _ 1 (n - 1)); lia.
  - replace (n + m - 1) with ((n - m + m - 1) + 1 * m) by lia.
    rewrite Nat.div_add by lia. lia.
Qed.

Lemma ceil_div_0 (m : nat) : 0 < m → ceil_div 0 m = 0.
Proof. intros Hm. unfold ceil_div. apply Nat.div_small. lia. Qed.

Lemma ceil_div_small (n m : nat) : 0 < n → n ≤ m → ceil_div n m = 1.
Proof.
  intros Hn Hle. rewrite ceil_div_step by lia.
  replace (n - m) with 0 by lia. rewrite ceil_div_0 by lia. done.
Qed.

(** The list comprehension over [range] builds the chunks. *)
Lemma slices_chunk_list {A} (l : list A) (size fuel x : nat) :
  (fun y => py_slice l y (y + size)) <$> range_from fuel x (length l) size
  = chunk_list fuel size (drop x l).
Proof.
  revert x. induction fuel as [|fuel IH]; intros x; [done |].
  cbn [range_from chunk_list]. destruct (x <? length l) eqn:Hx.
  - apply Nat.ltb_lt in Hx.
    destruct (drop x l) as [|a rest] eqn:Hdrop.
    { apply (f_equal length) in Hdrop. rewrite length_drop in Hdrop. simpl in Hdrop. lia. }
    rewrite fmap_cons, IH. rewrite <- Hdrop. unfold py_slice.
    replace (x + size - x) with size by lia.
    by rewrite drop_drop.
  - apply Nat.ltb_ge in Hx. by rewrite drop_ge.
Qed.

Lemma split_steps_chunk_list {A} (l : list A) (size : nat) :
  0 < size →
  split_steps l size = Ok (chunk_list (length l) size l).
Proof.
  intros Hs. unfold split_steps, py_range.
  destruct (size =? 0) eqn:Hz; [apply Nat.eqb_eq in Hz; lia |].
  cbn [mbind result_bind]. f_equal.
  rewrite Nat.sub_0_r. by rewrite slices_chunk_list.
Qed.

Section Chunks.

Context {A : Type} (size : nat) (Hsize : 0 < size).

Lemma chunk_list_nil (fuel : nat) : chunk_list fuel size ([] : list A) = [].
Proof. by destruct fuel. Qed.

Lemma chunk_list_concat (fuel : nat) (l : list A) :
  length l ≤ fuel → concat (chunk_list fuel size l) = l.
Proof.
  revert l. induction fuel as [|fuel IH]; intros l Hl.
  - destruct l; [done | simpl in Hl; lia].
  - destruct l as [|a l]; [done |]. cbn [chunk_list concat].
    rewrite IH; [apply take_drop |].
    rewrite length_drop. simpl in *. lia.
Qed.

Lemma chunk_list_length (fuel : nat) (l : list A) :
  length l ≤ fuel → length (chunk_list fuel size l) = ceil_div (length l) size.
Proof.
  revert l. induction fuel as [|fuel IH]; intros l Hl.
  - destruct l; [by rewrite ceil_div_0 | simpl in Hl; lia].
  - destruct l as [|a l]; [by rewrite ceil_div_0 |].
    cbn [chunk_list length]. rewrite (ceil_div_step (S (length l))) by lia.
    rewrite IH by (rewrite length_drop; simpl in *; lia).
    by rewrite length_drop.
Qed.

Lemma chunk_list_bounded (fuel : nat) (l : list A) :
  Forall (fun chunk => 0 < length chunk ≤ size) (chunk_list fuel size l).
Proof.
  revert l. induction fuel as [|fuel IH]; intros l; [constructor |].
  destruct l as [|a l]; [constructor |]. cbn [chunk_list].
  constructor; [| apply IH].
  rewrite length_take. simpl. lia.
Qed.

(** Reading the concatenation of per-chunk outputs at an index finds the
    output of the chunk [i / size], [k] counting the chunks that came
    before. *)
Lemma chunk_list_lookup {B} (F : nat → A → B) (fuel k i : nat) (l : list A) :
  length l ≤ fuel →
  concat (imap (fun j chunk => F (k + j) <$> chunk) (chunk_list fuel size l)) !! i
  = F (k + i / size) <$> l !! i.
Proof.
  revert k i l. induction fuel as [|fuel IH]; intros k i l Hl.
  - destruct l; [done | simpl in Hl; lia].
  - destruct l as [|a l]; [done |]. cbn [chunk_list imap concat].
    destruct (decide (i < size)) as [Hi | Hi].
    + rewrite Nat.div_small, Nat.add_0_r by done.
      destruct (decide (i < length (a :: l))) as [Hin | Hout].
      * rewrite lookup_app_l by (rewrite length_fmap, length_take; lia).
        by rewrite list_lookup_fmap, lookup_take_lt by done.
      * rewrite (lookup_ge_None_2 (a :: l)) by lia.
        rewrite drop_ge by (simpl in *; lia). rewrite chunk_list_nil. cbn.
        rewrite app_nil_r. apply lookup_ge_None_2.
        rewrite length_fmap, length_take. lia.
    + destruct (decide (size ≤ length (a :: l))) as [Hbig | Hsmall].
      * rewrite lookup_app_r by (rewrite length_fmap, length_take; lia).
        rewrite length_fmap, length_take. rewrite Nat.min_l by done.
        rewrite (imap_ext _ (fun j chunk => F (S k + j) <$> chunk))
          by (intros j c _; cbn; by replace (k + S j) with (S k + j) by lia).
        rewrite IH by (rewrite length_drop; simpl in *; lia).
        rewrite lookup_drop.
        replace (size + (i - size)) with i by lia.
        replace (S k + (i - size) / size) with (k + i / size); [done |].
        replace i with ((i - size) + 1 * size) at 1 by lia.
        rewrite Nat.div_add by lia. lia.
      * rewrite (lookup_ge_None_2 (a :: l)) by lia.
        rewrite drop_ge by lia. rewrite chunk_list_nil. cbn.
        rewrite app_nil_r. apply lookup_ge_None_2.
        rewrite length_fmap, length_take. lia.
Qed.

End Chunks.

(** ** The embedding loops *)

Section Embedding.

Context `{Backend}.

Lemma fold_left_snoc_fmap {A B} (f : A → B) (l : list A) (acc : list B) :
  fold_left (fun acc x => acc ++ [f x]) l acc = acc ++ (f <$> l).
Proof.
  revert acc. induction l as [|x l IH]; intros acc; cbn.
  - by rewrite app_nil_r.
  - by rewrite IH, <- app_assoc.
Qed.

Lemma embed_calls (e : Embeddings) (batch : list Sentence) (w : World) :
  calls (embed e batch w) = calls w ++ [EmbedCall (provider_training w) batch].
Proof. unfold embed. by destruct (embeddings_class e). Qed.

Lemma embed_mode (e : Embeddings) (batch : list Sentence) (w : World) :
  provider_training (embed e batch w) = provider_training w.
Proof. unfold embed. by destruct (embeddings_class e). Qed.

Lemma run_steps_cons (self : RelationExtractor) (detach : bool) (w : World)
    (step : list Sentence) (rest : list (list Sentence)) :
  run_steps self detach w (step :: rest)
  = run_steps self true
      (embed (embeddings self) step (if detach then provider_eval w else w)) rest.
Proof. reflexivity. Qed.

(** After a first chunk every chunk is embedded in evaluation mode. *)
Lemma run_steps_detached_calls (self : RelationExtractor) (steps : list (list Sentence))
    (w : World) :
  calls (run_steps self true w steps)
  = calls w ++ (steps ≫= fun step => [EvalCall; EmbedCall false step]).
Proof.
  revert w. induction steps as [|step steps IH]; intros w.
  - cbn. by rewrite app_nil_r.
  - cbn [run_steps]. rewrite IH, embed_calls. cbn. by rewrite <- !app_assoc.
Qed.

Lemma run_steps_detached_mode (self : RelationExtractor) (steps : list (list Sentence))
    (w : World) :
  steps ≠ [] → provider_training (run_steps self true w steps) = false.
Proof.
  revert w. induction steps as [|step steps IH]; intros w Hne; [done |].
  cbn [run_steps]. destruct steps as [|step' steps].
  - cbn. by rewrite embed_mode.
  - by apply IH.
Qed.

Lemma run_steps_calls (self : RelationExtractor) (steps : list (list Sentence)) (w : World) :
  calls (run_steps self false w steps)
  = calls w ++ loop_events (provider_training w) steps.
Proof.
  destruct steps as [|step steps].
  - cbn. by rewrite app_nil_r.
  - cbn [run_steps loop_events].
    rewrite run_steps_detached_calls, embed_calls. by rewrite <- app_assoc.
Qed.

Lemma run_steps_mode_one (self : RelationExtractor) (step : list Sentence) (w : World) :
  provider_training (run_steps self false w [step]) = provider_training w.
Proof. cbn. apply embed_mode. Qed.

Lemma run_steps_mode_more (self : RelationExtractor) (first second : list Sentence)
    (rest : list (list Sentence)) (w : World) :
  provider_training (run_steps self false w (first :: second :: rest)) = false.
Proof. rewrite run_steps_cons. by apply run_steps_detached_mode. Qed.

(** The world after step [j] is the world after the first [j + 1] steps. *)
Lemma zip_with_worlds {A B} (G : World → A → B) (self : RelationExtractor)
    (steps : list (list Sentence)) (xs : list A) (detach : bool) (w : World) :
  length steps = length xs →
  zip_with G (worlds_from self detach w steps) xs
  = imap (fun j x => G (run_steps self detach w (take (S j) steps)) x) xs.
Proof.
  revert xs detach w. induction steps as [|step steps IH]; intros xs detach w Hlen.
  - by destruct xs.
  - destruct xs as [|x xs]; [done |]. cbn [worlds_from zip_with imap].
    f_equal. rewrite IH by (simpl in Hlen; lia).
    by apply imap_ext.
Qed.

(** The loop for a token-level provider. *)
Lemma token_loop (self : RelationExtractor) (steps : list (list Sentence))
    (pairs : list (list (Span * Span))) (st : EmbedLoop) :
  length steps = length pairs →
  fold_left (token_step self) (zip steps pairs) st
  = mkEmbedLoop
      (relation_embeddings st
       ++ concat (zip_with (fun w' step => pair_embedding w' <$> step)
                           (worlds_from self (detach st) (world st) steps) pairs))
      (match steps with [] => detach st | _ => true end)
      (run_steps self (detach st) (world st) steps).
Proof.
  revert pairs st. induction steps as [|step steps IH]; intros pairs st Hlen.
  - destruct pairs; [| done]. destruct st. cbn. by rewrite app_nil_r.
  - destruct pairs as [|p pairs]; [done |].
    cbn [zip zip_with fold_left]. rewrite IH by (simpl in Hlen; lia).
    unfold token_step at 1 2 3. unfold embed_step.
    cbn [relation_embeddings detach world fst snd worlds_from concat].
    rewrite fold_left_snoc_fmap, <- app_assoc.
    f_equal. by destruct steps.
Qed.

(** The loop for a document-level provider. *)
Lemma document_loop (self : RelationExtractor) (steps : list (list Sentence))
    (st : EmbedLoop) :
  fold_left (document_step self) steps st
  = mkEmbedLoop
      (relation_embeddings st
       ++ concat (zip_with
                    (fun w' step =>
                       (fun s : Sentence => sentence_embedding w' (sent_id s)) <$> step)
                    (worlds_from self (detach st) (world st) steps) steps))
      (match steps with [] => detach st | _ => true end)
      (run_steps self (detach st) (world st) steps).
Proof.
  revert st. induction steps as [|step steps IH]; intros st.
  - destruct st. cbn. by rewrite app_nil_r.
  - cbn [fold_left]. rewrite IH.
    unfold document_step at 1 2 3. unfold embed_step.
    cbn [relation_embeddings detach world worlds_from zip_with concat].
    rewrite fold_left_snoc_fmap, <- app_assoc.
    f_equal. by destruct steps.
Qed.

End Embedding.

(** ** What the generation loop leaves in its lists *)

Section Pipeline.

Context `{Backend}.

Lemma candidates_nil (self : RelationExtractor) : candidates self [] = [].
Proof. reflexivity. Qed.

Lemma candidates_sentences (self : RelationExtractor) (sentences : list Sentence) :
  0 < length (candidates self sentences) → 0 < length sentences.
Proof. destruct sentences; [rewrite candidates_nil; simpl; lia | simpl; lia]. Qed.

Lemma generate_plain (self : RelationExtractor) (sentences : list Sentence) (rlc : bool) :
  use_entity_markers self = false →
  generate self sentences rlc
  = Ok (mkAcc (when_asked rlc (pending_of <$> candidates self sentences))
              (pair_of <$> candidates self sentences)
              (label_of <$> candidates self sentences)
              (when_asked rlc (owner_of <$> candidates self sentences))
              sentences).
Proof.
  intros Hm. rewrite generate_candidates, append_all_plain by done. by rewrite Hm.
Qed.

Lemma generate_markers (self : RelationExtractor) (sentences : list Sentence) (rlc : bool) :
  use_entity_markers self = true →
  generate self sentences rlc
  = rs ← rewrite_from 0 (candidates self sentences);
    Ok (mkAcc (when_asked rlc (pending_of <$> candidates self sentences))
              (rs.*2)
              (label_of <$> candidates self sentences)
              (when_asked rlc (owner_of <$> candidates self sentences))
              (rs.*1)).
Proof.
  intros Hm. rewrite generate_candidates, append_all_markers by done. by rewrite Hm.
Qed.

Lemma rewrite_from_length (k : nat) (cs : list Candidate)
    (rs : list (Sentence * (Span * Span))) :
  rewrite_from k cs = Ok rs → length rs = length cs.
Proof.
  revert k rs. induction cs as [|c cs IH]; intros k rs Hrs.
  - cbn in Hrs. by simplify_eq.
  - cbn [rewrite_from] in Hrs.
    destruct (add_entity_markers _ _ _ _) as [r | e]; [| done].
    rewrite result_bind_ok in Hrs.
    destruct (rewrite_from (S k) cs) as [rs' | e] eqn:Hrest; [| done].
    rewrite result_bind_ok in Hrs. simplify_eq. cbn. f_equal. by eapply IH.
Qed.

Lemma rewrite_from_lookup (k i : nat) (cs : list Candidate)
    (rs : list (Sentence * (Span * Span))) (c : Candidate) :
  rewrite_from k cs = Ok rs → cs !! i = Some c →
  ∃ r, rs !! i = Some r
       ∧ add_entity_markers (ExpandedSentence (k + i)) (cand_sentence c)
                            (cand_span_1 c) (cand_span_2 c) = Ok r.
Proof.
  revert k i rs. induction cs as [|c' cs IH]; intros k i rs Hrs Hc; [done |].
  cbn [rewrite_from] in Hrs.
  destruct (add_entity_markers _ _ _ _) as [r | e] eqn:Hr; [| done].
  rewrite result_bind_ok in Hrs.
  destruct (rewrite_from (S k) cs) as [rs' | e] eqn:Hrest; [| done].
  rewrite result_bind_ok in Hrs. simplify_eq.
  destruct i as [|i].
  - cbn in Hc. simplify_eq. exists r. by rewrite Nat.add_0_r.
  - cbn in Hc. destruct (IH _ _ _ Hrest Hc) as (r' & Hr' & Hok).
    exists r'. split; [done |]. by replace (k + S i) with (S k + i) by lia.
Qed.

(** A rewriting that raises stops the whole list. *)
Lemma rewrite_from_raise (k i : nat) (cs : list Candidate) (c : Candidate) :
  cs !! i = Some c →
  is_raise (add_entity_markers (ExpandedSentence (k + i)) (cand_sentence c)
                               (cand_span_1 c) (cand_span_2 c)) →
  is_raise (rewrite_from k cs).
Proof.
  intros Hc Hraise. destruct (rewrite_from k cs) as [rs | e] eqn:Hrs; [| done].
  destruct (rewrite_from_lookup _ _ _ _ _ Hrs Hc) as (r & _ & Hok).
  by rewrite Hok in Hraise.
Qed.

(** The lists after a generation that did not raise. *)
Lemma generate_ok (self : RelationExtractor) (sentences : list Sentence) (rlc : bool)
    (acc : Acc) :
  generate self sentences rlc = Ok acc →
  let cs := candidates self sentences in
  labels acc = label_of <$> cs
  ∧ empty_label_candidates acc = when_asked rlc (pending_of <$> cs)
  ∧ sentences_to_label acc = when_asked rlc (owner_of <$> cs)
  ∧ length (entity_pairs acc) = length cs
  ∧ (use_entity_markers self = false →
       entity_pairs acc = pair_of <$> cs ∧ sentences_to_embed acc = sentences)
  ∧ (use_entity_markers self = true →
       length (sentences_to_embed acc) = length cs
       ∧ ∀ i c, cs !! i = Some c →
           ∃ es ee, sentences_to_embed acc !! i = Some es
                    ∧ entity_pairs acc !! i = Some ee
                    ∧ add_entity_markers (ExpandedSentence i) (cand_sentence c)
                                         (cand_span_1 c) (cand_span_2 c)
                      = Ok (es, ee)).
Proof.
  intros Hgen cs. destruct (use_entity_markers self) eqn:Hm.
  - rewrite generate_markers in Hgen by done. fold cs in Hgen.
    destruct (rewrite_from 0 cs) as [rs | e] eqn:Hrs; [| done].
    rewrite result_bind_ok in Hgen. simplify_eq.
    cbn [labels empty_label_candidates sentences_to_label entity_pairs sentences_to_embed].
    pose proof (rewrite_from_length _ _ _ Hrs) as Hlen.
    split_and!; try done.
    + by rewrite length_fmap.
    + intros _. split; [by rewrite length_fmap |].
      intros i c Hc. destruct (rewrite_from_lookup _ _ _ _ _ Hrs Hc) as ([es ee] & Hr & Hok).
      exists es, ee. rewrite !list_lookup_fmap, Hr. done.
  - rewrite generate_plain in Hgen by done. fold cs in Hgen. simplify_eq.
    cbn [labels empty_label_candidates sentences_to_label entity_pairs sentences_to_embed].
    split_and!; try done. by rewrite length_fmap.
Qed.

(** ** Chunks and relation embeddings of a generated batch *)

Lemma embedding_steps_single (sentences : list Sentence) (acc : Acc) :
  length (sentences_to_embed acc) ≤ length sentences * 4 →
  embedding_steps sentences acc = Ok ([sentences_to_embed acc], [entity_pairs acc]).
Proof.
  intros Hle. unfold embedding_steps.
  by rewrite (proj2 (Nat.ltb_ge _ _) Hle).
Qed.

Lemma embedding_steps_chunked (sentences : list Sentence) (acc : Acc) :
  0 < length sentences →
  length sentences * 4 < length (sentences_to_embed acc) →
  embedding_steps sentences acc
  = Ok (chunk_list (length (sentences_to_embed acc)) (length sentences * 4)
                   (sentences_to_embed acc),
        chunk_list (length (entity_pairs acc)) (length sentences * 4)
                   (entity_pairs acc)).
Proof.
  intros HN Hlt. unfold embedding_steps.
  rewrite (proj2 (Nat.ltb_lt _ _) Hlt).
  by rewrite !split_steps_chunk_list by lia.
Qed.

Lemma length_from_lookup {A B} (l : list A) (l' : list B) :
  (∀ i, is_Some (l !! i) ↔ is_Some (l' !! i)) → length l = length l'.
Proof.
  intros Hiff. destruct (decide (length l = length l')) as [| Hne]; [done |].
  destruct (decide (length l < length l')) as [Hlt | Hge].
  - apply lookup_lt_is_Some_2, Hiff, lookup_lt_is_Some_1 in Hlt. lia.
  - assert (length l' < length l) as Hlt by lia.
    apply lookup_lt_is_Some_2, Hiff, lookup_lt_is_Some_1 in Hlt. lia.
Qed.

Lemma generate_consistent (self : RelationExtractor) (sentences : list Sentence)
    (rlc : bool) (acc : Acc) :
  generate self sentences rlc = Ok acc → consistent self sentences acc.
Proof.
  intros (_ & _ & _ & Hep & Hplain & Hmark)%generate_ok. split.
  - intros Hm. by apply Hplain.
  - intros Hm. destruct (Hmark Hm) as [Hlen _]. by rewrite Hlen, Hep.
Qed.

(** The steps of a consistent accumulator: both lists are cut alike, and the
    chunks put together give the lists back. *)
Lemma embedding_steps_consistent (self : RelationExtractor) (sentences : list Sentence)
    (acc : Acc) :
  0 < length sentences → consistent self sentences acc →
  ∃ ss ps, embedding_steps sentences acc = Ok (ss, ps)
           ∧ length ss = length ps
           ∧ concat ss = sentences_to_embed acc
           ∧ concat ps = entity_pairs acc.
Proof.
  intros HN [Hplain Hmark].
  destruct (decide (length (sentences_to_embed acc) ≤ length sentences * 4)) as [Hle | Hgt].
  - eexists _, _. split; [by apply embedding_steps_single |].
    cbn. by rewrite !app_nil_r.
  - destruct (use_entity_markers self) eqn:Hm.
    + eexists _, _. split; [apply embedding_steps_chunked; lia |].
      rewrite !chunk_list_length, !chunk_list_concat by lia.
      by rewrite Hmark.
    + rewrite Hplain in Hgt by done. lia.
Qed.

Lemma relation_embeddings_lookup (self : RelationExtractor) (sentences : list Sentence)
    (acc : Acc) (ss : list (list Sentence)) (ps : list (list (Span * Span)))
    (w : World) (i : nat) :
  0 < length sentences → consistent self sentences acc →
  embedding_steps sentences acc = Ok (ss, ps) →
  relation_embeddings (embed_all self ss ps w) !! i = representation self sentences acc w i.
Proof.
  intros HN [Hplain Hmark] Hsteps. unfold representation, sentence_steps.
  rewrite Hsteps. cbn [fst].
  destruct (decide (length (sentences_to_embed acc) ≤ length sentences * 4)) as [Hle | Hgt].
  - rewrite embedding_steps_single in Hsteps by done. simplify_eq.
    unfold embed_all. case_bool_decide.
    + rewrite document_loop. cbn. by rewrite app_nil_r, take_nil, list_lookup_fmap.
    + rewrite token_loop by done. cbn. by rewrite app_nil_r, take_nil, list_lookup_fmap.
  - destruct (use_entity_markers self) eqn:Hm;
      [| rewrite Hplain in Hgt by done; lia].
    rewrite embedding_steps_chunked in Hsteps by lia. simplify_eq.
    unfold chunk_of. rewrite Hm.
    set (size := length sentences * 4).
    set (ss := chunk_list (length (sentences_to_embed acc)) size (sentences_to_embed acc)).
    assert (Hsize : 0 < size) by (unfold size; lia).
    unfold embed_all. case_bool_decide.
    + rewrite document_loop. cbn [relation_embeddings detach world app].
      rewrite zip_with_worlds by done.
      pose proof (chunk_list_lookup size Hsize
        (fun j (s : Sentence) =>
           sentence_embedding (run_steps self false w (take (S j) ss)) (sent_id s))
        (length (sentences_to_embed acc)) 0 i (sentences_to_embed acc)) as Hlook.
      cbn in Hlook. by apply Hlook.
    + rewrite token_loop
        by (unfold ss, size; rewrite !chunk_list_length by lia; by rewrite Hmark).
      cbn [relation_embeddings detach world app].
      rewrite zip_with_worlds
        by (unfold ss, size; rewrite !chunk_list_length by lia; by rewrite Hmark).
      pose proof (chunk_list_lookup size Hsize
        (fun j (p : Span * Span) =>
           pair_embedding (run_steps self false w (take (S j) ss)) p)
        (length (entity_pairs acc)) 0 i (entity_pairs acc)) as Hlook.
      cbn in Hlook. by apply Hlook.
Qed.

Lemma relation_embeddings_length (self : RelationExtractor) (sentences : list Sentence)
    (acc : Acc) (ss : list (list Sentence)) (ps : list (list (Span * Span))) (w : World) :
  0 < length sentences → consistent self sentences acc →
  embedding_steps sentences acc = Ok (ss, ps) →
  length (relation_embeddings (embed_all self ss ps w))
  = if bool_decide (embeddings_class (embeddings self) = TransformerDocumentEmbeddings)
    then length (sentences_to_embed acc)
    else length (entity_pairs acc).
Proof.
  intros HN Hcons Hsteps. case_bool_decide as Hdoc.
  - apply length_from_lookup. intros i.
    rewrite (relation_embeddings_lookup _ sentences acc) by done.
    unfold representation. rewrite bool_decide_eq_true_2 by done.
    by rewrite fmap_is_Some.
  - apply length_from_lookup. intros i.
    rewrite (relation_embeddings_lookup _ sentences acc) by done.
    unfold representation. rewrite bool_decide_eq_false_2 by done.
    by rewrite fmap_is_Some.
Qed.

(** ** Stacking, dropout and decoding *)

Lemma torch_stack_ok (rows t : list (list scalar)) : torch_stack rows = Ok t → t = rows.
Proof.
  unfold torch_stack. destruct rows as [|r rest]; [done |].
  destruct (forallb _ rest); [| done]. by intros [= <-].
Qed.

Lemma linear_forward_ok (l : Linear) (t out : list (list scalar)) :
  linear_forward l t = Ok out → out = linear_row l <$> t.
Proof.
  unfold linear_forward. destruct (forallb _ t); [| done]. by intros [= <-].
Qed.

Lemma decode_ok (self : RelationExtractor) (t scores : list (list scalar)) :
  decode self t = Ok scores → scores = decode_row self <$> t.
Proof.
  unfold decode, decode_row.
  destruct (non_linear_decoder self), (layers self) as [d | d1 d2]; try done.
  - destruct (linear_forward d1 t) as [hidden | e] eqn:Hh; [| done].
    rewrite result_bind_ok. intros Hs%linear_forward_ok.
    apply linear_forward_ok in Hh. subst. unfold relu_forward.
    by rewrite <- !list_fmap_compose.
  - apply linear_forward_ok.
Qed.

Lemma dropout_forward_lookup (self : RelationExtractor) (t : list (list scalar)) (i : nat) :
  dropout_forward (dropout_value self) (training self) t !! i
  = dropout_row self i <$> t !! i.
Proof.
  unfold dropout_forward, dropout_row. destruct (training self).
  - by rewrite list_lookup_imap.
  - by destruct (t !! i).
Qed.

Lemma length_dropout_forward (p : scalar) (training : bool) (t : list (list scalar)) :
  length (dropout_forward p training t) = length t.
Proof. unfold dropout_forward. destruct training; [apply length_imap | done]. Qed.

(** ** A call of [forward_pass] that returns *)

Lemma forward_pass_ok (self : RelationExtractor) (sentences : list Sentence) (rlc : bool)
    (w w' : World) (out : Output) :
  forward_pass self sentences rlc w = Ok (out, w') →
  ∃ acc,
    generate self sentences rlc = Ok acc
    ∧ out_labels out = labels acc
    ∧ out_candidates out
      = (if rlc then Some (sentences_to_label acc, empty_label_candidates acc) else None)
    ∧ ((labels acc = [] ∧ sentence_relation_scores out = None ∧ w' = w)
       ∨ (labels acc ≠ []
          ∧ ∃ ss ps,
              embedding_steps sentences acc = Ok (ss, ps)
              ∧ w' = (if training self
                      then provider_train (world (embed_all self ss ps w))
                      else world (embed_all self ss ps w))
              ∧ sentence_relation_scores out
                = Some (decode_row self
                        <$> dropout_forward (dropout_value self) (training self)
                              (relation_embeddings (embed_all self ss ps w))))).
Proof.
  unfold forward_pass. intros Hfp.
  destruct (generate self sentences rlc) as [acc | e]; [| done].
  rewrite result_bind_ok in Hfp. exists acc. split; [done |].
  destruct (labels acc) as [|l ls] eqn:Hlabels.
  - cbn in Hfp. simplify_eq. cbn. split_and!; try done. by left.
  - cbn [length Nat.ltb Nat.leb] in Hfp.
    unfold embed_and_decode in Hfp.
    destruct (embedding_steps sentences acc) as [[ss ps] | e]; [| done].
    rewrite !result_bind_ok in Hfp. cbn [fst snd] in Hfp.
    destruct (torch_stack _) as [all | e] eqn:Hstack; [| done].
    apply torch_stack_ok in Hstack. subst all.
    rewrite !result_bind_ok in Hfp.
    destruct (decode self _) as [scores | e] eqn:Hdec; [| done].
    apply decode_ok in Hdec. subst scores.
    rewrite !result_bind_ok in Hfp. cbn [fst snd] in Hfp. simplify_eq.
    cbn. split_and!; try done. right. split; [done |].
    by exists ss, ps.
Qed.

End Pipeline.

(** * The claims *)

Lemma rendered_sentence_tokens (fresh : SentenceId) (ws : list string) :
  Forall (fun w => clean_word w = true) ws →
  sent_tokens (Sentence_from_text fresh (render ws))
  = imap (fun i w => mkToken fresh (S i) w) ws.
Proof. intros Hclean. cbn. by rewrite run_tokenize_render. Qed.

Section Claims.

Context `{Backend}.

(** C5, as amended.  Take a sentence without repeated tokens whose token
    texts are non-empty and free of spaces, and two separate contiguous spans
    of it.  [add_entity_markers] returns a rewritten sentence whose token
    texts are those of the original with [<e1>]/[</e1>] put around [span_1]
    and [<e2>]/[</e2>] around [span_2], in the original order, and the two
    single-token spans of the markers [<e1>] and [<e2>]: in argument order
    when [span_1] comes first in the sentence, swapped when [span_2] comes
    first. *)
Theorem C5_add_entity_markers_rewrites (fresh : SentenceId) (sentence : Sentence)
    (span_1 span_2 : Span) (pre mid post : list Token) :
  NoDup (sent_tokens sentence) →
  Forall (fun t => clean_word (text t) = true) (sent_tokens sentence) →
  (sent_tokens sentence = pre ++ tokens span_1 ++ mid ++ tokens span_2 ++ post →
   ∃ es e1 e2,
     add_entity_markers fresh sentence span_1 span_2 = Ok (es, (e1, e2))
     ∧ text <$> sent_tokens es
       = (text <$> pre) ++ wrap "<e1>" "</e1>" (text <$> tokens span_1)
         ++ (text <$> mid) ++ wrap "<e2>" "</e2>" (text <$> tokens span_2)
         ++ (text <$> post)
     ∧ tokens e1 = [mkToken fresh (S (length pre)) "<e1>"]
     ∧ sent_tokens es !! length pre = Some (span_first e1)
     ∧ (∃ i2, tokens e2 = [mkToken fresh (S i2) "<e2>"]
              ∧ sent_tokens es !! i2 = Some (span_first e2)))
  ∧ (sent_tokens sentence = pre ++ tokens span_2 ++ mid ++ tokens span_1 ++ post →
     ∃ es e1 e2,
       add_entity_markers fresh sentence span_1 span_2 = Ok (es, (e2, e1))
       ∧ text <$> sent_tokens es
         = (text <$> pre) ++ wrap "<e2>" "</e2>" (text <$> tokens span_2)
           ++ (text <$> mid) ++ wrap "<e1>" "</e1>" (text <$> tokens span_1)
           ++ (text <$> post)
       ∧ tokens e2 = [mkToken fresh (S (length pre)) "<e2>"]
       ∧ sent_tokens es !! length pre = Some (span_first e2)
       ∧ (∃ i1, tokens e1 = [mkToken fresh (S i1) "<e1>"]
                ∧ sent_tokens es !! i1 = Some (span_first e1))).
Proof.
  intros Hnd Hclean. split; intros Hsent.
  - pose proof (sentence_words_1_first span_1 span_2 pre mid post) as Hws.
    rewrite <- Hsent in Hws. specialize (Hws Hnd).
    pose proof (token_words_clean span_1 span_2 _ Hclean) as Hcw. rewrite Hws in Hcw.
    eexists _, _, _. split; [by apply add_entity_markers_1_first |].
    rewrite rendered_sentence_tokens by done. rewrite imap_texts.
    split_and!; [done | done | |].
    + rewrite list_lookup_imap. unfold wrap. rewrite <- app_comm_cons.
      by rewrite list_lookup_middle by (by rewrite length_fmap).
    + eexists. split; [done |].
      rewrite list_lookup_imap. unfold wrap at 2. rewrite <- app_comm_cons.
      rewrite lookup_fourth_section; [done |].
      rewrite length_wrap, !length_fmap. lia.
  - pose proof (sentence_words_2_first span_1 span_2 pre mid post) as Hws.
    rewrite <- Hsent in Hws. specialize (Hws Hnd).
    pose proof (token_words_clean span_1 span_2 _ Hclean) as Hcw. rewrite Hws in Hcw.
    eexists _, _, _. split; [by apply add_entity_markers_2_first |].
    rewrite rendered_sentence_tokens by done. rewrite imap_texts.
    split_and!; [done | done | |].
    + rewrite list_lookup_imap. unfold wrap. rewrite <- app_comm_cons.
      by rewrite list_lookup_middle by (by rewrite length_fmap).
    + eexists. split; [done |].
      rewrite list_lookup_imap. unfold wrap at 2. rewrite <- app_comm_cons.
      rewrite lookup_fourth_section; [done |].
      rewrite length_wrap, !length_fmap. lia.
Qed.

(** C6.  When the token at the recorded start position of [span_1] in the
    rewritten sentence is not [<e1>], or the one at the start position of
    [span_2] is not [<e2>], [add_entity_markers] raises ([NameError]) and
    returns nothing; and a call of [forward_pass] with entity markers in
    which the rewriting of some candidate raises, raises as well. *)
Theorem C6_marker_mismatch_raises :
  (∀ (fresh : SentenceId) (sentence : Sentence) (span_1 span_2 : Span)
     (id1 id2 : nat) (t1 t2 : Token),
     let st := marker_scan sentence span_1 span_2 in
     let expanded_sentence := Sentence_from_text fresh (scan_text st) in
     span_1_startid st = Some id1 →
     span_2_startid st = Some id2 →
     sent_tokens expanded_sentence !! (id1 - 1) = Some t1 →
     sent_tokens expanded_sentence !! (id2 - 1) = Some t2 →
     text t1 ≠ "<e1>" ∨ text t2 ≠ "<e2>" →
     add_entity_markers fresh sentence span_1 span_2 = Raise NameError)
  ∧ (∀ (self : RelationExtractor) (sentences : list Sentence) (rlc : bool) (w : World)
       (i : nat) (c : Candidate),
       use_entity_markers self = true →
       candidates self sentences !! i = Some c →
       is_raise (add_entity_markers (ExpandedSentence i) (cand_sentence c)
                                    (cand_span_1 c) (cand_span_2 c)) →
       is_raise (forward_pass self sentences rlc w)).
Proof.
  split.
  - intros fresh sentence span_1 span_2 id1 id2 t1 t2 st es H1 H2 Ht1 Ht2 Hbad.
    unfold add_entity_markers. fold st. fold es.
    rewrite H1, H2. cbn [read_local mbind result_bind].
    unfold sentence_getitem. rewrite Ht1, Ht2. cbn [mbind result_bind].
    rewrite !span_text_single.
    destruct Hbad as [Hbad | Hbad].
    + by rewrite (bool_decide_eq_false_2 _ Hbad).
    + rewrite (bool_decide_eq_false_2 _ Hbad).
      by case_bool_decide.
  - intros self sentences rlc w i c Hm Hc Hraise.
    unfold forward_pass. rewrite generate_markers by done.
    pose proof (rewrite_from_raise 0 i _ _ Hc Hraise) as Hr.
    by destruct (rewrite_from 0 (candidates self sentences)).
Qed.

(** C7.  When no candidate pair is generated for the batch, [forward_pass]
    returns normally: the scores are [None], the labels are the empty list,
    the two trailing lists, when asked for, are empty, and the provider and
    the stored embeddings are left as they were (nothing is embedded or
    decoded).  That is the case when every sentence has fewer than two
    spans. *)
Theorem C7_no_candidates (self : RelationExtractor) (sentences : list Sentence)
    (rlc : bool) (w : World) :
  (candidates self sentences = [] →
   forward_pass self sentences rlc w
   = Ok (mkOutput None [] (if rlc then Some ([], []) else None), w))
  ∧ (Forall (fun s => length (get_span_labels s (span_label_type self)) < 2) sentences →
     candidates self sentences = []).
Proof.
  split.
  - intros Hcs. unfold forward_pass.
    assert (∃ acc, generate self sentences rlc = Ok acc ∧ labels acc = []
                   ∧ sentences_to_label acc = [] ∧ empty_label_candidates acc = [])
      as (acc & -> & Hl & Hs & He).
    { destruct (use_entity_markers self) eqn:Hm.
      - rewrite generate_markers, Hcs by done. eexists. split; [done |].
        by destruct rlc.
      - rewrite generate_plain, Hcs by done. eexists. split; [done |].
        by destruct rlc. }
    rewrite result_bind_ok, Hl, Hs, He. done.
  - intros Hfew. unfold candidates.
    induction Hfew as [|s sentences Hs _ IH]; [done |].
    change ((s :: sentences) ≫= sentence_candidates self)
      with (sentence_candidates self s ++ (sentences ≫= sentence_candidates self)).
    rewrite IH, app_nil_r. unfold sentence_candidates.
    destruct (get_span_labels s (span_label_type self)) as [|sl [|sl' sls]]; [done | |].
    + cbn. unfold pair_candidates. by rewrite bool_decide_eq_true_2.
    + simpl in Hs. lia.
Qed.

End Claims.

(** The sentence "A B C D" with the spans B and D, in both argument orders. *)
Lemma C5_witness :
  (∃ es e1 e2,
     add_entity_markers (ExpandedSentence 0) demo_sentence span_B span_D = Ok (es, (e1, e2))
     ∧ text <$> sent_tokens es = ["A"; "<e1>"; "B"; "</e1>"; "C"; "<e2>"; "D"; "</e2>"]
     ∧ tokens e1 = [mkToken (ExpandedSentence 0) 2 "<e1>"]
     ∧ sent_tokens es !! 1 = Some (span_first e1)
     ∧ (∃ i2, tokens e2 = [mkToken (ExpandedSentence 0) (S i2) "<e2>"]
              ∧ sent_tokens es !! i2 = Some (span_first e2)))
  ∧ (∃ es e1 e2,
       add_entity_markers (ExpandedSentence 0) demo_sentence span_D span_B = Ok (es, (e2, e1))
       ∧ text <$> sent_tokens es = ["A"; "<e2>"; "B"; "</e2>"; "C"; "<e1>"; "D"; "</e1>"]
       ∧ tokens e2 = [mkToken (ExpandedSentence 0) 2 "<e2>"]
       ∧ sent_tokens es !! 1 = Some (span_first e2)
       ∧ (∃ i1, tokens e1 = [mkToken (ExpandedSentence 0) (S i1) "<e1>"]
                ∧ sent_tokens es !! i1 = Some (span_first e1))).
Proof.
  split.
  - apply (proj1 (C5_add_entity_markers_rewrites (ExpandedSentence 0) demo_sentence
                    span_B span_D [demo_token 1 "A"] [demo_token 3 "C"] []
                    ltac:(by apply (bool_decide_unpack _); vm_compute)
                    ltac:(by repeat constructor))).
    reflexivity.
  - apply (proj2 (C5_add_entity_markers_rewrites (ExpandedSentence 0) demo_sentence
                    span_D span_B [demo_token 1 "A"] [demo_token 3 "C"] []
                    ltac:(by apply (bool_decide_unpack _); vm_compute)
                    ltac:(by repeat constructor))).
    reflexivity.
Defined.

(** The claim as stated fails on a sentence with a token text that holds a
    space: the spans B and D are separate and contiguous, B before D, and the
    call raises. *)
Lemma C5_counterexample :
  sent_tokens spaced_sentence
  = [demo_token 1 "x y"] ++ tokens spaced_B ++ [] ++ tokens spaced_D ++ []
  ∧ NoDup (sent_tokens spaced_sentence)
  ∧ add_entity_markers (ExpandedSentence 0) spaced_sentence spaced_B spaced_D
    = Raise NameError.
Proof.
  split_and!; [reflexivity | by apply (bool_decide_unpack _); vm_compute | by vm_compute].
Qed.

(** A marker mismatch on the sentence "x y B D": the token at the recorded
    position of [<e1>] is "y". *)
Lemma C6_witness :
  add_entity_markers (ExpandedSentence 0) spaced_sentence spaced_B spaced_D = Raise NameError
  ∧ is_raise (forward_pass demo_marker_model [spaced_sentence] false demo_world).
Proof.
  split.
  - apply (proj1 (@C6_marker_mismatch_raises nat_backend) (ExpandedSentence 0)
             spaced_sentence spaced_B spaced_D 2 5
             (mkToken (ExpandedSentence 0) 2 "y") (mkToken (ExpandedSentence 0) 5 "</e1>"));
      [reflexivity | reflexivity | reflexivity | reflexivity | by left].
  - apply (proj2 (@C6_marker_mismatch_raises nat_backend) demo_marker_model
             [spaced_sentence] false demo_world 0
             (mkCandidate spaced_sentence spaced_B spaced_D "O"));
      [reflexivity | by vm_compute | by vm_compute].
Defined.

(** A batch of one sentence with one entity. *)
Lemma C7_witness :
  forward_pass demo_marker_model [demo_sentence_one_span] true demo_world
  = Ok (mkOutput None [] (Some ([], [])), demo_world)
  ∧ candidates demo_marker_model [demo_sentence_one_span] = [].
Proof.
  split.
  - apply (proj1 (C7_no_candidates demo_marker_model [demo_sentence_one_span] true demo_world)).
    by vm_compute.
  - apply (proj2 (C7_no_candidates demo_marker_model [demo_sentence_one_span] true demo_world)).
    repeat constructor.
Defined.

(** ** Labels and counts of the candidates *)

Lemma length_bind_const {A B} (f : A → list B) (l : list A) (k : nat) :
  (∀ a, a ∈ l → length (f a) = k) → length (l ≫= f) = length l * k.
Proof.
  induction l as [|a l IH]; intros Hk; [done |].
  change ((a :: l) ≫= f) with (f a ++ (l ≫= f)).
  rewrite length_app, IH by (intros; apply Hk; by apply list_elem_of_further).
  rewrite Hk by apply list_elem_of_here. simpl. lia.
Qed.

Lemma pairs_with_cons (a b : Span) (l : list Span) :
  pairs_with a (b :: l)
  = (if bool_decide (a = b) then [] else [(a, b)]) ++ pairs_with a l.
Proof. reflexivity. Qed.

Lemma pairs_with_absent (a : Span) (l : list Span) :
  a ∉ l → length (pairs_with a l) = length l.
Proof.
  induction l as [|b l IH]; intros Ha; [done |].
  apply not_elem_of_cons in Ha as [Hab Ha].
  rewrite pairs_with_cons, bool_decide_eq_false_2 by done.
  cbn. by rewrite IH.
Qed.

Lemma pairs_with_present (a : Span) (l : list Span) :
  NoDup l → a ∈ l → length (pairs_with a l) = length l - 1.
Proof.
  induction l as [|b l IH]; intros Hnd Ha; [by apply elem_of_nil in Ha |].
  apply NoDup_cons in Hnd as [Hb Hnd]. rewrite pairs_with_cons.
  destruct (decide (a = b)) as [-> | Hab].
  - rewrite bool_decide_eq_true_2 by done. cbn.
    rewrite pairs_with_absent by done. lia.
  - rewrite bool_decide_eq_false_2 by done.
    apply elem_of_cons in Ha as [? | Ha]; [done |].
    cbn. rewrite IH by done.
    destruct l; [by apply elem_of_nil in Ha | simpl; lia].
Qed.

(** A list without repetition has [n * (n - 1)] ordered pairs of different
    members. *)
Lemma length_distinct_pairs (spans : list Span) :
  NoDup spans → length (distinct_pairs spans) = length spans * (length spans - 1).
Proof.
  intros Hnd. unfold distinct_pairs. apply length_bind_const.
  intros a Ha. by apply (pairs_with_present a spans).
Qed.

Section Labels.

Context `{Backend}.

(** With no allow-list and outside gold-only mode every pair of different
    spans is a candidate. *)
Lemma pair_candidates_unfiltered (self : RelationExtractor) (sentence : Sentence)
    (d : gmap string RelationLabel) (sl : SpanLabel) (sls : list SpanLabel) :
  use_entity_pairs self = None → use_gold_spans self = false →
  pair_of <$> (sls ≫= pair_candidates self sentence d sl)
  = pairs_with (span sl) (span <$> sls).
Proof.
  intros Hpairs Hgold. induction sls as [|sl2 sls IH]; [done |].
  change ((sl2 :: sls) ≫= pair_candidates self sentence d sl)
    with (pair_candidates self sentence d sl sl2
          ++ (sls ≫= pair_candidates self sentence d sl)).
  rewrite fmap_app, IH, fmap_cons, pairs_with_cons. f_equal.
  unfold pair_candidates, allowed_pair, gold_label. rewrite Hpairs, Hgold.
  case_bool_decide; [done |]. cbn [negb].
  by destruct (d !! _).
Qed.

Lemma nested_candidates_unfiltered (self : RelationExtractor) (sentence : Sentence)
    (d : gmap string RelationLabel) (outer inner : list SpanLabel) :
  use_entity_pairs self = None → use_gold_spans self = false →
  pair_of <$> (outer ≫= fun sl => inner ≫= pair_candidates self sentence d sl)
  = (span <$> outer) ≫= fun a => pairs_with a (span <$> inner).
Proof.
  intros Hpairs Hgold. induction outer as [|sl sls IH]; [done |].
  change ((sl :: sls) ≫= ?f) with (f sl ++ (sls ≫= f)).
  rewrite fmap_app, IH, fmap_cons.
  by rewrite pair_candidates_unfiltered.
Qed.

Lemma sentence_candidates_unfiltered (self : RelationExtractor) (sentence : Sentence) :
  use_entity_pairs self = None → use_gold_spans self = false →
  pair_of <$> sentence_candidates self sentence
  = distinct_pairs (span <$> get_span_labels sentence (span_label_type self)).
Proof. intros. by apply nested_candidates_unfiltered. Qed.

(** The label of a candidate is the gold value under its position string, or
    ['O'] when there is none and gold-only mode is off. *)
Lemma candidate_label (self : RelationExtractor) (sentences : list Sentence)
    (c : Candidate) :
  c ∈ candidates self sentences →
  cand_sentence c ∈ sentences
  ∧ match build_relation_dict self (cand_sentence c)
          !! create_position_string (cand_span_1 c) (cand_span_2 c) with
    | Some relation_label => cand_label c = rel_value relation_label
    | None => use_gold_spans self = false ∧ cand_label c = "O"
    end.
Proof.
  unfold candidates. intros (s & Hc & Hs)%list_elem_of_bind.
  unfold sentence_candidates in Hc.
  apply list_elem_of_bind in Hc as (sl & Hc & _).
  apply list_elem_of_bind in Hc as (sl2 & Hc & _).
  unfold pair_candidates in Hc.
  case_bool_decide; [by apply elem_of_nil in Hc |].
  destruct (negb _); [by apply elem_of_nil in Hc |].
  unfold gold_label in Hc.
  destruct (build_relation_dict self s !! _) as [r |] eqn:Hr.
  - apply list_elem_of_singleton in Hc as ->. cbn. by rewrite Hr.
  - destruct (use_gold_spans self); [by apply elem_of_nil in Hc |].
    apply list_elem_of_singleton in Hc as ->. cbn. by rewrite Hr.
Qed.

(** C2.  When [forward_pass] returns, its labels are those of the candidates
    in generation order (and so are the pending label candidates when asked
    for); the label of every candidate is the gold relation value when the
    gold index of its sentence has the position string of the pair, and ['O']
    otherwise, in which case gold-only mode is off: in gold-only mode a pair
    without gold relation is no candidate. *)
Theorem C2_labels_follow_gold (self : RelationExtractor) (sentences : list Sentence)
    (rlc : bool) (w w' : World) (out : Output) :
  forward_pass self sentences rlc w = Ok (out, w') →
  out_labels out = label_of <$> candidates self sentences
  ∧ (rlc = true →
       out_candidates out
       = Some (owner_of <$> candidates self sentences,
               pending_of <$> candidates self sentences))
  ∧ Forall
      (fun c =>
         cand_sentence c ∈ sentences
         ∧ match build_relation_dict self (cand_sentence c)
                 !! create_position_string (cand_span_1 c) (cand_span_2 c) with
           | Some relation_label => cand_label c = rel_value relation_label
           | None => use_gold_spans self = false ∧ cand_label c = "O"
           end)
      (candidates self sentences).
Proof.
  intros (acc & Hgen & Hlabels & Hcands & _)%forward_pass_ok.
  destruct (generate_ok _ _ _ _ Hgen) as (Hl & He & Hs & _).
  split_and!.
  - by rewrite Hlabels, Hl.
  - intros ->. by rewrite Hcands, He, Hs.
  - apply Forall_forall. intros c Hc. by apply candidate_label.
Qed.

(** C3, as amended.  With no allow-list and gold-only mode off, the
    candidates of a sentence whose span labels carry pairwise different spans
    are the ordered pairs of different spans in nested iteration order, and
    there are [len(S) * (len(S) - 1)] of them.  Without entity markers the
    loop body for the sentence appends exactly these pairs; with markers it
    appends as many labels when it does not raise. *)
Theorem C3_candidate_count (self : RelationExtractor) (rlc : bool) (acc : Acc)
    (sentence : Sentence) :
  let S := get_span_labels sentence (span_label_type self) in
  let pairs := distinct_pairs (span <$> S) in
  use_entity_pairs self = None →
  use_gold_spans self = false →
  NoDup (span <$> S) →
  length pairs = length S * (length S - 1)
  ∧ pair_of <$> sentence_candidates self sentence = pairs
  ∧ (use_entity_markers self = false →
       ∃ acc', sentence_step self rlc acc sentence = Ok acc'
               ∧ entity_pairs acc' = entity_pairs acc ++ pairs)
  ∧ (∀ acc', sentence_step self rlc acc sentence = Ok acc' →
       length (labels acc') = length (labels acc) + length S * (length S - 1)
       ∧ (rlc = true →
            empty_label_candidates acc'
            = empty_label_candidates acc
              ++ ((fun p : Span * Span => mkPending p.1 p.2) <$> pairs))).
Proof.
  intros S pairs Hpairs Hgold Hnd.
  assert (Hlen : length pairs = length S * (length S - 1)).
  { unfold pairs. rewrite length_distinct_pairs by done. by rewrite length_fmap. }
  assert (Hcs : pair_of <$> sentence_candidates self sentence = pairs)
    by by apply sentence_candidates_unfiltered.
  assert (Hpend : pending_of <$> sentence_candidates self sentence
                  = (fun p : Span * Span => mkPending p.1 p.2) <$> pairs).
  { rewrite <- Hcs, <- list_fmap_compose. done. }
  split_and!; [done | done | |].
  - intros Hm. rewrite sentence_step_candidates, append_all_plain by done.
    eexists. split; [done |]. cbn. by rewrite Hcs.
  - intros acc' Hstep. rewrite sentence_step_candidates in Hstep.
    assert (labels acc' = labels acc ++ (label_of <$> sentence_candidates self sentence)
            ∧ empty_label_candidates acc'
              = empty_label_candidates acc
                ++ when_asked rlc (pending_of <$> sentence_candidates self sentence))
      as [Hl He].
    { destruct (use_entity_markers self) eqn:Hm.
      - rewrite append_all_markers in Hstep by done.
        destruct (rewrite_from _ _); [| done].
        rewrite result_bind_ok in Hstep. by simplify_eq.
      - rewrite append_all_plain in Hstep by done. by simplify_eq. }
    split.
    + rewrite Hl, length_app, length_fmap, <- (length_fmap pair_of), Hcs. lia.
    + intros ->. by rewrite He, Hpend.
Qed.

End Labels.

(** ** The whole call *)

Section Calls.

Context `{Backend}.

Lemma embed_all_world (self : RelationExtractor) (ss : list (list Sentence))
    (ps : list (list (Span * Span))) (w : World) :
  length ss = length ps →
  world (embed_all self ss ps w) = run_steps self false w ss.
Proof.
  intros Hlen. unfold embed_all. case_bool_decide.
  - by rewrite document_loop.
  - by rewrite token_loop.
Qed.

Lemma labels_candidates (self : RelationExtractor) (sentences : list Sentence)
    (rlc : bool) (acc : Acc) :
  generate self sentences rlc = Ok acc →
  length (labels acc) = length (candidates self sentences).
Proof. intros (-> & _)%generate_ok. by rewrite length_fmap. Qed.

(** More than one chunk means that there are more sentences to embed than
    four times the batch: markers are on and candidates exist. *)
Lemma several_steps (self : RelationExtractor) (sentences : list Sentence)
    (rlc : bool) (acc : Acc) :
  generate self sentences rlc = Ok acc →
  1 < length (sentence_steps sentences acc) →
  0 < length (candidates self sentences)
  ∧ length sentences * 4 < length (sentences_to_embed acc)
  ∧ use_entity_markers self = true.
Proof.
  intros Hgen Hsteps.
  destruct (generate_ok _ _ _ _ Hgen) as (_ & _ & _ & Hep & Hplain & Hmark).
  unfold sentence_steps in Hsteps.
  destruct (decide (length (sentences_to_embed acc) ≤ length sentences * 4)) as [Hle | Hgt].
  { rewrite embedding_steps_single in Hsteps by done. simpl in Hsteps. lia. }
  destruct (use_entity_markers self) eqn:Hm.
  - destruct (Hmark eq_refl) as [Hlen _]. split_and!; [lia | lia | done].
  - destruct (Hplain eq_refl) as [_ Hste]. rewrite Hste in Hgt. lia.
Qed.

(** C9.  In a call of [forward_pass] that returns and has more than one chunk
    to embed, the calls made to the provider are: the embedding of the first
    chunk in the mode the provider was in, then for every later chunk a
    switch to evaluation mode followed by its embedding in that mode, and
    last a switch to training mode exactly when the model is in training
    mode; the provider ends in training mode if and only if the model is in
    training mode. *)
Theorem C9_provider_modes (self : RelationExtractor) (sentences : list Sentence)
    (rlc : bool) (w w' : World) (out : Output) (acc : Acc) :
  forward_pass self sentences rlc w = Ok (out, w') →
  generate self sentences rlc = Ok acc →
  1 < length (sentence_steps sentences acc) →
  calls w'
  = calls w
    ++ loop_events (provider_training w) (sentence_steps sentences acc)
    ++ (if training self then [TrainCall] else [])
  ∧ provider_training w' = training self.
Proof.
  intros Hfp Hgen Hsteps.
  destruct (several_steps _ _ _ _ Hgen Hsteps) as (Hcs & _ & _).
  pose proof (candidates_sentences _ _ Hcs) as HN.
  pose proof (generate_consistent _ _ _ _ Hgen) as Hcons.
  apply forward_pass_ok in Hfp as (acc' & Hgen' & _ & _ & Hcase).
  rewrite Hgen in Hgen'. simplify_eq.
  destruct Hcase as [(Hnil & _) | (_ & ss & ps & Hss & -> & _)].
  { apply labels_candidates in Hgen. rewrite Hnil in Hgen. simpl in Hgen. lia. }
  destruct (embedding_steps_consistent _ _ _ HN Hcons) as (ss' & ps' & Hss' & Hlen & _).
  rewrite Hss in Hss'. simplify_eq.
  unfold sentence_steps in *. rewrite Hss in *. cbn [fst] in *.
  rewrite embed_all_world by done.
  destruct ss' as [|first [|second rest]]; [simpl in Hsteps; lia.. |].
  destruct (training self).
  - split; [| done]. cbn [provider_train calls].
    by rewrite run_steps_calls, <- app_assoc.
  - split; [| by rewrite run_steps_mode_more].
    by rewrite run_steps_calls, app_nil_r.
Qed.

(** C4, as amended.  With entity markers, a generation over [N] sentences
    that leaves [P > 0] candidates has its sentences to embed and its entity
    pairs cut alike into [ceil(P / (4 * N))] consecutive chunks of at most
    [4 * N] elements (one chunk when [P <= 4 * N]); the chunks put together
    in order give the lists back, and the relation embeddings that the loop
    collects chunk after chunk are, position by position, the
    representations of the candidates. *)
Theorem C4_chunked_embedding (self : RelationExtractor) (sentences : list Sentence)
    (rlc : bool) (acc : Acc) (w : World) :
  let P := length (candidates self sentences) in
  let N := length sentences in
  use_entity_markers self = true →
  generate self sentences rlc = Ok acc →
  0 < P →
  ∃ ss ps,
    embedding_steps sentences acc = Ok (ss, ps)
    ∧ length ss = ceil_div P (4 * N)
    ∧ length ps = ceil_div P (4 * N)
    ∧ Forall (fun chunk => 0 < length chunk ≤ 4 * N) ss
    ∧ Forall (fun chunk => 0 < length chunk ≤ 4 * N) ps
    ∧ concat ss = sentences_to_embed acc
    ∧ concat ps = entity_pairs acc
    ∧ (P ≤ 4 * N → ss = [sentences_to_embed acc] ∧ ps = [entity_pairs acc])
    ∧ length (relation_embeddings (embed_all self ss ps w)) = P
    ∧ ∀ i, relation_embeddings (embed_all self ss ps w) !! i
           = representation self sentences acc w i.
Proof.
  intros P N Hm Hgen HP.
  pose proof (candidates_sentences _ _ HP) as HN. fold N in HN.
  pose proof (generate_consistent _ _ _ _ Hgen) as Hcons.
  destruct (generate_ok _ _ _ _ Hgen) as (_ & _ & _ & Hep & _ & Hmark).
  destruct (Hmark Hm) as [Hste _]. fold P in Hep, Hste.
  assert (Hrest : ∀ ss ps, embedding_steps sentences acc = Ok (ss, ps) →
    length (relation_embeddings (embed_all self ss ps w)) = P
    ∧ ∀ i, relation_embeddings (embed_all self ss ps w) !! i
           = representation self sentences acc w i).
  { intros ss ps Hss. split.
    - rewrite (relation_embeddings_length _ sentences acc) by done.
      by case_bool_decide.
    - intros i. by apply relation_embeddings_lookup. }
  replace (4 * N) with (N * 4) by lia.
  destruct (decide (P ≤ N * 4)) as [Hle | Hgt].
  - pose proof (embedding_steps_single sentences acc) as Hss.
    rewrite Hste in Hss. specialize (Hss Hle).
    exists [sentences_to_embed acc], [entity_pairs acc].
    destruct (Hrest _ _ Hss) as [Hlen Hlook].
    split_and!; try done.
    + cbn. by rewrite ceil_div_small by lia.
    + cbn. by rewrite ceil_div_small by lia.
    + repeat constructor; lia.
    + repeat constructor; lia.
    + cbn. by rewrite app_nil_r.
    + cbn. by rewrite app_nil_r.
  - pose proof (embedding_steps_chunked sentences acc HN) as Hss.
    rewrite Hste, Hep in Hss. fold N in Hss. specialize (Hss ltac:(lia)).
    eexists _, _. split; [exact Hss |].
    destruct (Hrest _ _ Hss) as [Hlen Hlook].
    split_and!; try done.
    + rewrite chunk_list_length by lia. by rewrite Hste.
    + rewrite chunk_list_length by lia. by rewrite Hep.
    + apply chunk_list_bounded; lia.
    + apply chunk_list_bounded; lia.
    + apply chunk_list_concat; lia.
    + apply chunk_list_concat; lia.
Qed.

(** C1, as amended.  Let the provider be token-level or entity markers be in
    use.  When [forward_pass] returns for a batch with [P > 0] candidates,
    the score tensor has [P] rows, the labels are [P] single-element lists,
    one label per candidate, and, when label candidates are asked for, the
    sentence list and the list of pending label candidates have [P] entries
    each; entry [i] of each belongs to candidate [i] in generation order: row
    [i] of the scores is the decoded (after dropout) representation of
    candidate [i], which is read from entity pair [i] (the two spans of the
    candidate, or the marker spans of its rewriting) or from sentence [i] to
    embed. *)
Theorem C1_outputs_aligned (self : RelationExtractor) (sentences : list Sentence)
    (rlc : bool) (w w' : World) (out : Output) :
  let cs := candidates self sentences in
  forward_pass self sentences rlc w = Ok (out, w') →
  embeddings_class (embeddings self) = TokenEmbeddings ∨ use_entity_markers self = true →
  0 < length cs →
  ∃ acc scores,
    generate self sentences rlc = Ok acc
    ∧ sentence_relation_scores out = Some scores
    ∧ length scores = length cs
    ∧ length (out_labels out) = length cs
    ∧ out_labels out = (fun c => [cand_label c]) <$> cs
    ∧ (rlc = true →
         ∃ sentences_to_label pending,
           out_candidates out = Some (sentences_to_label, pending)
           ∧ length sentences_to_label = length cs
           ∧ length pending = length cs
           ∧ sentences_to_label = owner_of <$> cs
           ∧ pending = pending_of <$> cs)
    ∧ (∀ i, i < length cs →
         ∃ v, representation self sentences acc w i = Some v
              ∧ scores !! i = Some (decode_row self (dropout_row self i v)))
    ∧ (use_entity_markers self = false →
         entity_pairs acc = pair_of <$> cs ∧ sentences_to_embed acc = sentences)
    ∧ (use_entity_markers self = true →
         ∀ i c, cs !! i = Some c →
           ∃ es ee, sentences_to_embed acc !! i = Some es
                    ∧ entity_pairs acc !! i = Some ee
                    ∧ add_entity_markers (ExpandedSentence i) (cand_sentence c)
                                         (cand_span_1 c) (cand_span_2 c)
                      = Ok (es, ee)).
Proof.
  intros cs Hfp Hconf HP.
  pose proof (candidates_sentences _ _ HP) as HN.
  apply forward_pass_ok in Hfp as (acc & Hgen & Hlabels & Hcands & Hcase).
  pose proof (generate_consistent _ _ _ _ Hgen) as Hcons.
  destruct (generate_ok _ _ _ _ Hgen) as (Hl & He & Hs & Hep & Hplain & Hmark).
  fold cs in Hl, He, Hs, Hep, Hplain, Hmark.
  destruct Hcase as [(Hnil & _) | (_ & ss & ps & Hss & _ & Hscores)].
  { rewrite Hl in Hnil. apply (f_equal length) in Hnil.
    rewrite length_fmap in Hnil. simpl in Hnil. lia. }
  pose proof (relation_embeddings_length self sentences acc ss ps w HN Hcons Hss) as Hlen.
  assert (Hrows : length (relation_embeddings (embed_all self ss ps w)) = length cs).
  { rewrite Hlen. case_bool_decide as Hdoc; [| done].
    destruct Hconf as [Htok | Hm]; [congruence |].
    by destruct (Hmark Hm). }
  eexists acc, _. split_and!; [done | exact Hscores | ..].
  - by rewrite length_fmap, length_dropout_forward.
  - by rewrite Hlabels, Hl, length_fmap.
  - by rewrite Hlabels, Hl.
  - intros ->. unfold when_asked in He, Hs. rewrite Hcands, He, Hs. eexists _, _.
    split_and!; [done | | | done | done]; by rewrite length_fmap.
  - intros i Hi.
    rewrite list_lookup_fmap, dropout_forward_lookup.
    rewrite (relation_embeddings_lookup self sentences acc ss ps w i HN Hcons Hss).
    rewrite <- Hrows in Hi. apply lookup_lt_is_Some_2 in Hi as [v Hv].
    rewrite (relation_embeddings_lookup self sentences acc ss ps w i HN Hcons Hss) in Hv.
    exists v. by rewrite Hv.
  - done.
  - intros Hm. by destruct (Hmark Hm).
Qed.

End Calls.

(** * The claims on concrete inputs *)

(** One sentence with three entities, entity markers, label candidates asked
    for: six candidates. *)
Lemma C1_witness :
  ∃ out w' acc scores,
    forward_pass demo_marker_model [demo_sentence_three] true demo_world = Ok (out, w')
    ∧ generate demo_marker_model [demo_sentence_three] true = Ok acc
    ∧ sentence_relation_scores out = Some scores
    ∧ length scores = 6
    ∧ out_labels out = [["born_in"]; ["O"]; ["O"]; ["O"]; ["O"]; ["O"]]
    ∧ ∀ i, i < 6 →
        ∃ v, representation demo_marker_model [demo_sentence_three] acc demo_world i = Some v
             ∧ scores !! i = Some (decode_row demo_marker_model
                                     (dropout_row demo_marker_model i v)).
Proof.
  destruct (forward_pass demo_marker_model [demo_sentence_three] true demo_world)
    as [[out w'] | e] eqn:Hfp; [| by vm_compute in Hfp].
  destruct (C1_outputs_aligned demo_marker_model [demo_sentence_three] true
              demo_world w' out Hfp ltac:(by left) ltac:(vm_compute; lia))
    as (acc & scores & Hgen & Hscores & Hlen & _ & Hlabels & _ & Hrows & _).
  exists out, w', acc, scores. split_and!; done.
Defined.

(** The claim as stated fails for a document-level provider without entity
    markers: the sentence with the entities B and D has two candidates, and
    the score tensor has one row, that of the only sentence. *)
Lemma C1_counterexample :
  length (candidates demo_document_model [demo_sentence]) = 2
  ∧ match forward_pass demo_document_model [demo_sentence] true demo_world with
    | Ok (out, _) =>
        length <$> sentence_relation_scores out = Some 1
        ∧ length (out_labels out) = 2
        ∧ (fun r => (length r.1, length r.2)) <$> out_candidates out = Some (2, 2)
    | Raise _ => False
    end.
Proof. by vm_compute. Qed.

(** The sentence "A B C D" with the gold relation from B to D. *)
Lemma C2_witness :
  ∃ out w',
    forward_pass demo_plain_model [demo_sentence] true demo_world = Ok (out, w')
    ∧ out_labels out = [["born_in"]; ["O"]]
    ∧ out_candidates out
      = Some ([OriginalSentence 0; OriginalSentence 0],
              [mkPending span_B span_D; mkPending span_D span_B])
    ∧ Forall
        (fun c =>
           cand_sentence c ∈ [demo_sentence]
           ∧ match build_relation_dict demo_plain_model (cand_sentence c)
                   !! create_position_string (H := nat_backend) (cand_span_1 c) (cand_span_2 c) with
             | Some relation_label => cand_label c = rel_value relation_label
             | None => use_gold_spans demo_plain_model = false ∧ cand_label c = "O"
             end)
        (candidates demo_plain_model [demo_sentence]).
Proof.
  destruct (forward_pass demo_plain_model [demo_sentence] true demo_world)
    as [[out w'] | e] eqn:Hfp; [| by vm_compute in Hfp].
  destruct (C2_labels_follow_gold demo_plain_model [demo_sentence] true demo_world w' out Hfp)
    as (Hlabels & Hcands & Hall).
  exists out, w'. split_and!; [done | done | by apply Hcands | done].
Defined.

(** Three entities with different spans: six candidates. *)
Lemma C3_witness :
  let S := get_span_labels demo_sentence_three (Some "ner") in
  let pairs := distinct_pairs (span <$> S) in
  let acc := mkAcc [] [] [] [] [demo_sentence_three] in
  length pairs = 3 * (3 - 1)
  ∧ pair_of <$> sentence_candidates demo_plain_model demo_sentence_three = pairs
  ∧ (use_entity_markers demo_plain_model = false →
       ∃ acc', sentence_step demo_plain_model true acc demo_sentence_three = Ok acc'
               ∧ entity_pairs acc' = entity_pairs acc ++ pairs)
  ∧ (∀ acc', sentence_step demo_plain_model true acc demo_sentence_three = Ok acc' →
       length (labels acc') = length (labels acc) + 3 * (3 - 1)
       ∧ (true = true →
            empty_label_candidates acc'
            = empty_label_candidates acc
              ++ ((fun p : Span * Span => mkPending p.1 p.2) <$> pairs))).
Proof.
  apply (C3_candidate_count demo_plain_model true
           (mkAcc [] [] [] [] [demo_sentence_three]) demo_sentence_three);
    [reflexivity | reflexivity | by apply (bool_decide_unpack _); vm_compute].
Defined.

(** The claim as stated fails when two span labels carry the same span: the
    list has two labels, no allow-list is configured, gold-only mode is off,
    and the sentence has no candidate instead of [2 * (2 - 1)]. *)
Lemma C3_counterexample :
  use_entity_pairs demo_plain_model = None
  ∧ use_gold_spans demo_plain_model = false
  ∧ length (get_span_labels demo_sentence_two_labels (span_label_type demo_plain_model)) = 2
  ∧ sentence_candidates demo_plain_model demo_sentence_two_labels = []
  ∧ sentence_step demo_plain_model false (mkAcc [] [] [] [] [demo_sentence_two_labels])
                  demo_sentence_two_labels
    = Ok (mkAcc [] [] [] [] [demo_sentence_two_labels]).
Proof. by vm_compute. Qed.

(** Six candidates over one sentence with entity markers: two chunks, of four
    and of two. *)
Lemma C4_witness :
  ∃ acc ss ps,
    generate demo_marker_model [demo_sentence_three] false = Ok acc
    ∧ embedding_steps [demo_sentence_three] acc = Ok (ss, ps)
    ∧ length ss = 2
    ∧ length ps = 2
    ∧ Forall (fun chunk => 0 < length chunk ≤ 4) ss
    ∧ concat ss = sentences_to_embed acc
    ∧ concat ps = entity_pairs acc
    ∧ length (relation_embeddings (embed_all demo_marker_model ss ps demo_world)) = 6
    ∧ ∀ i, relation_embeddings (embed_all demo_marker_model ss ps demo_world) !! i
           = representation demo_marker_model [demo_sentence_three] acc demo_world i.
Proof.
  destruct (generate demo_marker_model [demo_sentence_three] false)
    as [acc | e] eqn:Hgen; [| by vm_compute in Hgen].
  destruct (C4_chunked_embedding demo_marker_model [demo_sentence_three] false acc
              demo_world eq_refl Hgen ltac:(vm_compute; lia))
    as (ss & ps & Hss & Hls & Hlp & Hbs & _ & Hcs & Hcp & _ & Hlen & Hlook).
  exists acc, ss, ps. split_and!; done.
Defined.

(** The claim as stated fails without entity markers: six candidates over
    one sentence are embedded as one chunk, the batch itself, with all six
    entity pairs, where the claim has [ceil(6 / 4) = 2] chunks of at most
    four. *)
Lemma C4_counterexample :
  length (candidates demo_plain_model [demo_sentence_three]) = 6
  ∧ ceil_div 6 (4 * length [demo_sentence_three]) = 2
  ∧ match generate demo_plain_model [demo_sentence_three] false with
    | Ok acc =>
        embedding_steps [demo_sentence_three] acc
        = Ok ([[demo_sentence_three]], [entity_pairs acc])
        ∧ length (entity_pairs acc) = 6
    | Raise _ => False
    end.
Proof. by vm_compute. Qed.

(** ** The width of the decoder and the width of the representations *)

Section Widths.

Context `{Backend}.

(** What the constructor fixes as the input width of the decoder. *)
Lemma decoder_width_document (e : Embeddings) (pooling : string) :
  embeddings_class e = TransformerDocumentEmbeddings →
  relation_representation_length e pooling = embedding_length e.
Proof.
  intros Hdoc. unfold relation_representation_length.
  by rewrite (bool_decide_eq_true_2 _ Hdoc).
Qed.

Lemma decoder_width_first_last (e : Embeddings) :
  embeddings_class e = TokenEmbeddings →
  relation_representation_length e "first_last" = 4 * embedding_length e.
Proof.
  intros Htok. unfold relation_representation_length.
  rewrite (bool_decide_eq_false_2 (embeddings_class e = _)) by congruence.
  rewrite bool_decide_eq_true_2 by done. lia.
Qed.

Lemma decoder_width_other (e : Embeddings) (pooling : string) :
  embeddings_class e = TokenEmbeddings → pooling ≠ "first_last" →
  relation_representation_length e pooling = 2 * embedding_length e.
Proof.
  intros Htok Hp. unfold relation_representation_length.
  rewrite (bool_decide_eq_false_2 (embeddings_class e = _)) by congruence.
  by rewrite (bool_decide_eq_false_2 _ Hp).
Qed.

(** What the embedding loop builds for an entity pair when the provider has
    stored vectors of its embedding length: twice that length, whatever the
    pooling operation. *)
Lemma pair_embedding_length (w : World) (entity_pair : Span * Span) (len : nat) :
  (∀ t, length (token_embedding w t) = len) →
  length (pair_embedding w entity_pair) = 2 * len.
Proof.
  intros Hlen. unfold pair_embedding, torch_cat. cbn.
  rewrite app_nil_r, length_app, !Hlen. lia.
Qed.

End Widths.

(** C8: the code at the failing input.  A model built with token-level
    embeddings of length 1 and the default pooling ['first_last'] has a
    decoder of input width 4, the relation representations that
    [forward_pass] builds for the two candidates of the sentence have length
    2, and the call raises at the decoder. *)
Theorem C8_representation_width_mismatch :
  embeddings_class (embeddings demo_default_model) = TokenEmbeddings
  ∧ embedding_length (embeddings demo_default_model) = 1
  ∧ pooling_operation demo_default_model = "first_last"
  ∧ relation_representation_length (embeddings demo_default_model)
                                   (pooling_operation demo_default_model) = 4
  ∧ (∃ decoder, layers demo_default_model = LinearDecoder decoder
                ∧ in_features decoder = 4)
  ∧ match generate demo_default_model [demo_sentence] false with
    | Ok acc =>
        length <$> representation demo_default_model [demo_sentence] acc demo_world 0
        = Some 2
        ∧ length <$> representation demo_default_model [demo_sentence] acc demo_world 1
          = Some 2
    | Raise _ => False
    end
  ∧ forward_pass demo_default_model [demo_sentence] false demo_world = Raise RuntimeError.
Proof.
  split_and!; try reflexivity.
  - eexists. split; reflexivity.
  - by vm_compute.
Qed.

(** Six candidates over one sentence with entity markers, a model in training
    mode: the second chunk is embedded in evaluation mode and the provider is
    switched back to training mode. *)
Lemma C9_witness :
  ∃ out w' acc first second,
    forward_pass demo_marker_model [demo_sentence_three] false demo_world = Ok (out, w')
    ∧ generate demo_marker_model [demo_sentence_three] false = Ok acc
    ∧ sentence_steps [demo_sentence_three] acc = [first; second]
    ∧ calls w' = [EmbedCall true first; EvalCall; EmbedCall false second; TrainCall]
    ∧ provider_training w' = true.
Proof.
  destruct (forward_pass demo_marker_model [demo_sentence_three] false demo_world)
    as [[out w'] | e] eqn:Hfp; [| by vm_compute in Hfp].
  destruct (generate demo_marker_model [demo_sentence_three] false)
    as [acc | e] eqn:Hgen; [| by vm_compute in Hgen].
  assert (Hsteps : ∃ first second, sentence_steps [demo_sentence_three] acc = [first; second]).
  { vm_compute in Hgen. injection Hgen as <-. by eexists _, _. }
  destruct Hsteps as (first & second & Hsteps).
  destruct (C9_provider_modes demo_marker_model [demo_sentence_three] false
              demo_world w' out acc Hfp Hgen ltac:(rewrite Hsteps; simpl; lia))
    as [Hcalls Hmode].
  exists out, w', acc, first, second. rewrite Hsteps in Hcalls.
  split_and!; done.
Defined.

(** ** Persistence *)

Section Persistence.

Context `{Backend}.

Lemma fmap_const_replicate {A B} (c : B) (l : list A) :
  (fun _ => c) <$> l = replicate (length l) c.
Proof. induction l as [|x l IH]; [done |]. cbn. by rewrite IH. Qed.

Lemma nn_Linear_shaped (layer in_f out_f : nat) : shaped (nn_Linear layer in_f out_f) in_f out_f.
Proof.
  unfold shaped, nn_Linear, shape. cbn [in_features out_features weight bias].
  split_and!; [done | done | |].
  - rewrite <- list_fmap_compose.
    rewrite (list_fmap_ext _ (fun _ => in_f) (seq 0 out_f)).
    + by rewrite fmap_const_replicate, length_seq.
    + intros i x _. cbn. by rewrite length_fmap, length_seq.
  - by rewrite length_fmap, length_seq.
Qed.

Lemma load_linear_shaped (target source : Linear) (in_f out_f : nat) :
  shaped target in_f out_f → shaped source in_f out_f →
  load_linear target source = Ok source.
Proof.
  intros (Hi & Ho & Hw & Hb) (Hi' & Ho' & Hw' & Hb'). unfold load_linear.
  rewrite !bool_decide_eq_true_2 by congruence. cbn [andb].
  destruct source. cbn in *. by subst.
Qed.

Lemma add_item_present (d : list string) (item : string) : item ∈ d → add_item d item = d.
Proof. intros Hin. unfold add_item. by rewrite bool_decide_eq_true_2. Qed.

Lemma add_item_elem (d : list string) (item : string) : item ∈ add_item d item.
Proof.
  unfold add_item. case_bool_decide; [done |].
  apply elem_of_app. right. apply list_elem_of_here.
Qed.

(** The constructor builds a well-formed model. *)
Lemma init_well_formed (e : Embeddings) (label_t span_label_t : option string)
    (markers gold : bool) (pairs : option (list (string * string)))
    (pooling : string) (p : scalar) (non_linear : bool) (classifierargs : ClassifierArgs) :
  well_formed
    (RelationExtractor_init e label_t span_label_t markers gold pairs pooling p
       non_linear classifierargs).
Proof.
  unfold well_formed, RelationExtractor_init.
  cbn [label_dictionary non_linear_decoder layers embeddings pooling_operation].
  split; [apply add_item_elem |].
  destruct non_linear; [split |]; apply nn_Linear_shaped.
Qed.

(** What is stored under each key. *)
Lemma state_items (self : RelationExtractor) :
  let state := _get_state_dict self in
  state_item state "state_dict" = Ok (VParameters (layers self))
  ∧ state_item state "token_embeddings" = Ok (VEmbeddings (embeddings self))
  ∧ state_item state "label_dictionary" = Ok (VDictionary (label_dictionary self))
  ∧ state_item state "label_type" = Ok (VTypeName (label_type self))
  ∧ state_item state "span_label_type" = Ok (VTypeName (span_label_type self))
  ∧ state_item state "loss_weights" = Ok (VLossWeights (loss_weights self))
  ∧ state_item state "pooling_operation" = Ok (VStr (pooling_operation self))
  ∧ state_item state "dropout_value" = Ok (VFloat (dropout_value self))
  ∧ state_item state "use_entity_pairs" = Ok (VEntityPairs (use_entity_pairs self))
  ∧ state_item state "use_entity_markers" = Ok (VBool (use_entity_markers self))
  ∧ state_item state "non_linear_decoder" = Ok (VBool (non_linear_decoder self))
  ∧ state !! "use_gold_spans" = None.
Proof. split_and!; reflexivity. Qed.

Lemma set_of_elements (pairs : option (gset (string * string))) :
  list_to_set <$> (elements <$> pairs) = pairs.
Proof.
  destruct pairs as [s |]; [| done]. cbn. f_equal. apply list_to_set_elements_L.
Qed.

(** C10.  For a well-formed model [self] (as the constructor builds it,
    whatever its parameter values and whatever [use_gold_spans]), the state
    dictionary has no entry for [use_gold_spans], restoring a model from it
    succeeds, and the restored model has [use_gold_spans] at the constructor
    default [False], while pooling operation, dropout value, entity-pair
    allow-list, entity-marker flag, decoder flag, label type, span-label
    type, label dictionary, loss weights, the provider and the decoder
    parameters are those of [self]. *)
Theorem C10_use_gold_spans_not_persisted (self : RelationExtractor) :
  well_formed self →
  _get_state_dict self !! "use_gold_spans" = None
  ∧ ∃ restored,
      _init_model_with_state_dict (_get_state_dict self) = Ok restored
      ∧ use_gold_spans restored = false
      ∧ pooling_operation restored = pooling_operation self
      ∧ dropout_value restored = dropout_value self
      ∧ use_entity_pairs restored = use_entity_pairs self
      ∧ use_entity_markers restored = use_entity_markers self
      ∧ non_linear_decoder restored = non_linear_decoder self
      ∧ label_type restored = label_type self
      ∧ span_label_type restored = span_label_type self
      ∧ label_dictionary restored = label_dictionary self
      ∧ loss_weights restored = loss_weights self
      ∧ embeddings restored = embeddings self
      ∧ layers restored = layers self.
Proof.
  intros [HO Hlayers].
  destruct (state_items self)
    as (Hsd & Hte & Hld & Hlt & Hslt & Hlw & Hpo & Hdv & Hep & Hem & Hnl & Hgold).
  split; [done |].
  unfold _init_model_with_state_dict.
  rewrite Hsd, Hte, Hld, Hlt, Hslt, Hlw, Hpo, Hdv, Hep, Hem, Hnl.
  cbn [mbind result_bind as_parameters as_embeddings as_dictionary as_type_name
       as_loss_weights as_str as_float as_entity_pairs as_bool].
  unfold RelationExtractor_init, load_state_dict.
  cbn [layers arg_label_dictionary arg_loss_weights].
  rewrite add_item_present, set_of_elements by done.
  destruct (non_linear_decoder self), (layers self) as [d | d1 d2]; try done.
  - destruct Hlayers as [H1 H2].
    rewrite (load_linear_shaped _ d1 _ _ (nn_Linear_shaped _ _ _) H1).
    rewrite result_bind_ok.
    rewrite (load_linear_shaped _ d2 _ _ (nn_Linear_shaped _ _ _) H2).
    rewrite result_bind_ok. eexists. split; [done |]. by split_and!.
  - rewrite (load_linear_shaped _ d _ _ (nn_Linear_shaped _ _ _) Hlayers).
    rewrite result_bind_ok. eexists. split; [done |]. by split_and!.
Qed.

End Persistence.

(** A model built with [use_gold_spans = True], an allow-list and the
    two-layer decoder. *)
Lemma C10_witness :
  use_gold_spans demo_gold_model = true
  ∧ _get_state_dict demo_gold_model !! "use_gold_spans" = None
  ∧ ∃ restored,
      _init_model_with_state_dict (_get_state_dict demo_gold_model) = Ok restored
      ∧ use_gold_spans restored = false
      ∧ pooling_operation restored = "first"
      ∧ use_entity_pairs restored = use_entity_pairs demo_gold_model
      ∧ use_entity_markers restored = true
      ∧ non_linear_decoder restored = true
      ∧ label_dictionary restored = ["born_in"; "O"]
      ∧ layers restored = layers demo_gold_model.
Proof.
  split; [reflexivity |].
  destruct (C10_use_gold_spans_not_persisted demo_gold_model
              (init_well_formed _ _ _ _ _ _ _ _ _ _))
    as (Hgold & restored & Hok & Hg & Hp & _ & Hpairs & Hm & Hn & _ & _ & Hd & _ & _ & Hl).
  split; [done |]. exists restored. split_and!; done.
Defined.
(** * Further properties of the code *)

(** ** [add_entity_markers] on any two spans *)

Lemma marker_at_app (ws more : list string) (startid : option nat) (marker : string) :
  marker_at ws startid marker → marker_at (ws ++ more) startid marker.
Proof.
  intros Hat id Hid. destruct (Hat id Hid) as [Hpos Hlook]. split; [done |].
  by apply lookup_app_l_Some.
Qed.

Lemma scan_token_startid_1_at (span_1 span_2 : Span) (st : MarkerScan) :
  span_1_startid (scan_token span_1 span_2 st (span_first span_1))
  = Some (offset st
          + (if bool_decide (span_first span_1 = span_first span_2) then 1 else 0) + 1).
Proof. scan_cases; try done; f_equal; lia. Qed.

Lemma token_words_first_1 (span_1 span_2 : Span) :
  ∃ rest,
    token_words span_1 span_2 (span_first span_1)
    = (if bool_decide (span_first span_1 = span_first span_2) then ["<e2>"] else [])
      ++ "<e1>" :: rest.
Proof. unfold token_words. rewrite (bool_decide_eq_true_2 (_ = span_first span_1)) by done.
  by eexists. Qed.

Lemma token_words_first_2 (span_1 span_2 : Span) :
  ∃ rest, token_words span_1 span_2 (span_first span_2) = "<e2>" :: rest.
Proof. unfold token_words. rewrite (bool_decide_eq_true_2 (_ = span_first span_2)) by done.
  by eexists. Qed.

(** Wherever the loop records a start position, the word at that position is
    the marker it has just appended. *)
Lemma scan_token_marker_1 (span_1 span_2 : Span) (st : MarkerScan) (token : Token)
    (ws : list string) :
  offset st = length ws →
  marker_at ws (span_1_startid st) "<e1>" →
  marker_at (ws ++ token_words span_1 span_2 token)
            (span_1_startid (scan_token span_1 span_2 st token)) "<e1>".
Proof.
  intros Hoff Hat. destruct (decide (token = span_first span_1)) as [-> | Hne].
  - rewrite scan_token_startid_1_at.
    destruct (token_words_first_1 span_1 span_2) as [rest ->].
    intros id [= <-]. split; [lia |]. rewrite Hoff.
    case_bool_decide.
    + replace (length ws + 1 + 1 - 1) with (length ws + 1) by lia.
      rewrite lookup_app_r by lia. by replace (length ws + 1 - length ws) with 1 by lia.
    + replace (length ws + 0 + 1 - 1) with (length ws + 0) by lia.
      by rewrite lookup_app_r, Nat.add_0_r, Nat.sub_diag by lia.
  - rewrite scan_token_startid_1_other by done. by apply marker_at_app.
Qed.

Lemma scan_token_marker_2 (span_1 span_2 : Span) (st : MarkerScan) (token : Token)
    (ws : list string) :
  offset st = length ws →
  marker_at ws (span_2_startid st) "<e2>" →
  marker_at (ws ++ token_words span_1 span_2 token)
            (span_2_startid (scan_token span_1 span_2 st token)) "<e2>".
Proof.
  intros Hoff Hat. destruct (decide (token = span_first span_2)) as [-> | Hne].
  - rewrite scan_token_startid_2.
    destruct (token_words_first_2 span_1 span_2) as [rest ->].
    intros id [= <-]. split; [lia |]. rewrite Hoff.
    replace (length ws + 1 - 1) with (length ws + 0) by lia.
    by rewrite lookup_app_r, Nat.add_0_r, Nat.sub_diag by lia.
  - rewrite scan_token_startid_2_other by done. by apply marker_at_app.
Qed.

Lemma scan_tokens_markers (span_1 span_2 : Span) (toks : list Token) (st : MarkerScan)
    (ws : list string) :
  offset st = length ws →
  marker_at ws (span_1_startid st) "<e1>" →
  marker_at ws (span_2_startid st) "<e2>" →
  let st' := fold_left (scan_token span_1 span_2) toks st in
  let ws' := ws ++ (toks ≫= token_words span_1 span_2) in
  marker_at ws' (span_1_startid st') "<e1>" ∧ marker_at ws' (span_2_startid st') "<e2>".
Proof.
  revert st ws. induction toks as [|t toks IH]; intros st ws Hoff H1 H2.
  - cbn. by rewrite app_nil_r.
  - cbn [fold_left]. rewrite bind_cons_words, app_assoc.
    apply IH.
    + rewrite scan_token_offset, length_app. lia.
    + by apply scan_token_marker_1.
    + by apply scan_token_marker_2.
Qed.

Lemma marker_scan_markers (sentence : Sentence) (span_1 span_2 : Span) :
  let st := marker_scan sentence span_1 span_2 in
  let ws := sent_tokens sentence ≫= token_words span_1 span_2 in
  marker_at ws (span_1_startid st) "<e1>" ∧ marker_at ws (span_2_startid st) "<e2>".
Proof.
  apply (scan_tokens_markers span_1 span_2 (sent_tokens sentence) scan_init []);
    [done | by intros id | by intros id].
Qed.

(** A start position is recorded exactly when the first token of the span
    occurs in the sentence. *)
Lemma scan_tokens_startid_1_found (span_1 span_2 : Span) (toks : list Token)
    (st : MarkerScan) :
  span_first span_1 ∈ toks →
  is_Some (span_1_startid (fold_left (scan_token span_1 span_2) toks st)).
Proof.
  revert st. induction toks as [|t toks IH]; intros st Hin; [by apply elem_of_nil in Hin |].
  cbn [fold_left]. destruct (decide (span_first span_1 ∈ toks)) as [Hlater | Hnot].
  - by apply IH.
  - apply elem_of_cons in Hin as [<- | ?]; [| done].
    rewrite scan_tokens_startid_1_other by done.
    by rewrite scan_token_startid_1_at.
Qed.

Lemma scan_tokens_startid_2_found (span_1 span_2 : Span) (toks : list Token)
    (st : MarkerScan) :
  span_first span_2 ∈ toks →
  is_Some (span_2_startid (fold_left (scan_token span_1 span_2) toks st)).
Proof.
  revert st. induction toks as [|t toks IH]; intros st Hin; [by apply elem_of_nil in Hin |].
  cbn [fold_left]. destruct (decide (span_first span_2 ∈ toks)) as [Hlater | Hnot].
  - by apply IH.
  - apply elem_of_cons in Hin as [<- | ?]; [| done].
    rewrite scan_tokens_startid_2_other by done.
    by rewrite scan_token_startid_2.
Qed.

(** On clean token texts the call succeeds as soon as both start positions
    are recorded. *)
Lemma add_entity_markers_clean (fresh : SentenceId) (sentence : Sentence)
    (span_1 span_2 : Span) :
  Forall (fun t => clean_word (text t) = true) (sent_tokens sentence) →
  span_first span_1 ∈ sent_tokens sentence →
  span_first span_2 ∈ sent_tokens sentence →
  ∃ pair,
    add_entity_markers fresh sentence span_1 span_2
    = Ok (Sentence_from_text fresh (scan_text (marker_scan sentence span_1 span_2)), pair).
Proof.
  intros Hclean Hin1 Hin2.
  destruct (marker_scan_markers sentence span_1 span_2) as [H1 H2].
  destruct (scan_tokens_startid_1_found span_1 span_2 _ scan_init Hin1) as [id1 Hid1].
  destruct (scan_tokens_startid_2_found span_1 span_2 _ scan_init Hin2) as [id2 Hid2].
  fold (marker_scan sentence span_1 span_2) in Hid1, Hid2.
  destruct (H1 _ Hid1) as [Hp1 Hw1]. destruct (H2 _ Hid2) as [Hp2 Hw2].
  destruct id1 as [|i1]; [lia |]. destruct id2 as [|i2]; [lia |].
  rewrite Nat.sub_succ, Nat.sub_0_r in Hw1, Hw2.
  eexists. by apply (add_entity_markers_ok fresh sentence span_1 span_2 i1 i2).
Qed.

(** What a returning call returns, read off the definition. *)
Lemma add_entity_markers_inv (fresh : SentenceId) (sentence : Sentence)
    (span_1 span_2 : Span) (es : Sentence) (a b : Span) :
  add_entity_markers fresh sentence span_1 span_2 = Ok (es, (a, b)) →
  let st := marker_scan sentence span_1 span_2 in
  es = Sentence_from_text fresh (scan_text st)
  ∧ ∃ id1 id2 t1 t2,
      span_1_startid st = Some id1 ∧ span_2_startid st = Some id2
      ∧ sent_tokens es !! (id1 - 1) = Some t1 ∧ sent_tokens es !! (id2 - 1) = Some t2
      ∧ text t1 = "<e1>" ∧ text t2 = "<e2>"
      ∧ (a, b) = match entity_one_is_first st with
                 | Some true => (single_token_span t1, single_token_span t2)
                 | _ => (single_token_span t2, single_token_span t1)
                 end.
Proof.
  intros Hok st. unfold add_entity_markers in Hok. fold st in Hok.
  destruct (span_1_startid st) as [id1 |]; [| done].
  cbn [read_local mbind result_bind] in Hok. unfold sentence_getitem in Hok.
  destruct (sent_tokens (Sentence_from_text fresh (scan_text st)) !! (id1 - 1))
    as [t1 |] eqn:Ht1; [| done].
  cbn [mbind result_bind] in Hok.
  destruct (span_2_startid st) as [id2 |]; [| done].
  cbn [read_local mbind result_bind] in Hok.
  destruct (sent_tokens (Sentence_from_text fresh (scan_text st)) !! (id2 - 1))
    as [t2 |] eqn:Ht2; [| done].
  cbn [mbind result_bind] in Hok. rewrite !span_text_single in Hok.
  case_bool_decide as He1; [| done]. case_bool_decide as He2; [| done].
  cbn [negb] in Hok. injection Hok as <- Hpair.
  split; [done |]. by exists id1, id2, t1, t2.
Qed.

(** X1.  For a sentence whose token texts are non-empty and free of spaces,
    and any two spans (separate or not): [add_entity_markers] returns when
    the first tokens of both spans occur in the sentence, and raises
    [UnboundLocalError] when one of them does not; it never raises
    [IndexError] or [NameError]. *)
Theorem X1_add_entity_markers_outcome (fresh : SentenceId) (sentence : Sentence)
    (span_1 span_2 : Span) :
  Forall (fun t => clean_word (text t) = true) (sent_tokens sentence) →
  (span_first span_1 ∈ sent_tokens sentence →
   span_first span_2 ∈ sent_tokens sentence →
   ∃ es pair, add_entity_markers fresh sentence span_1 span_2 = Ok (es, pair))
  ∧ (span_first span_1 ∉ sent_tokens sentence ∨ span_first span_2 ∉ sent_tokens sentence →
     add_entity_markers fresh sentence span_1 span_2 = Raise UnboundLocalError).
Proof.
  intros Hclean. split.
  - intros Hin1 Hin2.
    destruct (add_entity_markers_clean fresh sentence span_1 span_2 Hclean Hin1 Hin2)
      as [pair Hok].
    by eexists _, _.
  - intros Hmiss. unfold add_entity_markers.
    destruct (decide (span_first span_1 ∈ sent_tokens sentence)) as [Hin1 | Hout1].
    + destruct Hmiss as [? | Hout2]; [done |].
      destruct (marker_scan_markers sentence span_1 span_2) as [H1 _].
      destruct (scan_tokens_startid_1_found span_1 span_2 _ scan_init Hin1) as [id1 Hid1].
      fold (marker_scan sentence span_1 span_2) in Hid1.
      destruct (H1 _ Hid1) as [Hp1 Hw1].
      rewrite Hid1. cbn [read_local mbind result_bind].
      unfold sentence_getitem. rewrite expanded_sentence_tokens by done.
      rewrite list_lookup_imap, Hw1. cbn [fmap option_fmap option_map mbind result_bind].
      assert (span_2_startid (marker_scan sentence span_1 span_2) = None) as ->
        by (unfold marker_scan; by rewrite scan_tokens_startid_2_other).
      done.
    + assert (span_1_startid (marker_scan sentence span_1 span_2) = None) as ->
        by (unfold marker_scan; by rewrite scan_tokens_startid_1_other).
      done.
Qed.

(** X2.  Whenever [add_entity_markers] returns, the rewritten sentence is a
    new sentence without annotations whose tokens are numbered from 1 and
    belong to it, and the two returned spans are single tokens of that
    sentence, one with the text [<e1>] and the other with the text [<e2>]. *)
Theorem X2_add_entity_markers_result (fresh : SentenceId) (sentence : Sentence)
    (span_1 span_2 : Span) (es : Sentence) (a b : Span) :
  add_entity_markers fresh sentence span_1 span_2 = Ok (es, (a, b)) →
  sent_id es = fresh
  ∧ (∀ typename, get_span_labels es typename = [] ∧ get_relation_labels es typename = [])
  ∧ (∀ i t, sent_tokens es !! i = Some t → tok_sentence t = fresh ∧ idx t = S i)
  ∧ tokens a = [span_first a] ∧ tokens b = [span_first b]
  ∧ span_first a ∈ sent_tokens es ∧ span_first b ∈ sent_tokens es
  ∧ ((text (span_first a) = "<e1>" ∧ text (span_first b) = "<e2>")
     ∨ (text (span_first a) = "<e2>" ∧ text (span_first b) = "<e1>")).
Proof.
  intros (-> & id1 & id2 & t1 & t2 & _ & _ & Ht1 & Ht2 & He1 & He2 & Hpair)%add_entity_markers_inv.
  apply list_elem_of_lookup_2 in Ht1 as Hin1. apply list_elem_of_lookup_2 in Ht2 as Hin2.
  split_and!; [done | done | | ..].
  - intros i t Ht. cbn [Sentence_from_text sent_tokens] in Ht.
    rewrite list_lookup_imap in Ht.
    destruct (run_tokenize "" _ !! i) as [word |]; cbn in Ht; by simplify_eq.
  - destruct (entity_one_is_first _) as [[|] |]; by simplify_eq.
  - destruct (entity_one_is_first _) as [[|] |]; by simplify_eq.
  - destruct (entity_one_is_first _) as [[|] |]; by simplify_eq.
  - destruct (entity_one_is_first _) as [[|] |]; by simplify_eq.
  - destruct (entity_one_is_first _) as [[|] |]; simplify_eq; cbn; auto.
Qed.

Lemma filter_token_words (span_1 span_2 : Span) (token : Token) :
  is_marker (text token) = false →
  filter (fun w => is_marker w = false) (token_words span_1 span_2 token) = [text token].
Proof.
  intros Hm. unfold token_words.
  repeat case_bool_decide; cbn [app];
    repeat (rewrite filter_cons; case_decide; try done); by rewrite filter_nil.
Qed.

Lemma filter_sentence_words (span_1 span_2 : Span) (toks : list Token) :
  Forall (fun t => is_marker (text t) = false) toks →
  filter (fun w => is_marker w = false) (toks ≫= token_words span_1 span_2)
  = text <$> toks.
Proof.
  induction 1 as [|t toks Ht _ IH]; [done |].
  by rewrite bind_cons_words, filter_app, filter_token_words, IH.
Qed.

(** X3.  Rewriting only inserts marker tokens: for a sentence whose token
    texts are non-empty, free of spaces and no marker literals, taking the
    four marker tokens out of the rewritten sentence gives back the token
    texts of the original, in order, whatever the two spans are. *)
Theorem X3_markers_removed_round_trip (fresh : SentenceId) (sentence : Sentence)
    (span_1 span_2 : Span) (es : Sentence) (pair : Span * Span) :
  Forall (fun t => clean_word (text t) = true) (sent_tokens sentence) →
  Forall (fun t => is_marker (text t) = false) (sent_tokens sentence) →
  add_entity_markers fresh sentence span_1 span_2 = Ok (es, pair) →
  filter (fun w => is_marker w = false) (text <$> sent_tokens es)
  = text <$> sent_tokens sentence.
Proof.
  intros Hclean Hplain Hok. destruct pair as [a b].
  apply add_entity_markers_inv in Hok as [-> _].
  rewrite expanded_sentence_tokens, imap_texts by done.
  by apply filter_sentence_words.
Qed.

(** ** The gold index and the candidates *)

Section Gold.

Context `{Backend}.

(** Inserting a list of relation labels under their position strings: a key
    ends up with the last label that has it. *)
Lemma relation_dict_fold (rels : list RelationLabel) (m : gmap string RelationLabel)
    (k : string) :
  fold_left
    (fun d r => <[create_position_string (rel_head r) (rel_tail r) := r]> d) rels m !! k
  = match last (filter (fun r => create_position_string (rel_head r) (rel_tail r) = k) rels)
    with
    | Some r => Some r
    | None => m !! k
    end.
Proof.
  revert m. induction rels as [|r rels IH]; intros m; [done |].
  cbn [fold_left]. rewrite IH, filter_cons. case_decide as Hk.
  - rewrite last_cons. destruct (last (filter _ rels)); [done |].
    by rewrite Hk, lookup_insert_eq.
  - destruct (last (filter _ rels)); [done |].
    by rewrite lookup_insert_ne.
Qed.

(** X4.  The gold index of a sentence maps a position string to the last
    relation label of the sentence that has this position string (a later
    annotation of the same ordered pair silently replaces an earlier one),
    and has no entry for a position string that no relation label has. *)
Theorem X4_gold_index_last_wins (self : RelationExtractor) (sentence : Sentence)
    (k : string) :
  build_relation_dict self sentence !! k
  = last (filter (fun r => create_position_string (rel_head r) (rel_tail r) = k)
                 (get_relation_labels sentence (label_type self))).
Proof.
  unfold build_relation_dict. rewrite relation_dict_fold.
  by destruct (last _).
Qed.


(** Where a candidate comes from. *)
Lemma candidate_origin (self : RelationExtractor) (sentences : list Sentence)
    (c : Candidate) :
  c ∈ candidates self sentences →
  cand_sentence c ∈ sentences
  ∧ ∃ sl sl2,
      sl ∈ get_span_labels (cand_sentence c) (span_label_type self)
      ∧ sl2 ∈ get_span_labels (cand_sentence c) (span_label_type self)
      ∧ cand_span_1 c = span sl ∧ cand_span_2 c = span sl2
      ∧ span sl ≠ span sl2
      ∧ allowed_pair self sl sl2 = true.
Proof.
  unfold candidates. intros (s & Hc & Hs)%list_elem_of_bind.
  unfold sentence_candidates in Hc.
  apply list_elem_of_bind in Hc as (sl & Hc & Hsl).
  apply list_elem_of_bind in Hc as (sl2 & Hc & Hsl2).
  unfold pair_candidates in Hc.
  case_bool_decide as Hne; [by apply elem_of_nil in Hc |].
  destruct (allowed_pair self sl sl2) eqn:Hallowed; [| by apply elem_of_nil in Hc].
  cbn [negb] in Hc.
  destruct (gold_label _ _ _ _); [| by apply elem_of_nil in Hc].
  apply list_elem_of_singleton in Hc as ->. cbn. split; [done |].
  by exists sl, sl2.
Qed.


(** The lists that a returning call with label candidates hands back. *)
Lemma forward_pass_lists (self : RelationExtractor) (sentences : list Sentence)
    (rlc : bool) (w w' : World) (out : Output) :
  forward_pass self sentences rlc w = Ok (out, w') →
  out_labels out = label_of <$> candidates self sentences
  ∧ out_candidates out
    = (if rlc
       then Some (owner_of <$> candidates self sentences,
                  pending_of <$> candidates self sentences)
       else None).
Proof.
  intros (acc & Hgen & Hlabels & Hcands & _)%forward_pass_ok.
  destruct (generate_ok _ _ _ _ Hgen) as (Hl & He & Hs & _).
  rewrite Hlabels, Hcands, Hl, He, Hs. by destruct rlc.
Qed.


(** X6.  [forward_pass] never pairs a span with itself and never leaves the
    allow-list: every pending label candidate it returns has a head and a
    tail that are different spans of two span labels of one sentence of the
    batch, and when an allow-list is configured the pair of the two label
    values is in it. *)
Theorem X6_candidates_are_filtered (self : RelationExtractor) (sentences : list Sentence)
    (w w' : World) (out : Output) :
  forward_pass self sentences true w = Ok (out, w') →
  ∃ owners pending,
    out_candidates out = Some (owners, pending)
    ∧ length owners = length pending
    ∧ Forall
        (fun p =>
           pending_head p ≠ pending_tail p
           ∧ ∃ s sl sl2,
               s ∈ sentences
               ∧ sl ∈ get_span_labels s (span_label_type self)
               ∧ sl2 ∈ get_span_labels s (span_label_type self)
               ∧ pending_head p = span sl ∧ pending_tail p = span sl2
               ∧ ∀ pairs, use_entity_pairs self = Some pairs →
                   (span_value sl, span_value sl2) ∈ pairs)
        pending.
Proof.
  intros [_ Hcands]%forward_pass_lists.
  eexists _, _. split; [exact Hcands |]. split; [by rewrite !length_fmap |].
  apply Forall_fmap, Forall_forall. intros c Hc.
  destruct (candidate_origin _ _ _ Hc) as (Hs & sl & sl2 & Hsl & Hsl2 & H1 & H2 & Hne & Hallowed).
  cbn. rewrite H1, H2. split; [done |].
  exists (cand_sentence c), sl, sl2. split_and!; try done.
  intros pairs Hpairs. unfold allowed_pair in Hallowed. rewrite Hpairs in Hallowed.
  by apply bool_decide_eq_true in Hallowed.
Qed.

(** X7.  The labels and the pending label candidates do not depend on how
    the sentences are grouped into batches: when [forward_pass] returns on
    two batches and on the two put together, the lists for the joint batch
    are the lists for the first followed by those for the second. *)
Theorem X7_batches_compose (self : RelationExtractor) (first second : list Sentence)
    (rlc : bool) (w1 w2 w w1' w2' w' : World) (out1 out2 out : Output) :
  forward_pass self first rlc w1 = Ok (out1, w1') →
  forward_pass self second rlc w2 = Ok (out2, w2') →
  forward_pass self (first ++ second) rlc w = Ok (out, w') →
  out_labels out = out_labels out1 ++ out_labels out2
  ∧ out_candidates out
    = (if rlc
       then p1 ← out_candidates out1; p2 ← out_candidates out2;
            Some (p1.1 ++ p2.1, p1.2 ++ p2.2)
       else None).
Proof.
  intros [Hl1 Hc1]%forward_pass_lists [Hl2 Hc2]%forward_pass_lists
         [Hl Hc]%forward_pass_lists.
  assert (Hcs : candidates self (first ++ second)
                = candidates self first ++ candidates self second)
    by apply bind_app.
  rewrite Hl, Hl1, Hl2, Hc, Hc1, Hc2, Hcs, !fmap_app.
  split; [done |]. by destruct rlc.
Qed.

(** A list of candidates is rewritten when each of them is. *)
Lemma rewrite_from_total (cs : list Candidate) (k : nat) :
  (∀ c, c ∈ cs → ∀ fresh, ∃ r,
     add_entity_markers fresh (cand_sentence c) (cand_span_1 c) (cand_span_2 c) = Ok r) →
  ∃ rs, rewrite_from k cs = Ok rs.
Proof.
  revert k. induction cs as [|c cs IH]; intros k Hall; [by eexists |].
  cbn [rewrite_from].
  destruct (Hall c (list_elem_of_here _ _) (ExpandedSentence k)) as [r ->].
  rewrite result_bind_ok.
  destruct (IH (S k)) as [rs ->]; [intros; apply Hall; by apply list_elem_of_further |].
  by eexists.
Qed.

(** X8.  Generation does not raise on well-formed input: when every token
    text of the batch is non-empty and free of spaces and the first token of
    every annotated span occurs in its sentence, the generation loop of
    [forward_pass] runs to its end, with or without entity markers, and
    leaves one label per candidate. *)
Theorem X8_generation_succeeds (self : RelationExtractor) (sentences : list Sentence)
    (rlc : bool) :
  (∀ s, s ∈ sentences →
     Forall (fun t => clean_word (text t) = true) (sent_tokens s)
     ∧ ∀ sl, sl ∈ get_span_labels s (span_label_type self) →
         span_first (span sl) ∈ sent_tokens s) →
  ∃ acc, generate self sentences rlc = Ok acc
         ∧ length (labels acc) = length (candidates self sentences)
         ∧ length (entity_pairs acc) = length (candidates self sentences).
Proof.
  intros Hwf.
  assert (∃ acc, generate self sentences rlc = Ok acc) as [acc Hgen].
  { destruct (use_entity_markers self) eqn:Hm.
    - rewrite generate_markers by done.
      destruct (rewrite_from_total (candidates self sentences) 0) as [rs ->]; [| by eexists].
      intros c Hc fresh.
      destruct (candidate_origin _ _ _ Hc) as (Hs & sl & sl2 & Hsl & Hsl2 & H1 & H2 & _).
      destruct (Hwf _ Hs) as [Hclean Hin].
      destruct (add_entity_markers_clean fresh (cand_sentence c) (cand_span_1 c)
                  (cand_span_2 c) Hclean) as [pair Hok].
      + rewrite H1. by apply Hin.
      + rewrite H2. by apply Hin.
      + by eexists.
    - rewrite generate_plain by done. by eexists. }
  exists acc. split; [done |].
  destruct (generate_ok _ _ _ _ Hgen) as (Hl & _ & _ & Hep & _).
  split; [by rewrite Hl, length_fmap | done].
Qed.

End Gold.

(** ** The constructor and the shape of the scores *)

Section Shapes.

Context `{Backend}.

Lemma add_item_lookup (d : list string) (item : string) (i : nat) (x : string) :
  d !! i = Some x → add_item d item !! i = Some x.
Proof.
  intros Hx. unfold add_item. case_bool_decide; [done |].
  by apply lookup_app_l_Some.
Qed.

Lemma add_item_NoDup (d : list string) (item : string) : NoDup d → NoDup (add_item d item).
Proof.
  intros Hnd. unfold add_item. case_bool_decide as Hin; [done |].
  apply NoDup_app. split_and!; [done | | apply NoDup_singleton].
  intros x Hx ->%list_elem_of_singleton. done.
Qed.

(** X9.  The constructor leaves a label dictionary that has ['O']: the given
    dictionary itself when it already has ['O'], and the given dictionary
    with ['O'] appended otherwise, so that every label keeps its index and
    no label is repeated if none was.  The decoder it builds reads vectors
    of the width fixed from the embeddings and the pooling operation and
    writes one score per label of that dictionary, through a hidden layer of
    width 1024 when the non-linear decoder is asked for; the model starts in
    training mode. *)
Theorem X9_constructor_invariants (e : Embeddings) (label_t span_label_t : option string)
    (markers gold : bool) (pairs : option (list (string * string)))
    (pooling : string) (p : scalar) (non_linear : bool) (args : ClassifierArgs) :
  let self := RelationExtractor_init e label_t span_label_t markers gold pairs pooling p
                non_linear args in
  let given := arg_label_dictionary args in
  "O" ∈ label_dictionary self
  ∧ ("O" ∈ given → label_dictionary self = given)
  ∧ ("O" ∉ given → label_dictionary self = given ++ ["O"])
  ∧ (∀ i x, given !! i = Some x → label_dictionary self !! i = Some x)
  ∧ (NoDup given → NoDup (label_dictionary self))
  ∧ match layers self with
    | LinearDecoder decoder =>
        non_linear = false
        ∧ shaped decoder (relation_representation_length e pooling)
                 (length (label_dictionary self))
    | NonLinearDecoder decoder_1 decoder_2 =>
        non_linear = true
        ∧ shaped decoder_1 (relation_representation_length e pooling) 1024
        ∧ shaped decoder_2 1024 (length (label_dictionary self))
    end
  ∧ training self = true.
Proof.
  intros self given. unfold self, RelationExtractor_init.
  cbn [label_dictionary layers training]. fold given.
  split_and!.
  - apply add_item_elem.
  - apply add_item_present.
  - intros Hnot. unfold add_item. by rewrite bool_decide_eq_false_2.
  - intros i x. apply add_item_lookup.
  - apply add_item_NoDup.
  - destruct non_linear; split_and!; try done; apply nn_Linear_shaped.
  - done.
Qed.

Lemma shaped_weight_length (l : Linear) (in_f out_f : nat) :
  shaped l in_f out_f → length (weight l) = out_f.
Proof.
  intros (_ & _ & Hw & _). apply (f_equal length) in Hw.
  unfold shape in Hw. by rewrite length_fmap, length_replicate in Hw.
Qed.

(** A layer of the right shape writes [out_features] entries, whatever the
    length of what it reads. *)
Lemma linear_row_length (l : Linear) (v : list scalar) (in_f out_f : nat) :
  shaped l in_f out_f → length (linear_row l v) = out_f.
Proof.
  intros Hs. pose proof (shaped_weight_length _ _ _ Hs) as Hw.
  destruct Hs as (_ & _ & _ & Hb). unfold linear_row.
  rewrite length_zip_with, length_fmap, Hw, Hb. lia.
Qed.

Lemma decode_row_length (self : RelationExtractor) (v : list scalar) :
  well_formed self → length (decode_row self v) = length (label_dictionary self).
Proof.
  intros [_ Hlayers]. unfold decode_row.
  destruct (non_linear_decoder self), (layers self) as [d | d1 d2]; try done.
  - destruct Hlayers as [_ H2]. by apply (linear_row_length d2 _ 1024).
  - by eapply linear_row_length.
Qed.

(** X10.  For a well-formed model, when [forward_pass] returns: the scores
    are absent exactly when the batch has no candidate, and otherwise the
    score tensor has at least one row and every row has one entry per label
    of the label dictionary (['O'] included). *)
Theorem X10_score_shape (self : RelationExtractor) (sentences : list Sentence)
    (rlc : bool) (w w' : World) (out : Output) :
  well_formed self →
  forward_pass self sentences rlc w = Ok (out, w') →
  (sentence_relation_scores out = None ↔ candidates self sentences = [])
  ∧ ∀ scores, sentence_relation_scores out = Some scores →
      0 < length scores
      ∧ Forall (fun row => length row = length (label_dictionary self)) scores.
Proof.
  intros Hwf (acc & Hgen & _ & _ & Hcase)%forward_pass_ok.
  destruct (generate_ok _ _ _ _ Hgen) as (Hl & _).
  destruct Hcase as [(Hnil & -> & _) | (Hne & ss & ps & Hss & _ & ->)].
  - split; [| done]. split; [intros _ | done].
    rewrite Hl in Hnil. by apply fmap_nil_inv in Hnil.
  - split.
    + split; [done |]. intros Hcs. rewrite Hl, Hcs in Hne. done.
    + intros scores [= <-]. split.
      * rewrite length_fmap, length_dropout_forward.
        assert (HP : 0 < length (candidates self sentences)).
        { destruct (candidates self sentences); [by rewrite Hl in Hne | simpl; lia]. }
        pose proof (candidates_sentences _ _ HP) as HN.
        pose proof (generate_consistent _ _ _ _ Hgen) as Hcons.
        pose proof Hss as Htorch.
        destruct (relation_embeddings (embed_all self ss ps w)) eqn:Hrel; [| simpl; lia].
        exfalso.
        pose proof (relation_embeddings_length self sentences acc ss ps w HN Hcons Hss)
          as Hlen.
        rewrite Hrel in Hlen. simpl in Hlen.
        destruct (generate_ok _ _ _ _ Hgen) as (_ & _ & _ & Hep & Hplain & Hmark).
        case_bool_decide; [| lia].
        destruct (use_entity_markers self).
        -- destruct (Hmark eq_refl) as [Hste _]. lia.
        -- destruct (Hplain eq_refl) as [_ Hste]. rewrite Hste in Hlen. lia.
      * apply Forall_fmap, Forall_forall. intros row _. cbn.
        by apply decode_row_length.
Qed.

End Shapes.

(** ** Chunks and provider calls of any returning call *)

Section Steps.

Context `{Backend}.

Lemma split_steps_zero {A} (l : list A) : split_steps l 0 = Raise ValueError.
Proof. reflexivity. Qed.

Lemma embedding_steps_generated (self : RelationExtractor) (sentences : list Sentence)
    (rlc : bool) (acc : Acc) :
  generate self sentences rlc = Ok acc →
  ∃ ss ps,
    embedding_steps sentences acc = Ok (ss, ps)
    ∧ length ss = length ps
    ∧ concat ss = sentences_to_embed acc
    ∧ concat ps = entity_pairs acc
    ∧ (use_entity_markers self = false ∨ length (candidates self sentences) ≤ length sentences * 4 →
         ss = [sentences_to_embed acc] ∧ ps = [entity_pairs acc]).
Proof.
  intros Hgen.
  pose proof (generate_consistent _ _ _ _ Hgen) as Hcons.
  destruct (generate_ok _ _ _ _ Hgen) as (_ & _ & _ & Hep & Hplain & Hmark).
  destruct (decide (length (sentences_to_embed acc) ≤ length sentences * 4)) as [Hle | Hgt].
  - eexists _, _. split; [by apply embedding_steps_single |].
    cbn. by rewrite !app_nil_r.
  - destruct (use_entity_markers self) eqn:Hm.
    + destruct (Hmark eq_refl) as [Hste _].
      assert (HN : 0 < length sentences) by (apply (candidates_sentences self); lia).
      destruct (embedding_steps_consistent self sentences acc HN Hcons)
        as (ss & ps & Hss & Hlen & Hcs & Hcp).
      exists ss, ps. split_and!; try done.
      intros [? | Hfew]; [done | lia].
    + destruct (Hplain eq_refl) as [_ Hste]. rewrite Hste in Hgt. lia.
Qed.

(** X11.  Cutting a list into steps of size zero raises [ValueError], but
    [forward_pass] cannot get there: for the lists that the generation loop
    leaves, the cut into embedding steps always succeeds, cuts the sentences
    to embed and the entity pairs into equally many steps, and loses or
    reorders nothing.  Without entity markers there is one step only, which
    holds the whole batch and every entity pair, however many candidates
    there are. *)
Theorem X11_embedding_steps_total (self : RelationExtractor) (sentences : list Sentence)
    (rlc : bool) (acc : Acc) :
  generate self sentences rlc = Ok acc →
  split_steps (entity_pairs acc) 0 = Raise ValueError
  ∧ ∃ ss ps,
      embedding_steps sentences acc = Ok (ss, ps)
      ∧ length ss = length ps
      ∧ concat ss = sentences_to_embed acc
      ∧ concat ps = entity_pairs acc
      ∧ (use_entity_markers self = false →
           ss = [sentences] ∧ ps = [entity_pairs acc]
           ∧ length (entity_pairs acc) = length (candidates self sentences)).
Proof.
  intros Hgen. split; [apply split_steps_zero |].
  destruct (embedding_steps_generated _ _ _ _ Hgen) as (ss & ps & Hss & Hlen & Hcs & Hcp & Hone).
  destruct (generate_ok _ _ _ _ Hgen) as (_ & _ & _ & Hep & Hplain & _).
  exists ss, ps. split_and!; try done.
  intros Hm. destruct (Hone (or_introl Hm)) as [-> ->].
  destruct (Hplain Hm) as [_ ->]. done.
Qed.

(** X12.  A returning call that has candidates and embeds a single chunk
    (always the case without entity markers, and with markers when there are
    at most [4 * N] candidates) makes exactly one [embed] call, on all
    sentences to embed at once and in the mode the provider is in, never
    switches the provider to evaluation mode, and switches it to training
    mode exactly when the model is in training mode: afterwards the provider
    is in training mode if the model is or the provider was. *)
Theorem X12_single_chunk_calls (self : RelationExtractor) (sentences : list Sentence)
    (rlc : bool) (w w' : World) (out : Output) (acc : Acc) :
  forward_pass self sentences rlc w = Ok (out, w') →
  generate self sentences rlc = Ok acc →
  0 < length (candidates self sentences) →
  use_entity_markers self = false
  ∨ length (candidates self sentences) ≤ length sentences * 4 →
  calls w'
  = calls w ++ [EmbedCall (provider_training w) (sentences_to_embed acc)]
    ++ (if training self then [TrainCall] else [])
  ∧ provider_training w' = training self || provider_training w
  ∧ (use_entity_markers self = false → sentences_to_embed acc = sentences).
Proof.
  intros Hfp Hgen HP Hone.
  destruct (embedding_steps_generated _ _ _ _ Hgen) as (ss & ps & Hss & _ & _ & _ & Hsingle).
  destruct (Hsingle Hone) as [-> ->].
  apply forward_pass_ok in Hfp as (acc' & Hgen' & _ & _ & Hcase).
  rewrite Hgen in Hgen'. simplify_eq.
  destruct (generate_ok _ _ _ _ Hgen) as (Hl & _ & _ & _ & Hplain & _).
  destruct Hcase as [(Hnil & _) | (_ & ss & ps & Hss' & -> & _)].
  { rewrite Hl in Hnil. apply fmap_nil_inv in Hnil. rewrite Hnil in HP. simpl in HP. lia. }
  rewrite Hss in Hss'. simplify_eq.
  rewrite embed_all_world by done.
  split_and!.
  - destruct (training self); cbn [provider_train calls];
      rewrite run_steps_calls; cbn [loop_events mbind list_bind];
      by rewrite <- ?app_assoc, ?app_nil_r.
  - destruct (training self); [done |]. by rewrite run_steps_mode_one.
  - intros Hm. by destruct (Hplain Hm).
Qed.

End Steps.

(** ** Saving and restoring *)

Section Restore.

Context `{Backend}.

Lemma result_bind_inv {A B} (m : result A) (f : A → result B) (b : B) :
  m ≫= f = Ok b → ∃ a, m = Ok a ∧ f a = Ok b.
Proof. destruct m as [a | e]; [by exists a | done]. Qed.

Lemma state_item_inv (state : gmap string StateValue) (key : string) (v : StateValue) :
  state_item state key = Ok v → state !! key = Some v.
Proof. unfold state_item. destruct (state !! key); [by intros [= ->] | done]. Qed.

Tactic Notation "item_inv" hyp(H) ident(x) ident(Hx) :=
  let v := fresh "v" in
  let Hv := fresh "Hv" in
  let Hk := fresh "Hk" in
  apply result_bind_inv in H as (x & Hx & H);
  apply result_bind_inv in Hx as (v & Hv & Hk);
  apply state_item_inv in Hv;
  destruct v; try done; cbn in Hk; simplify_eq.

(** What a returning restore has read, and the call it ends with. *)
Lemma restore_inv (state : gmap string StateValue) (m : RelationExtractor) :
  _init_model_with_state_dict state = Ok m →
  ∃ e d lt slt lw po dv ep em nl params,
    state !! "token_embeddings" = Some (VEmbeddings e)
    ∧ state !! "label_dictionary" = Some (VDictionary d)
    ∧ state !! "label_type" = Some (VTypeName lt)
    ∧ state !! "span_label_type" = Some (VTypeName slt)
    ∧ state !! "loss_weights" = Some (VLossWeights lw)
    ∧ state !! "pooling_operation" = Some (VStr po)
    ∧ state !! "dropout_value" = Some (VFloat dv)
    ∧ state !! "use_entity_pairs" = Some (VEntityPairs ep)
    ∧ state !! "use_entity_markers" = Some (VBool em)
    ∧ state !! "non_linear_decoder" = Some (VBool nl)
    ∧ state !! "state_dict" = Some (VParameters params)
    ∧ load_state_dict
        (RelationExtractor_init e lt slt em default_use_gold_spans (elements <$> ep)
           po dv nl (mkClassifierArgs d lw)) params = Ok m.
Proof.
  unfold _init_model_with_state_dict. intros Hm.
  item_inv Hm e He. item_inv Hm d Hd. item_inv Hm lt Hlt. item_inv Hm slt Hslt.
  item_inv Hm lw Hlw. item_inv Hm po Hpo. item_inv Hm dv Hdv. item_inv Hm ep Hep.
  item_inv Hm em Hem. item_inv Hm nl Hnl. item_inv Hm params Hparams.
  by exists e, d, lt, slt, lw, po, dv, ep, em, nl, params.
Qed.

Lemma load_linear_inv (target source d : Linear) (in_f out_f : nat) :
  shaped target in_f out_f → load_linear target source = Ok d →
  shaped d in_f out_f ∧ same_values d source.
Proof.
  intros (Hi & Ho & Hw & Hb). unfold load_linear.
  destruct (bool_decide (shape (weight source) = shape (weight target))) eqn:H1; [| done].
  destruct (bool_decide (length (bias source) = length (bias target))) eqn:H2; [| done].
  apply bool_decide_eq_true_1 in H1. apply bool_decide_eq_true_1 in H2.
  cbn [andb]. intros [= <-]. unfold shaped, same_values.
  cbn [in_features out_features weight bias]. split_and!; congruence.
Qed.

(** Loading parameters into a freshly built model keeps everything but the
    parameter values. *)
Lemma load_into_init (e : Embeddings) (lt slt : option string) (em gold : bool)
    (pairs : option (list (string * string))) (po : string) (dv : scalar) (nl : bool)
    (args : ClassifierArgs) (params : Decoder) (m : RelationExtractor) :
  load_state_dict (RelationExtractor_init e lt slt em gold pairs po dv nl args) params = Ok m →
  well_formed m
  ∧ same_parameters (layers m) params
  ∧ m = with_layers (RelationExtractor_init e lt slt em gold pairs po dv nl args) (layers m).
Proof.
  unfold load_state_dict, RelationExtractor_init. cbn [layers].
  destruct nl, params as [s | s1 s2]; try done; intros Hm.
  - apply result_bind_inv in Hm as (d1 & H1 & Hm).
    apply result_bind_inv in Hm as (d2 & H2 & Hm). simplify_eq.
    apply (load_linear_inv _ _ _ _ _ (nn_Linear_shaped _ _ _)) in H1 as [? ?].
    apply (load_linear_inv _ _ _ _ _ (nn_Linear_shaped _ _ _)) in H2 as [? ?].
    split_and!; [| done | done].
    unfold well_formed. cbn. split; [apply add_item_elem | done].
  - apply result_bind_inv in Hm as (d & H1 & Hm). simplify_eq.
    apply (load_linear_inv _ _ _ _ _ (nn_Linear_shaped _ _ _)) in H1 as [? ?].
    split_and!; [| done | done].
    unfold well_formed. cbn. split; [apply add_item_elem | done].
Qed.

(** X13.  Restoring a model from a state dictionary that lacks one of the
    eleven keys read by [_init_model_with_state_dict] never returns a model;
    when the state is what [_get_state_dict] saved with that one key removed,
    the exception is [KeyError]. *)
Theorem X13_missing_key_raises (state : gmap string StateValue) (key : string) :
  key ∈ required_keys →
  state !! key = None →
  is_raise (_init_model_with_state_dict state)
  ∧ ∀ self, _init_model_with_state_dict (delete key (_get_state_dict self)) = Raise KeyError.
Proof.
  intros Hkey Hnone. split.
  - destruct (_init_model_with_state_dict state) as [m | ex] eqn:Hm; [| done].
    apply restore_inv in Hm
      as (e & d & lt & slt & lw & po & dv & ep & em & nl & params
          & ? & ? & ? & ? & ? & ? & ? & ? & ? & ? & ? & _).
    unfold required_keys in Hkey.
    repeat (apply elem_of_cons in Hkey as [-> | Hkey]; [congruence |]).
    by apply elem_of_nil in Hkey.
  - intros self. unfold required_keys in Hkey.
    repeat (apply elem_of_cons in Hkey as [-> | Hkey]; [reflexivity |]).
    by apply elem_of_nil in Hkey.
Qed.

(** X14.  Whatever the state dictionary, a model that
    [_init_model_with_state_dict] returns is well-formed, has [use_gold_spans]
    at the default [False] and is in training mode; its configuration is
    what the state holds under the ten configuration keys, its label
    dictionary is the stored one with ['O'] added if it was missing, and its
    decoder has the stored parameter values. *)
Theorem X14_restored_model (state : gmap string StateValue) (m : RelationExtractor) :
  _init_model_with_state_dict state = Ok m →
  well_formed m
  ∧ use_gold_spans m = false
  ∧ training m = true
  ∧ state !! "token_embeddings" = Some (VEmbeddings (embeddings m))
  ∧ state !! "label_type" = Some (VTypeName (label_type m))
  ∧ state !! "span_label_type" = Some (VTypeName (span_label_type m))
  ∧ state !! "loss_weights" = Some (VLossWeights (loss_weights m))
  ∧ state !! "pooling_operation" = Some (VStr (pooling_operation m))
  ∧ state !! "dropout_value" = Some (VFloat (dropout_value m))
  ∧ state !! "use_entity_pairs" = Some (VEntityPairs (use_entity_pairs m))
  ∧ state !! "use_entity_markers" = Some (VBool (use_entity_markers m))
  ∧ state !! "non_linear_decoder" = Some (VBool (non_linear_decoder m))
  ∧ (∃ d, state !! "label_dictionary" = Some (VDictionary d)
          ∧ label_dictionary m = add_item d "O")
  ∧ (∃ params, state !! "state_dict" = Some (VParameters params)
               ∧ same_parameters (layers m) params).
Proof.
  intros Hm.
  apply restore_inv in Hm
    as (e & d & lt & slt & lw & po & dv & ep & em & nl & params
        & ? & ? & ? & ? & ? & ? & ? & ? & ? & ? & ? & Hload).
  apply load_into_init in Hload as (Hwf & Hsame & Hm).
  split; [done |]. rewrite Hm. unfold with_layers, RelationExtractor_init. cbn.
  rewrite set_of_elements.
  split_and!; try done; [by exists d | exists params].
  by rewrite Hm in Hsame.
Qed.

(** Restoring what was saved gives the model back with [use_gold_spans] at
    its default and in training mode. *)
Lemma restore_saved (self : RelationExtractor) :
  well_formed self →
  _init_model_with_state_dict (_get_state_dict self) = Ok (freshly_built self).
Proof.
  intros [HO Hlayers].
  destruct (state_items self)
    as (Hsd & Hte & Hld & Hlt & Hslt & Hlw & Hpo & Hdv & Hep & Hem & Hnl & _).
  unfold _init_model_with_state_dict.
  rewrite Hsd, Hte, Hld, Hlt, Hslt, Hlw, Hpo, Hdv, Hep, Hem, Hnl.
  cbn [mbind result_bind as_parameters as_embeddings as_dictionary as_type_name
       as_loss_weights as_str as_float as_entity_pairs as_bool].
  unfold RelationExtractor_init, load_state_dict, freshly_built.
  cbn [layers arg_label_dictionary arg_loss_weights].
  rewrite add_item_present, set_of_elements by done.
  destruct (non_linear_decoder self) eqn:Hn, (layers self) as [d | d1 d2] eqn:Hl; try done.
  - destruct Hlayers as [H1 H2].
    rewrite (load_linear_shaped _ d1 _ _ (nn_Linear_shaped _ _ _) H1).
    rewrite result_bind_ok.
    rewrite (load_linear_shaped _ d2 _ _ (nn_Linear_shaped _ _ _) H2).
    by rewrite result_bind_ok.
  - rewrite (load_linear_shaped _ d _ _ (nn_Linear_shaped _ _ _) Hlayers).
    by rewrite result_bind_ok.
Qed.

Lemma freshly_built_well_formed (self : RelationExtractor) :
  well_formed self → well_formed (freshly_built self).
Proof. done. Qed.


End Restore.

(** ** When [forward_pass] returns *)

Section Returns.

Context `{Backend}.

Lemma forallb_length (n : nat) (rows : list (list scalar)) :
  forallb (fun row : list scalar => length row =? n) rows = true
  ↔ Forall (fun row : list scalar => length row = n) rows.
Proof.
  rewrite forallb_forall, Forall_forall. split; intros Hall r Hr.
  - apply Nat.eqb_eq, Hall. by apply list_elem_of_In.
  - apply Nat.eqb_eq, Hall. by apply list_elem_of_In.
Qed.

Lemma torch_stack_returns (rows : list (list scalar)) (n : nat) :
  rows ≠ [] → Forall (fun row : list scalar => length row = n) rows →
  torch_stack rows = Ok rows.
Proof.
  intros Hne Hall. destruct rows as [|r rest]; [done |]. cbn [torch_stack].
  apply Forall_cons in Hall as [Hr Hrest]. rewrite Hr.
  by rewrite (proj2 (forallb_length n rest) Hrest).
Qed.

Lemma linear_forward_returns (l : Linear) (t : list (list scalar)) :
  (∃ out, linear_forward l t = Ok out)
  ↔ Forall (fun row : list scalar => length row = in_features l) t.
Proof.
  unfold linear_forward. rewrite <- forallb_length.
  destruct (forallb _ t); split; try done.
  - by eexists.
  - by intros [out ?].
Qed.

Lemma decode_returns (self : RelationExtractor) (t : list (list scalar)) :
  well_formed self →
  (∃ scores, decode self t = Ok scores)
  ↔ Forall (fun row : list scalar =>
              length row = relation_representation_length (embeddings self)
                                                          (pooling_operation self)) t.
Proof.
  intros [_ Hlayers]. unfold decode.
  destruct (non_linear_decoder self), (layers self) as [d | d1 d2]; try done.
  - destruct Hlayers as [H1 H2].
    pose proof H1 as (Hin1 & _). pose proof H2 as (Hin2 & _).
    rewrite <- Hin1, <- linear_forward_returns. split.
    + intros [scores Hs]. destruct (linear_forward d1 t) as [hidden |]; [by eexists | done].
    + intros [hidden Hh]. rewrite Hh, result_bind_ok.
      apply linear_forward_returns. apply linear_forward_ok in Hh as ->.
      unfold relu_forward. rewrite Hin2, <- list_fmap_compose.
      apply Forall_fmap, Forall_forall. intros row _. cbn.
      rewrite length_fmap. by eapply linear_row_length.
  - destruct Hlayers as (Hin & _). rewrite <- Hin. apply linear_forward_returns.
Qed.

Lemma dropout_forward_widths (self : RelationExtractor) (t : list (list scalar)) (n : nat) :
  Forall (fun row : list scalar => length row = n)
         (dropout_forward (dropout_value self) (training self) t)
  ↔ Forall (fun row : list scalar => length row = n) t.
Proof.
  rewrite !Forall_lookup. split; intros Hall i row Hrow.
  - pose proof (dropout_forward_lookup self t i) as Hd. rewrite Hrow in Hd. cbn in Hd.
    apply Hall in Hd. revert Hd. unfold dropout_row.
    destruct (training self); [by rewrite length_imap | done].
  - rewrite dropout_forward_lookup in Hrow.
    destruct (t !! i) as [v |] eqn:Hv; [| done]. cbn in Hrow. simplify_eq.
    unfold dropout_row. destruct (training self); [rewrite length_imap |]; by eapply Hall.
Qed.

(** X16.  For a well-formed model and a batch with at least one candidate on
    which the generation loop does not raise, [forward_pass] returns exactly
    when every representation that the embedding loop collects has the input
    width of the decoder that the constructor built; otherwise it raises. *)
Theorem X16_returns_iff_widths (self : RelationExtractor) (sentences : list Sentence)
    (rlc : bool) (w : World) (acc : Acc) :
  well_formed self →
  generate self sentences rlc = Ok acc →
  0 < length (candidates self sentences) →
  (∃ out w', forward_pass self sentences rlc w = Ok (out, w'))
  ↔ (∀ i v, representation self sentences acc w i = Some v →
        length v = relation_representation_length (embeddings self)
                                                  (pooling_operation self)).
Proof.
  intros Hwf Hgen HP.
  pose proof (generate_consistent _ _ _ _ Hgen) as Hcons.
  destruct (generate_ok _ _ _ _ Hgen) as (Hl & _ & _ & Hep & Hplain & Hmark).
  assert (HN : 0 < length sentences) by (by apply (candidates_sentences self)).
  destruct (embedding_steps_generated _ _ _ _ Hgen) as (ss & ps & Hss & _).
  pose proof (relation_embeddings_length self sentences acc ss ps w HN Hcons Hss) as Hlen.
  assert (Hrows : relation_embeddings (embed_all self ss ps w) ≠ []).
  { intros Hnil. rewrite Hnil in Hlen. cbn in Hlen.
    case_bool_decide; [| lia].
    destruct (use_entity_markers self) eqn:Hm.
    - destruct (Hmark eq_refl) as [Hste _]. lia.
    - destruct (Hplain eq_refl) as [_ Hste]. rewrite Hste in Hlen. lia. }
  assert (Hlabels : (0 <? length (labels acc)) = true).
  { apply Nat.ltb_lt. rewrite Hl, length_fmap. done. }
  unfold forward_pass. rewrite Hgen, result_bind_ok, Hlabels.
  unfold embed_and_decode. rewrite Hss, result_bind_ok. cbn [fst snd].
  assert (Hrep : ∀ P : list scalar → Prop,
            Forall P (relation_embeddings (embed_all self ss ps w))
            ↔ ∀ i v, representation self sentences acc w i = Some v → P v).
  { intros P. rewrite Forall_lookup. split; intros Hall i v Hv.
    - apply (Hall i). by rewrite (relation_embeddings_lookup self sentences acc ss ps).
    - apply (Hall i). by rewrite <- (relation_embeddings_lookup self sentences acc ss ps). }
  rewrite <- (Hrep (fun v => length v = relation_representation_length
                                          (embeddings self) (pooling_operation self))).
  split.
  - intros (out & w' & Hfp).
    destruct (torch_stack _) as [all |] eqn:Hstack; [| done].
    apply torch_stack_ok in Hstack as ->. rewrite result_bind_ok in Hfp.
    destruct (decode self _) as [scores |] eqn:Hdec; [| done].
    apply (dropout_forward_widths self), (decode_returns self); [done | by eexists].
  - intros Hall. rewrite (torch_stack_returns _ _ Hrows Hall), result_bind_ok.
    destruct (proj2 (decode_returns self _ Hwf)
                (proj2 (dropout_forward_widths self _ _) Hall)) as [scores ->].
    rewrite !result_bind_ok. by eexists _, _.
Qed.

End Returns.

(** ** The further properties on the sentence "A B C D" *)

(** The entities B and D are both in the sentence; a span "Z" is not. *)
Lemma X1_witness :
  (∃ es pair,
     add_entity_markers (ExpandedSentence 0) demo_sentence span_B span_D = Ok (es, pair))
  ∧ add_entity_markers (ExpandedSentence 0) demo_sentence span_B (demo_span 9 "Z")
    = Raise UnboundLocalError.
Proof.
  split.
  - apply (proj1 (X1_add_entity_markers_outcome (ExpandedSentence 0) demo_sentence
                    span_B span_D ltac:(by repeat constructor)));
      by apply (bool_decide_unpack _); vm_compute.
  - apply (proj2 (X1_add_entity_markers_outcome (ExpandedSentence 0) demo_sentence
                    span_B (demo_span 9 "Z") ltac:(by repeat constructor))).
    right. by apply (bool_decide_unpack _); vm_compute.
Defined.

(** The rewriting for the pair (D, B). *)
Lemma X2_witness :
  ∃ es a b,
    add_entity_markers (ExpandedSentence 7) demo_sentence span_D span_B = Ok (es, (a, b))
    ∧ sent_id es = ExpandedSentence 7
    ∧ (∀ i t, sent_tokens es !! i = Some t → tok_sentence t = ExpandedSentence 7 ∧ idx t = S i)
    ∧ tokens a = [span_first a] ∧ tokens b = [span_first b]
    ∧ ((text (span_first a) = "<e1>" ∧ text (span_first b) = "<e2>")
       ∨ (text (span_first a) = "<e2>" ∧ text (span_first b) = "<e1>")).
Proof.
  destruct (add_entity_markers (ExpandedSentence 7) demo_sentence span_D span_B)
    as [[es [a b]] | e] eqn:Hok; [| by vm_compute in Hok].
  destruct (X2_add_entity_markers_result _ _ _ _ es a b Hok)
    as (Hid & _ & Htok & Ha & Hb & _ & _ & Htexts).
  exists es, a, b. split_and!; [reflexivity | exact Hid | exact Htok | exact Ha | exact Hb | exact Htexts].
Defined.

(** Taking the markers out of the rewriting for (B, D) gives "A B C D". *)
Lemma X3_witness :
  ∃ es pair,
    add_entity_markers (ExpandedSentence 0) demo_sentence span_B span_D = Ok (es, pair)
    ∧ filter (fun w => is_marker w = false) (text <$> sent_tokens es) = ["A"; "B"; "C"; "D"].
Proof.
  destruct (add_entity_markers (ExpandedSentence 0) demo_sentence span_B span_D)
    as [[es pair] | e] eqn:Hok; [| by vm_compute in Hok].
  exists es, pair. split; [reflexivity |].
  apply (X3_markers_removed_round_trip (ExpandedSentence 0) demo_sentence span_B span_D es pair
           ltac:(by repeat constructor) ltac:(by repeat constructor) Hok).
Defined.


(** Three entities and the allow-list (PER, LOC). *)
Lemma X6_witness :
  ∃ out w' owners pending,
    forward_pass demo_gold_model [demo_sentence_three] true demo_world = Ok (out, w')
    ∧ out_candidates out = Some (owners, pending)
    ∧ length owners = length pending
    ∧ Forall
        (fun p =>
           pending_head p ≠ pending_tail p
           ∧ ∃ s sl sl2,
               s ∈ [demo_sentence_three]
               ∧ sl ∈ get_span_labels s (span_label_type demo_gold_model)
               ∧ sl2 ∈ get_span_labels s (span_label_type demo_gold_model)
               ∧ pending_head p = span sl ∧ pending_tail p = span sl2
               ∧ ∀ pairs, use_entity_pairs demo_gold_model = Some pairs →
                   (span_value sl, span_value sl2) ∈ pairs)
        pending.
Proof.
  destruct (forward_pass demo_gold_model [demo_sentence_three] true demo_world)
    as [[out w'] | e] eqn:Hfp; [| by vm_compute in Hfp].
  destruct (X6_candidates_are_filtered demo_gold_model [demo_sentence_three] demo_world w' out
              Hfp) as (owners & pending & Hc & Hlen & Hall).
  exists out, w', owners, pending.
  split_and!; [reflexivity | exact Hc | exact Hlen | exact Hall].
Defined.

(** A batch of two sentences against its two halves. *)
Lemma X7_witness :
  ∃ out1 out2 out w1 w2 w,
    forward_pass demo_plain_model [demo_sentence] true demo_world = Ok (out1, w1)
    ∧ forward_pass demo_plain_model [demo_sentence_three] true demo_world = Ok (out2, w2)
    ∧ forward_pass demo_plain_model [demo_sentence; demo_sentence_three] true demo_world
      = Ok (out, w)
    ∧ out_labels out = out_labels out1 ++ out_labels out2
    ∧ out_candidates out
      = (p1 ← out_candidates out1; p2 ← out_candidates out2;
         Some (p1.1 ++ p2.1, p1.2 ++ p2.2)).
Proof.
  destruct (forward_pass demo_plain_model [demo_sentence] true demo_world)
    as [[out1 w1] | e] eqn:H1; [| by vm_compute in H1].
  destruct (forward_pass demo_plain_model [demo_sentence_three] true demo_world)
    as [[out2 w2] | e] eqn:H2; [| by vm_compute in H2].
  destruct (forward_pass demo_plain_model [demo_sentence; demo_sentence_three] true demo_world)
    as [[out w] | e] eqn:H3; [| by vm_compute in H3].
  destruct (X7_batches_compose demo_plain_model [demo_sentence] [demo_sentence_three] true
              demo_world demo_world demo_world w1 w2 w out1 out2 out H1 H2 H3)
    as [Hl Hc].
  exists out1, out2, out, w1, w2, w.
  split_and!; [reflexivity | reflexivity | reflexivity | exact Hl | exact Hc].
Defined.

(** Entity markers on the sentence with three entities. *)
Lemma X8_witness :
  ∃ acc, generate demo_marker_model [demo_sentence_three] true = Ok acc
         ∧ length (labels acc) = length (candidates demo_marker_model [demo_sentence_three])
         ∧ length (entity_pairs acc)
           = length (candidates demo_marker_model [demo_sentence_three]).
Proof.
  apply (X8_generation_succeeds demo_marker_model [demo_sentence_three] true).
  intros s Hs. apply list_elem_of_singleton in Hs as ->.
  split; [by repeat constructor |].
  intros sl Hsl.
  change (sl ∈ [mkSpanLabel span_B "PER"; mkSpanLabel span_D "LOC"; mkSpanLabel span_A "ORG"])
    in Hsl.
  repeat (apply elem_of_cons in Hsl as [-> | Hsl];
          [by apply (bool_decide_unpack _); vm_compute |]).
  by apply elem_of_nil in Hsl.
Defined.

(** Two candidates and the dictionary [born_in, O]. *)
Lemma X10_witness :
  ∃ out w' scores,
    forward_pass demo_plain_model [demo_sentence] false demo_world = Ok (out, w')
    ∧ sentence_relation_scores out = Some scores
    ∧ 0 < length scores
    ∧ Forall (fun row => length row = 2) scores.
Proof.
  destruct (forward_pass demo_plain_model [demo_sentence] false demo_world)
    as [[out w'] | e] eqn:Hfp; [| by vm_compute in Hfp].
  destruct (X10_score_shape demo_plain_model [demo_sentence] false demo_world w' out
              (init_well_formed _ _ _ _ _ _ _ _ _ _) Hfp) as [Hnone Hsome].
  destruct (sentence_relation_scores out) as [scores |] eqn:Hscores.
  - destruct (Hsome scores eq_refl) as [Hlen Hrows]. exists out, w', scores.
    split_and!; [reflexivity | exact Hscores | exact Hlen | exact Hrows].
  - pose proof (proj1 Hnone eq_refl) as Hcs. by vm_compute in Hcs.
Defined.

(** Six candidates without entity markers: one step. *)
Lemma X11_witness :
  ∃ acc ss ps,
    generate demo_plain_model [demo_sentence_three] false = Ok acc
    ∧ embedding_steps [demo_sentence_three] acc = Ok (ss, ps)
    ∧ length ss = length ps
    ∧ ss = [[demo_sentence_three]]
    ∧ ps = [entity_pairs acc]
    ∧ length (entity_pairs acc) = length (candidates demo_plain_model [demo_sentence_three]).
Proof.
  destruct (generate demo_plain_model [demo_sentence_three] false)
    as [acc | e] eqn:Hgen; [| by vm_compute in Hgen].
  destruct (X11_embedding_steps_total demo_plain_model [demo_sentence_three] false acc Hgen)
    as (_ & ss & ps & Hss & Hlen & _ & _ & Hone).
  destruct (Hone eq_refl) as (Hs & Hp & Hn).
  exists acc, ss, ps.
  split_and!; [reflexivity | exact Hss | exact Hlen | exact Hs | exact Hp | exact Hn].
Defined.

(** One [embed] call on the batch, then the switch back to training mode. *)
Lemma X12_witness :
  ∃ out w',
    forward_pass demo_plain_model [demo_sentence] false demo_world = Ok (out, w')
    ∧ calls w' = [EmbedCall true [demo_sentence]; TrainCall]
    ∧ provider_training w' = true.
Proof.
  destruct (forward_pass demo_plain_model [demo_sentence] false demo_world)
    as [[out w'] | e] eqn:Hfp; [| by vm_compute in Hfp].
  destruct (generate demo_plain_model [demo_sentence] false)
    as [acc | e] eqn:Hgen; [| by vm_compute in Hgen].
  destruct (X12_single_chunk_calls demo_plain_model [demo_sentence] false demo_world w' out acc
              Hfp Hgen ltac:(vm_compute; lia) ltac:(by left))
    as (Hcalls & Hmode & Hste).
  exists out, w'. rewrite (Hste eq_refl) in Hcalls.
  split_and!; [reflexivity | exact Hcalls | exact Hmode].
Defined.

(** A saved state without its dropout value. *)
Lemma X13_witness :
  is_raise (_init_model_with_state_dict
              (delete "dropout_value" (_get_state_dict demo_gold_model)))
  ∧ _init_model_with_state_dict (delete "dropout_value" (_get_state_dict demo_plain_model))
    = Raise KeyError.
Proof.
  assert (Hkey : "dropout_value" ∈ required_keys)
    by (by apply (bool_decide_unpack _); vm_compute).
  assert (Hnone : delete "dropout_value" (_get_state_dict demo_gold_model) !! "dropout_value"
                  = None) by reflexivity.
  destruct (X13_missing_key_raises _ _ Hkey Hnone) as [Hraise Hdel].
  split; [exact Hraise | apply Hdel].
Defined.

(** The state saved by the model built in gold-only mode. *)
Lemma X14_witness :
  ∃ m,
    _init_model_with_state_dict (_get_state_dict demo_gold_model) = Ok m
    ∧ well_formed m
    ∧ use_gold_spans m = false
    ∧ training m = true
    ∧ same_parameters (layers m) (layers demo_gold_model).
Proof.
  pose proof (restore_saved demo_gold_model (init_well_formed _ _ _ _ _ _ _ _ _ _)) as Hok.
  destruct (X14_restored_model _ _ Hok)
    as (Hwf & Hgold & Htrain & _ & _ & _ & _ & _ & _ & _ & _ & _ & _ & params & Hp & Hsame).
  destruct (state_items demo_gold_model) as (Hsd & _).
  unfold state_item in Hsd. rewrite Hp in Hsd. injection Hsd as ->.
  exists (freshly_built demo_gold_model).
  split_and!; [exact Hok | exact Hwf | exact Hgold | exact Htrain | exact Hsame].
Defined.


(** With first-token pooling the widths agree and the call returns; with the
    default pooling they do not and it raises. *)
Lemma X16_witness :
  (∃ out w', forward_pass demo_plain_model [demo_sentence] false demo_world = Ok (out, w'))
  ∧ ∃ acc,
      generate demo_default_model [demo_sentence] false = Ok acc
      ∧ ¬ (∀ i v, representation demo_default_model [demo_sentence] acc demo_world i = Some v →
             length v = 4).
Proof.
  split.
  - destruct (generate demo_plain_model [demo_sentence] false)
      as [acc | e] eqn:Hgen; [| by vm_compute in Hgen].
    apply (proj2 (X16_returns_iff_widths demo_plain_model [demo_sentence] false demo_world acc
                    (init_well_formed _ _ _ _ _ _ _ _ _ _) Hgen ltac:(vm_compute; lia))).
    vm_compute in Hgen. injection Hgen as <-.
    intros [|[|i]] v Hv; vm_compute in Hv; by simplify_eq.
  - destruct (generate demo_default_model [demo_sentence] false)
      as [acc | e] eqn:Hgen; [| by vm_compute in Hgen].
    exists acc. split; [reflexivity |]. intros Hwidths.
    apply (proj2 (X16_returns_iff_widths demo_default_model [demo_sentence] false demo_world
                    acc (init_well_formed _ _ _ _ _ _ _ _ _ _) Hgen ltac:(vm_compute; lia)))
      in Hwidths as (out & w' & Hfp).
    by vm_compute in Hfp.
Defined.
